(** * Address book assistant (addressbook.py): a shallow embedding

    The development follows the layout of [addressbook.py]:

    - Python values the program manipulates: [str] as a list of Unicode
      code points, exceptions, results;
    - the parts of the Python library the program calls: the [re] engine
      restricted to the constructs used here, [int], [datetime.date],
      [strptime] and [strftime];
    - the classes [Field], [Name], [Phone], [Birthday], [Record] and
      [AddressBook], with record objects living in a heap so that the
      aliasing between a local variable and the book entry is visible;
    - [save_data] and [load_data] over a file system and a pickle codec;
    - the decorated command handlers [add_contact] and [add_birthday];
    - the properties of the specification. *)

From Stdlib Require Import ZArith NArith List String Ascii Bool Lia.
From stdpp Require Import base option list gmap.

Local Open Scope Z_scope.

(* ===================================================================== *)
(** * Python values *)
(* ===================================================================== *)

(** A Python [str] is a sequence of Unicode code points. *)
Abbreviation pystr := (list N).

(** String literals of the source are all ASCII. *)
Definition lit (s : string) : pystr :=
  List.map N_of_ascii (list_ascii_of_string s).

(** Exceptions the modelled code can raise, with [str(e)] being the message. *)
Inductive exn :=
| ValueError (msg : pystr)
| OverflowError (msg : pystr)
| AttributeError (msg : pystr)
| UnpicklingError (msg : pystr)
| SystemError (msg : pystr)
| OSError (msg : pystr)
| EOFError (msg : pystr).

Definition str_exn (e : exn) : pystr :=
  match e with
  | ValueError msg | OverflowError msg | AttributeError msg
  | UnpicklingError msg | SystemError msg | OSError msg
  | EOFError msg => msg
  end.

Inductive result (A : Type) :=
| Ok (a : A)
| Raise (e : exn).
Arguments Ok {A} a.
Arguments Raise {A} e.

Definition is_ok {A} (r : result A) : bool :=
  match r with Ok _ => true | Raise _ => false end.

(* ===================================================================== *)
(** * Unicode decimal digits

    For [str] patterns the class [\d] of [re] matches every code point of
    general category Nd, and [int] converts the same code points.  Every
    such code point lies in a run of ten consecutive code points whose
    first element has value zero; [Nd_zeros] lists those first elements
    (Unicode 14.0.0, the database of CPython 3.11). *)
(* ===================================================================== *)

Module Unicode.

Definition Nd_zeros : list N :=
  [ 0x30; 0x660; 0x6f0; 0x7c0; 0x966; 0x9e6; 0xa66; 0xae6; 0xb66; 0xbe6;
    0xc66; 0xce6; 0xd66; 0xde6; 0xe50; 0xed0; 0xf20; 0x1040; 0x1090;
    0x17e0; 0x1810; 0x1946; 0x19d0; 0x1a80; 0x1a90; 0x1b50; 0x1bb0;
    0x1c40; 0x1c50; 0xa620; 0xa8d0; 0xa900; 0xa9d0; 0xa9f0; 0xaa50;
    0xabf0; 0xff10; 0x104a0; 0x10d30; 0x11066; 0x110f0; 0x11136; 0x111d0;
    0x112f0; 0x11450; 0x114d0; 0x11650; 0x116c0; 0x11730; 0x118e0;
    0x11950; 0x11c50; 0x11d50; 0x11da0; 0x16a60; 0x16ac0; 0x16b50;
    0x1d7ce; 0x1d7d8; 0x1d7e2; 0x1d7ec; 0x1d7f6; 0x1e140; 0x1e2f0;
    0x1e950; 0x1fbf0 ]%N.

(** [unicodedata.decimal(c)], or [None] when [c] is not of category Nd. *)
Fixpoint decimal_in (zeros : list N) (c : N) : option N :=
  match zeros with
  | [] => None
  | z :: zs =>
      if ((z <=? c) && (c <=? z + 9))%N then Some (c - z)%N
      else decimal_in zs c
  end.

Definition decimal (c : N) : option N := decimal_in Nd_zeros c.

Definition isdecimal (c : N) : bool :=
  match decimal c with Some _ => true | None => false end.

(** The ASCII digits ['0'] to ['9']. *)
Definition is_ascii_digit (c : N) : bool := ((48 <=? c) && (c <=? 57))%N.

End Unicode.

(* ===================================================================== *)
(** * The [re] engine, restricted to what the program's patterns use

    Character classes, concatenation, alternation and named groups: the
    constructs of [\d{10}] and of the pattern [strptime] builds.  The
    matcher is a backtracking one, as [re] is: alternatives are tried from
    left to right and a later failure re-enters the most recent choice. *)
(* ===================================================================== *)

Module Re.

Inductive cclass :=
| CChar (c : N)              (* a literal character *)
| CRange (lo hi : N)         (* [lo-hi] *)
| CDigit.                    (* \d *)

Definition cclass_mem (cl : cclass) (c : N) : bool :=
  match cl with
  | CChar c0 => (c =? c0)%N
  | CRange lo hi => ((lo <=? c) && (c <=? hi))%N
  | CDigit => Unicode.isdecimal c
  end.

Inductive regex :=
| Eps
| Chr (cl : cclass)
| Seq (a b : regex)
| Alt (a b : regex)
| Grp (name : string) (r : regex).   (* (?P<name>r) *)

(** [r{n}] *)
Fixpoint Rep (n : nat) (r : regex) : regex :=
  match n with
  | O => Eps
  | S n' => Seq r (Rep n' r)
  end.

(** The groups captured so far, most recent first. *)
Abbreviation groupdict := (list (string * pystr)).

Fixpoint group (gd : groupdict) (name : string) : option pystr :=
  match gd with
  | [] => None
  | (n, t) :: gd' => if String.eqb n name then Some t else group gd' name
  end.

(** [exec r s gd k] matches [r] at the start of [s] and hands the rest of
    the input and the groups to the continuation [k]; when [k] fails the
    next way of matching [r] is tried. *)
Fixpoint exec {A} (r : regex) (s : pystr) (gd : groupdict)
    (k : pystr -> groupdict -> option A) : option A :=
  match r with
  | Eps => k s gd
  | Chr cl =>
      match s with
      | c :: s' => if cclass_mem cl c then k s' gd else None
      | [] => None
      end
  | Seq a b => exec a s gd (fun s1 gd1 => exec b s1 gd1 k)
  | Alt a b =>
      match exec a s gd k with
      | Some x => Some x
      | None => exec b s gd k
      end
  | Grp name r' =>
      exec r' s gd
        (fun s1 gd1 => k s1 ((name, take (length s - length s1) s) :: gd1))
  end.

(** [pattern.match(s)]: the groups and the unconsumed rest of the input
    ([found.end()] is [len(s)] minus the length of that rest). *)
Definition match_ (r : regex) (s : pystr) : option (groupdict * pystr) :=
  exec r s [] (fun rest gd => Some (gd, rest)).

(** [re.fullmatch(pattern, s)]: the whole input has to be consumed. *)
Definition fullmatch (r : regex) (s : pystr) : option groupdict :=
  exec r s [] (fun rest gd =>
                 match rest with [] => Some gd | _ :: _ => None end).

(** What a match is, without the search: [sem r t gd gd'] says that [r]
    matches exactly the text [t] and turns the groups [gd] into [gd']. *)
Fixpoint sem (r : regex) (t : pystr) (gd gd' : groupdict) : Prop :=
  match r with
  | Eps => t = [] /\ gd' = gd
  | Chr cl => (exists c, t = [c] /\ cclass_mem cl c = true) /\ gd' = gd
  | Seq a b =>
      exists t1 t2 gd1, t = t1 ++ t2 /\ sem a t1 gd gd1 /\ sem b t2 gd1 gd'
  | Alt a b => sem a t gd gd' \/ sem b t gd gd'
  | Grp name r' => exists gd1, sem r' t gd gd1 /\ gd' = (name, t) :: gd1
  end.

End Re.

(* ===================================================================== *)
(** * [int] on the strings the program passes to it

    [strptime] converts the captured groups with [int].  A group of its
    pattern holds decimal digits, after one space at most; on such strings
    (spaces, U+0020, around a non-empty run of decimal digits of any
    script) [py_int] is [int].  Signs and underscores, which no group can
    capture, are not modelled and give [None] like any invalid literal. *)
(* ===================================================================== *)

Fixpoint digits_value (t : pystr) (acc : Z) : option Z :=
  match t with
  | [] => Some acc
  | c :: t' =>
      match Unicode.decimal c with
      | Some v => digits_value t' (10 * acc + Z.of_N v)
      | None => None
      end
  end.

Fixpoint lstrip (t : pystr) : pystr :=
  match t with
  | c :: t' => if (c =? 32)%N then lstrip t' else t
  | [] => []
  end.

Definition strip (t : pystr) : pystr := rev (lstrip (rev (lstrip t))).

Definition py_int (t : pystr) : option Z :=
  match strip t with
  | [] => None
  | c :: t' => digits_value (c :: t') 0
  end.

(** [str(n)] for an integer. *)
Fixpoint uint_codes (u : Decimal.uint) : pystr :=
  match u with
  | Decimal.Nil => []
  | Decimal.D0 u' => 48%N :: uint_codes u'
  | Decimal.D1 u' => 49%N :: uint_codes u'
  | Decimal.D2 u' => 50%N :: uint_codes u'
  | Decimal.D3 u' => 51%N :: uint_codes u'
  | Decimal.D4 u' => 52%N :: uint_codes u'
  | Decimal.D5 u' => 53%N :: uint_codes u'
  | Decimal.D6 u' => 54%N :: uint_codes u'
  | Decimal.D7 u' => 55%N :: uint_codes u'
  | Decimal.D8 u' => 56%N :: uint_codes u'
  | Decimal.D9 u' => 57%N :: uint_codes u'
  end.

Definition str_int (z : Z) : pystr :=
  match z with
  | Z0 => [48%N]
  | Zpos p => uint_codes (Pos.to_uint p)
  | Zneg p => 45%N :: uint_codes (Pos.to_uint p)
  end.

(** [s.zfill(w)] for an unsigned numeral [s]. *)
Definition zfill (w : nat) (s : pystr) : pystr :=
  replicate (w - length s) 48%N ++ s.

(* ===================================================================== *)
(** * [datetime.date]

    The proleptic Gregorian calendar of CPython's [datetime]: field
    checks, ordinals, [replace], comparison, difference, addition of days,
    and [strptime] / [strftime] for the directives [%d], [%m] and [%Y]. *)
(* ===================================================================== *)

Module Datetime.

Record date := mkdate { year : Z; month : Z; day : Z }.

Definition MINYEAR : Z := 1.
Definition MAXYEAR : Z := 9999.
Definition MAXORDINAL : Z := 3652059.

Definition is_leap (y : Z) : bool :=
  (y mod 4 =? 0) && (negb (y mod 100 =? 0) || (y mod 400 =? 0)).

(** [_DAYS_IN_MONTH] *)
Definition DAYS_IN_MONTH (m : Z) : Z :=
  match m with
  | 1 => 31 | 2 => 28 | 3 => 31 | 4 => 30 | 5 => 31 | 6 => 30
  | 7 => 31 | 8 => 31 | 9 => 30 | 10 => 31 | 11 => 30 | 12 => 31
  | _ => -1
  end.

(** [_DAYS_BEFORE_MONTH] *)
Definition DAYS_BEFORE_MONTH (m : Z) : Z :=
  match m with
  | 1 => 0 | 2 => 31 | 3 => 59 | 4 => 90 | 5 => 120 | 6 => 151
  | 7 => 181 | 8 => 212 | 9 => 243 | 10 => 273 | 11 => 304 | 12 => 334
  | _ => -1
  end.

Definition days_in_month (y m : Z) : Z :=
  if (m =? 2) && is_leap y then 29 else DAYS_IN_MONTH m.

Definition days_before_year (year : Z) : Z :=
  let y := year - 1 in
  y * 365 + y / 4 - y / 100 + y / 400.

Definition days_before_month (y m : Z) : Z :=
  DAYS_BEFORE_MONTH m + (if (2 <? m) && is_leap y then 1 else 0).

Definition ymd2ord (y m d : Z) : Z :=
  days_before_year y + days_before_month y m + d.

Definition DI400Y : Z := 146097.
Definition DI100Y : Z := 36524.
Definition DI4Y : Z := 1461.

(** [_ord2ymd] *)
Definition ord2ymd (ordinal : Z) : Z * Z * Z :=
  let n := ordinal - 1 in
  let n400 := n / DI400Y in
  let n := n mod DI400Y in
  let year := n400 * 400 + 1 in
  let n100 := n / DI100Y in
  let n := n mod DI100Y in
  let n4 := n / DI4Y in
  let n := n mod DI4Y in
  let n1 := n / 365 in
  let n := n mod 365 in
  let year := year + n100 * 100 + n4 * 4 + n1 in
  if (n1 =? 4) || (n100 =? 4) then (year - 1, 12, 31)
  else
    let leapyear := (n1 =? 3) && (negb (n4 =? 24) || (n100 =? 3)) in
    let month := Z.shiftr (n + 50) 5 in
    let preceding :=
      DAYS_BEFORE_MONTH month
      + (if (2 <? month) && leapyear then 1 else 0) in
    if n <? preceding then
      let month := month - 1 in
      let preceding :=
        preceding
        - (DAYS_IN_MONTH month
           + (if (month =? 2) && leapyear then 1 else 0)) in
      (year, month, n - preceding + 1)
    else (year, month, n - preceding + 1).

(** [date(year, month, day)]: the constructor checks the fields. *)
Definition date_new (y m d : Z) : result date :=
  if (y <? MINYEAR) || (MAXYEAR <? y) then
    Raise (ValueError (lit "year " ++ str_int y ++ lit " is out of range"))
  else if (m <? 1) || (12 <? m) then
    Raise (ValueError (lit "month must be in 1..12"))
  else if (d <? 1) || (days_in_month y m <? d) then
    Raise (ValueError (lit "day is out of range for month"))
  else Ok (mkdate y m d).

Definition toordinal (d : date) : Z := ymd2ord (year d) (month d) (day d).

Definition fromordinal (n : Z) : date :=
  let '(y, m, d) := ord2ymd n in mkdate y m d.

(** [d.replace(year=y)] *)
Definition replace_year (d : date) (y : Z) : result date :=
  date_new y (month d) (day d).

(** [a < b] *)
Definition date_lt (a b : date) : bool :=
  (year a <? year b)
  || ((year a =? year b)
      && ((month a <? month b)
          || ((month a =? month b) && (day a <? day b)))).

(** [(a - b).days] *)
Definition sub_days (a b : date) : Z := toordinal a - toordinal b.

(** [d + timedelta(days=n)] *)
Definition add_days (d : date) (n : Z) : result date :=
  let o := toordinal d + n in
  if (0 <? o) && (o <=? MAXORDINAL) then Ok (fromordinal o)
  else Raise (OverflowError (lit "date value out of range")).

(** The entries of [strptime]'s directive table for [%d], [%m], [%Y]:
    [(?P<d>3[0-1]|[1-2]\d|0[1-9]|[1-9]| [1-9])],
    [(?P<m>1[0-2]|0[1-9]|[1-9])] and [(?P<Y>\d\d\d\d)]. *)
Definition directive (c : N) : option Re.regex :=
  let ch (a : ascii) := Re.Chr (Re.CChar (N_of_ascii a)) in
  let rg (a b : ascii) := Re.Chr (Re.CRange (N_of_ascii a) (N_of_ascii b)) in
  let dg := Re.Chr Re.CDigit in
  if (c =? N_of_ascii "d"%char)%N then
    Some (Re.Grp "d"%string
            (Re.Alt (Re.Seq (ch "3"%char) (rg "0"%char "1"%char))
            (Re.Alt (Re.Seq (rg "1"%char "2"%char) dg)
            (Re.Alt (Re.Seq (ch "0"%char) (rg "1"%char "9"%char))
            (Re.Alt (rg "1"%char "9"%char)
                    (Re.Seq (ch " "%char) (rg "1"%char "9"%char)))))))
  else if (c =? N_of_ascii "m"%char)%N then
    Some (Re.Grp "m"%string
            (Re.Alt (Re.Seq (ch "1"%char) (rg "0"%char "2"%char))
            (Re.Alt (Re.Seq (ch "0"%char) (rg "1"%char "9"%char))
                    (rg "1"%char "9"%char))))
  else if (c =? N_of_ascii "Y"%char)%N then
    Some (Re.Grp "Y"%string (Re.Seq dg (Re.Seq dg (Re.Seq dg dg))))
  else None.

(** [TimeRE.pattern]: a directive becomes its group, any other character
    of the format matches itself (the formats of this program hold no
    white space, which would match a run of white space). *)
Fixpoint pattern (format : pystr) : option Re.regex :=
  match format with
  | [] => Some Re.Eps
  | c :: rest =>
      if (c =? N_of_ascii "%"%char)%N then
        match rest with
        | [] => None
        | x :: rest' =>
            match directive x, pattern rest' with
            | Some r, Some r' => Some (Re.Seq r r')
            | _, _ => None
            end
        end
      else
        match pattern rest with
        | Some r' => Some (Re.Seq (Re.Chr (Re.CChar c)) r')
        | None => None
        end
  end.

(** [datetime.strptime(data_string, format).date()].  [None] stands for
    the [ValueError] that [strptime] raises: the format has an unknown
    directive, the input does not match, input is left over after the
    match, or the fields are not a date.  The message is not modelled; the
    caller of this program replaces it. *)
Definition strptime (data_string format : pystr) : option date :=
  match pattern format with
  | None => None
  | Some format_regex =>
      match Re.match_ format_regex data_string with
      | None => None
      | Some (found, rest) =>
          match rest with
          | _ :: _ => None
          | [] =>
              let field (name : string) (default : Z) :=
                match Re.group found name with
                | Some t => py_int t
                | None => Some default
                end in
              match field "Y"%string 1900, field "m"%string 1,
                    field "d"%string 1 with
              | Some y, Some m, Some d =>
                  match date_new y m d with
                  | Ok dt => Some dt
                  | Raise _ => None
                  end
              | _, _, _ => None
              end
          end
      end
  end.

(** [d.strftime(format)] for [%d], [%m] and [%Y]; any other character is
    copied.  The C library decides whether [%Y] pads a year below 1000
    with zeros: [pad_year] says which behaviour the platform has. *)
Fixpoint strftime (pad_year : bool) (format : pystr) (d : date) : pystr :=
  match format with
  | [] => []
  | c :: rest =>
      if (c =? N_of_ascii "%"%char)%N then
        match rest with
        | [] => [c]
        | x :: rest' =>
            (if (x =? N_of_ascii "d"%char)%N then zfill 2 (str_int (day d))
             else if (x =? N_of_ascii "m"%char)%N then zfill 2 (str_int (month d))
             else if (x =? N_of_ascii "Y"%char)%N then
               if pad_year then zfill 4 (str_int (year d))
               else str_int (year d)
             else [c; x])
            ++ strftime pad_year rest' d
        end
      else c :: strftime pad_year rest d
  end.

End Datetime.

(* ===================================================================== *)
(** * [dict]: insertion-ordered, assignment to a present key keeps its place *)
(* ===================================================================== *)

Module Dict.

Section Dict.
Context {V : Type}.

Fixpoint get (k : pystr) (d : list (pystr * V)) : option V :=
  match d with
  | [] => None
  | (k', v) :: d' => if decide (k' = k) then Some v else get k d'
  end.

(** [d[k] = v] *)
Fixpoint set (k : pystr) (v : V) (d : list (pystr * V)) : list (pystr * V) :=
  match d with
  | [] => [(k, v)]
  | (k', v') :: d' =>
      if decide (k' = k) then (k', v) :: d' else (k', v') :: set k v d'
  end.

(** [del d[k]] *)
Fixpoint del (k : pystr) (d : list (pystr * V)) : list (pystr * V) :=
  match d with
  | [] => []
  | (k', v') :: d' =>
      if decide (k' = k) then d' else (k', v') :: del k d'
  end.

Definition keys (d : list (pystr * V)) : list pystr := List.map fst d.
Definition values (d : list (pystr * V)) : list V := List.map snd d.

End Dict.
End Dict.

(* ===================================================================== *)
(** * The field classes *)
(* ===================================================================== *)

(** [class Field]: an object with one attribute, [value]. *)
Record Field (V : Type) := mkField { value : V }.
Arguments mkField {V} value.
Arguments value {V} f.

Module Name.
Definition t := Field pystr.
Definition init (v : pystr) : t := mkField v.
End Name.

Module Phone.
Definition t := Field pystr.

(** [re.fullmatch(r'\d{10}', value)] guards the constructor. *)
Definition init (v : pystr) : result t :=
  match Re.fullmatch (Re.Rep 10 (Re.Chr Re.CDigit)) v with
  | Some _ => Ok (mkField v)
  | None =>
      Raise (ValueError (lit "Phone number must contain exactly 10 digits."))
  end.
End Phone.

Module Birthday.
Definition t := Field Datetime.date.

Definition init (v : pystr) : result t :=
  match Datetime.strptime v (lit "%d.%m.%Y") with
  | Some d => Ok (mkField d)
  | None => Raise (ValueError (lit "Invalid date format. Use DD.MM.YYYY"))
  end.

(** [__str__] *)
Definition str (pad_year : bool) (self : t) : pystr :=
  Datetime.strftime pad_year (lit "%d.%m.%Y") (value self).
End Birthday.

(* ===================================================================== *)
(** * [class Record]

    A method is a function from the state of [self] to a result and the
    new state of [self]; a method that raises leaves the state as it was
    when the exception left it.  The phone objects of a record are made
    by [add_phone], one for each element of [phones], and nothing else
    refers to them: the list holds them by value. *)
(* ===================================================================== *)

Module Record.

Record t := mk {
  name : Name.t;
  phones : list Phone.t;
  birthday : option Birthday.t
}.

Definition method (A : Type) : Type := t -> result A * t.

Definition init (nm : pystr) : t :=
  {| name := Name.init nm; phones := []; birthday := None |}.

Definition add_phone (phone_number : pystr) : method unit :=
  fun self =>
    match Phone.init phone_number with
    | Raise e => (Raise e, self)
    | Ok phone =>
        (Ok tt, {| name := name self;
                   phones := phones self ++ [phone];
                   birthday := birthday self |})
    end.

(** The position of the first phone the loop [for phone in self.phones]
    stops at: the first one whose value is [phone_number]. *)
Fixpoint first_with_value (phone_number : pystr) (l : list Phone.t)
  : option nat :=
  match l with
  | [] => None
  | phone :: rest =>
      if decide (value phone = phone_number) then Some O
      else S <$> first_with_value phone_number rest
  end.

(** [self.phones.remove(phone)] takes out the phone object the loop holds,
    which is the one at the position found. *)
Definition remove_phone (phone_number : pystr) : method pystr :=
  fun self =>
    match first_with_value phone_number (phones self) with
    | Some i =>
        (Ok (lit "Phone " ++ phone_number ++ lit " removed."),
         {| name := name self;
            phones := delete i (phones self);
            birthday := birthday self |})
    | None => (Ok (lit "Phone " ++ phone_number ++ lit " not found."), self)
    end.

(** [phone.value = new_phone] on the phone object the loop holds. *)
Definition edit_phone (old_phone new_phone : pystr) : method pystr :=
  fun self =>
    match first_with_value old_phone (phones self) with
    | Some i =>
        (Ok (lit "Phone " ++ old_phone ++ lit " changed to "
               ++ new_phone ++ lit "."),
         {| name := name self;
            phones := <[i := mkField new_phone]> (phones self);
            birthday := birthday self |})
    | None => (Ok (lit "Phone " ++ old_phone ++ lit " not found."), self)
    end.

Definition add_birthday (birthday_date : pystr) : method unit :=
  fun self =>
    match Birthday.init birthday_date with
    | Raise e => (Raise e, self)
    | Ok b =>
        (Ok tt, {| name := name self;
                   phones := phones self;
                   birthday := Some b |})
    end.

(** [today] is the value of [datetime.today().date()]. *)
Definition days_to_birthday (today : Datetime.date) (self : t)
  : result (option Z) :=
  match birthday self with
  | None => Ok None
  | Some b =>
      match Datetime.replace_year (value b) (Datetime.year today) with
      | Raise e => Raise e
      | Ok next_birthday =>
          if Datetime.date_lt next_birthday today then
            match Datetime.replace_year next_birthday
                    (Datetime.year today + 1) with
            | Raise e => Raise e
            | Ok next_birthday' =>
                Ok (Some (Datetime.sub_days next_birthday' today))
            end
          else Ok (Some (Datetime.sub_days next_birthday today))
      end
  end.

End Record.

(* ===================================================================== *)
(** * Objects and the book

    Record objects live in a heap and are named by references, so that the
    record a handler holds in a local variable is the record the book
    holds.  The book is the [data] dictionary of the [AddressBook] object,
    from names to references. *)
(* ===================================================================== *)

Abbreviation loc := positive.

Record world := mkWorld {
  heap : gmap loc Record.t;
  data : list (pystr * loc)
}.

(** Code that reads and writes the objects and may raise. *)
Definition M (A : Type) : Type := world -> result A * world.

Definition ret {A} (a : A) : M A := fun w => (Ok a, w).
Definition raise {A} (e : exn) : M A := fun w => (Raise e, w).
Definition bind {A B} (m : M A) (f : A -> M B) : M B :=
  fun w =>
    match m w with
    | (Ok a, w') => f a w'
    | (Raise e, w') => (Raise e, w')
    end.

Notation "'do' x <- m ; k" := (bind m (fun x => k))
  (at level 10, x name, m at level 99, k at level 200,
   format "'[v' 'do'  x  <-  m ; '/' k ']'").

(** A reference that names no object cannot arise in Python; the model
    reports it as an interpreter error. *)
Definition dangling : exn := SystemError (lit "dangling reference").

(** [Record(name)]: a new object. *)
Definition new_record (nm : pystr) : M loc :=
  fun w =>
    let l := fresh (dom (heap w)) in
    (Ok l, {| heap := <[l := Record.init nm]> (heap w); data := data w |}).

(** A method call [record.m(...)] on the object [record] refers to. *)
Definition call {A} (record : loc) (m : Record.method A) : M A :=
  fun w =>
    match heap w !! record with
    | None => (Raise dangling, w)
    | Some self =>
        let '(r, self') := m self in
        (r, {| heap := <[record := self']> (heap w); data := data w |})
    end.

(** An attribute read [f(record)]. *)
Definition attr {A} (record : loc) (f : Record.t -> A) : M A :=
  fun w =>
    match heap w !! record with
    | None => (Raise dangling, w)
    | Some self => (Ok (f self), w)
    end.

Module AddressBook.

Definition add_record (record : loc) : M pystr :=
  do key <- attr record (fun r => value (Record.name r));
  fun w =>
    (Ok (lit "Record for " ++ key ++ lit " added."),
     {| heap := heap w; data := Dict.set key record (data w) |}).

(** [self.data.get(name, "Contact not found.")]: a record or that string. *)
Definition find (name : pystr) : M (loc + pystr) :=
  fun w =>
    (Ok match Dict.get name (data w) with
        | Some record => inl record
        | None => inr (lit "Contact not found.")
        end, w).

Definition delete (name : pystr) : M pystr :=
  fun w =>
    match Dict.get name (data w) with
    | Some _ =>
        (Ok (lit "Record for " ++ name ++ lit " deleted."),
         {| heap := heap w; data := Dict.del name (data w) |})
    | None => (Ok (lit "Contact not found."), w)
    end.

(** An element of the list [get_upcoming_birthdays] returns. *)
Record upcoming := mkUpcoming {
  u_name : pystr;
  u_birthday : Birthday.t;
  u_congratulation_date : pystr
}.

(** The loop over [self.data.values()], [upcoming_birthdays] being the
    list built so far. *)
Fixpoint upcoming_loop (pad_year : bool) (today : Datetime.date)
    (h : gmap loc Record.t) (records : list loc)
    (upcoming_birthdays : list upcoming) : result (list upcoming) :=
  match records with
  | [] => Ok upcoming_birthdays
  | record :: rest =>
      match h !! record with
      | None => Raise dangling
      | Some r =>
          match Record.birthday r with
          | None =>
              upcoming_loop pad_year today h rest upcoming_birthdays
          | Some b =>
              match Record.days_to_birthday today r with
              | Raise e => Raise e
              | Ok None =>
                  upcoming_loop pad_year today h rest upcoming_birthdays
              | Ok (Some days_until_birthday) =>
                  if (0 <=? days_until_birthday)
                     && (days_until_birthday <=? 7) then
                    match Datetime.add_days today days_until_birthday with
                    | Raise e => Raise e
                    | Ok d =>
                        upcoming_loop pad_year today h rest
                          (upcoming_birthdays ++
                             [ {| u_name := value (Record.name r);
                                  u_birthday := b;
                                  u_congratulation_date :=
                                    Datetime.strftime pad_year
                                      (lit "%d.%m.%Y") d |} ])
                    end
                  else upcoming_loop pad_year today h rest upcoming_birthdays
              end
          end
      end
  end.

Definition get_upcoming_birthdays (pad_year : bool) (today : Datetime.date)
  : M (list upcoming) :=
  fun w =>
    (upcoming_loop pad_year today (heap w) (Dict.values (data w)) [], w).

End AddressBook.

(* ===================================================================== *)
(** * [save_data] and [load_data]

    The file system is a map from file names to file contents; opening a
    file for writing creates or replaces it.  [pickle] is a library: its
    two functions are parameters here, and what is assumed of them is
    stated where it is used. *)
(* ===================================================================== *)

Section Persistence.

Variable bytes : Type.
Variable pickle_dumps : world -> bytes.
Variable pickle_loads : bytes -> result world.

Definition default_filename : pystr := lit "addressbook.pkl".

(** [AddressBook()] *)
Definition empty_book : world := {| heap := ∅; data := [] |}.

Definition save_data (book : world) (filename : pystr)
    (fs : gmap pystr bytes) : gmap pystr bytes :=
  <[filename := pickle_dumps book]> fs.

Definition load_data (filename : pystr) (fs : gmap pystr bytes)
  : result world :=
  match fs !! filename with
  | Some content => pickle_loads content
  | None => Ok empty_book      (* FileNotFoundError *)
  end.

End Persistence.

(** What a book holds: its names in order, each with the state of the
    record it refers to. *)
Definition contents (w : world) : list (pystr * option Record.t) :=
  List.map (fun '(k, record) => (k, heap w !! record)) (data w).

(* ===================================================================== *)
(** * The command handlers *)
(* ===================================================================== *)

(** The decorator: any exception becomes its message. *)
Definition input_error {X} (func : X -> M pystr) : X -> M pystr :=
  fun args w =>
    match func args w with
    | (Ok s, w') => (Ok s, w')
    | (Raise e, w') => (Ok (str_exn e), w')
    end.

(** [record == s] for the value [AddressBook.find] returned: a record
    object is equal to no string. *)
Definition eq_str (record : loc + pystr) (s : pystr) : bool :=
  match record with
  | inl _ => false
  | inr s' => bool_decide (s' = s)
  end.

(** A method call on that value; a string has none of the methods. *)
Definition call_on {A} (record : loc + pystr) (method_name : string)
    (m : Record.method A) : M A :=
  match record with
  | inl r => call r m
  | inr _ =>
      raise (AttributeError (lit "'str' object has no attribute '"
                               ++ lit method_name ++ lit "'"))
  end.

Definition attr_on {A} (record : loc + pystr) (attr_name : string)
    (f : Record.t -> A) : M A :=
  match record with
  | inl r => attr r f
  | inr _ =>
      raise (AttributeError (lit "'str' object has no attribute '"
                               ++ lit attr_name ++ lit "'"))
  end.

Definition add_contact : list pystr -> M pystr :=
  input_error (fun args =>
    if (length args <? 2)%nat then
      ret (lit "Please provide both name and phone number.")
    else
      let name := nth 0 args [] in
      let phone := nth 1 args [] in
      do record <- AddressBook.find name;
      do rm <-
        (if eq_str record (lit "Contact not found.") then
           do record <- new_record name;
           do _ <- AddressBook.add_record record;
           ret (inl record, lit "Contact added.")
         else ret (record, lit "Contact updated."));
      let record := fst rm in
      let message := snd rm in
      do _ <-
        (match phone with
         | _ :: _ => call_on record "add_phone" (Record.add_phone phone)
         | [] => ret tt
         end);
      ret message).

Definition add_birthday : list pystr -> M pystr :=
  input_error (fun args =>
    if (length args <? 2)%nat then
      ret (lit "Please provide both name and birthday date in the format DD.MM.YYYY.")
    else
      let name := nth 0 args [] in
      let birthday := nth 1 args [] in
      do record <- AddressBook.find name;
      if eq_str record (lit "Contact not found.") then
        ret (lit "Contact not found.")
      else
        do b <- attr_on record "birthday" Record.birthday;
        match b with
        | Some _ =>
            do _ <- call_on record "add_birthday"
                      (Record.add_birthday birthday);
            ret (lit "Birthday for " ++ name ++ lit " updated.")
        | None =>
            do _ <- call_on record "add_birthday"
                      (Record.add_birthday birthday);
            ret (lit "Birthday for " ++ name ++ lit " added.")
        end).

(* ===================================================================== *)
(** * [Record.__str__] and the other handlers *)
(* ===================================================================== *)

(** [sep.join(l)] *)
Fixpoint join (sep : pystr) (l : list pystr) : pystr :=
  match l with
  | [] => []
  | x :: rest =>
      match rest with
      | [] => x
      | _ :: _ => x ++ sep ++ join sep rest
      end
  end.

(** [Record.__str__] *)
Definition Record_str (pad_year : bool) (self : Record.t) : pystr :=
  let phones := join (lit "; ") (List.map value (Record.phones self)) in
  let birthday :=
    match Record.birthday self with
    | Some b => lit ", birthday: " ++ Birthday.str pad_year b
    | None => []
    end in
  lit "Contact name: " ++ value (Record.name self)
    ++ lit ", phones: " ++ phones ++ birthday.

(** [name = args[0]] as the first statement of a decorated handler: on an
    empty list the [IndexError] reaches the decorator before anything
    else ran, and the handler returns its message. *)
Definition with_args0 (args : list pystr) (body : pystr -> M pystr)
  : M pystr :=
  match args with
  | name :: _ => body name
  | [] => ret (lit "list index out of range")
  end.

Definition show_birthday (pad_year : bool) : list pystr -> M pystr :=
  fun args =>
    with_args0 args (fun name =>
      input_error (fun _ : list pystr =>
        do record <- AddressBook.find name;
        if eq_str record (lit "Contact not found.") then
          ret (lit "Contact not found.")
        else
          do b <- attr_on record "birthday" Record.birthday;
          match b with
          | Some b =>
              ret (name ++ lit "'s birthday: " ++ Birthday.str pad_year b)
          | None => ret (name ++ lit " has no birthday set.")
          end) args).

(** The line of one element of the list of upcoming birthdays. *)
Definition birthday_line (item : AddressBook.upcoming) : pystr :=
  AddressBook.u_name item ++ lit " - "
    ++ AddressBook.u_congratulation_date item.

Definition birthdays (pad_year : bool) (today : Datetime.date)
  : list pystr -> M pystr :=
  input_error (fun args =>
    do upcoming <- AddressBook.get_upcoming_birthdays pad_year today;
    match upcoming with
    | [] => ret (lit "No upcoming birthdays.")
    | _ :: _ => ret (join [10%N] (List.map birthday_line upcoming))
    end).

Definition change_contact : list pystr -> M pystr :=
  input_error (fun args =>
    if (length args <? 3)%nat then
      ret (lit "Please provide name, old phone number, and new phone number.")
    else
      let name := nth 0 args [] in
      let old_phone := nth 1 args [] in
      let new_phone := nth 2 args [] in
      do record <- AddressBook.find name;
      if eq_str record (lit "Contact not found.") then
        ret (lit "Contact not found.")
      else
        call_on record "edit_phone" (Record.edit_phone old_phone new_phone)).

Definition show_phone : list pystr -> M pystr :=
  fun args =>
    with_args0 args (fun name =>
      input_error (fun _ : list pystr =>
        do record <- AddressBook.find name;
        if eq_str record (lit "Contact not found.") then
          ret (lit "Contact not found.")
        else
          do phones <- attr_on record "phones" Record.phones;
          ret (name ++ lit "'s phones: "
                 ++ join (lit ", ") (List.map value phones))) args).

(** [str(record) for record in book.data.values()] *)
Fixpoint strs_of (pad_year : bool) (records : list loc) : M (list pystr) :=
  match records with
  | [] => ret []
  | record :: rest =>
      do s <- attr record (Record_str pad_year);
      do ss <- strs_of pad_year rest;
      ret (s :: ss)
  end.

Definition show_all (pad_year : bool) : list pystr -> M pystr :=
  input_error (fun args w =>
    match data w with
    | [] => ret (lit "No contacts added yet") w
    | _ :: _ =>
        (do ss <- strs_of pad_year (Dict.values (data w));
         ret (join [10%N] ss)) w
    end).

(* ===================================================================== *)
(** * [parse_input] and [main]

    White space is what [str.isspace] says it is; [str.split()] cuts at
    runs of white space and [str.strip()] removes it at both ends.
    [str.lower] is a parameter, like [pickle].  [input] is a list of the
    lines typed, each with the date of the day it is typed on; [print] is
    the list of the texts printed (the prompt is not among them). *)
(* ===================================================================== *)

Definition whitespace : list N :=
  [ 0x9; 0xa; 0xb; 0xc; 0xd; 0x1c; 0x1d; 0x1e; 0x1f; 0x20; 0x85; 0xa0;
    0x1680; 0x2000; 0x2001; 0x2002; 0x2003; 0x2004; 0x2005; 0x2006;
    0x2007; 0x2008; 0x2009; 0x200a; 0x2028; 0x2029; 0x202f; 0x205f;
    0x3000 ]%N.

Definition isspace (c : N) : bool := existsb (N.eqb c) whitespace.

(** [s.split()], [word] being the word read so far, last character
    first. *)
Fixpoint split_from (word : pystr) (s : pystr) : list pystr :=
  match s with
  | [] =>
      match word with
      | [] => []
      | _ :: _ => [rev word]
      end
  | c :: s' =>
      if isspace c then
        match word with
        | [] => split_from [] s'
        | _ :: _ => rev word :: split_from [] s'
        end
      else split_from (c :: word) s'
  end.

Definition split (s : pystr) : list pystr := split_from [] s.

Fixpoint lstrip_ws (s : pystr) : pystr :=
  match s with
  | c :: s' => if isspace c then lstrip_ws s' else s
  | [] => []
  end.

(** [s.strip()] *)
Definition str_strip (s : pystr) : pystr :=
  rev (lstrip_ws (rev (lstrip_ws s))).

(** How an iteration of the loop of [main] ends. *)
Inductive control := Next | Break.

(** How [main] ends: it returned after "close" or "exit", [input] had no
    more lines ([EOFError]), or an exception left it. *)
Inductive ending := Exited | EndOfInput | Crashed (e : exn).

Section Main.

Variable bytes : Type.
Variable pickle_dumps : world -> bytes.
Variable pickle_loads : bytes -> result world.
Variable str_lower : pystr -> pystr.
Variable pad_year : bool.

(** [None] stands for the [ValueError] of unpacking an empty list. *)
Definition parse_input (user_input : pystr) : option (pystr * list pystr) :=
  match split user_input with
  | [] => None
  | cmd :: args => Some (str_lower (str_strip cmd), args)
  end.

(** The handler a command names, if any. *)
Definition handler (today : Datetime.date) (command : pystr)
  : option (list pystr -> M pystr) :=
  if decide (command = lit "add") then Some add_contact
  else if decide (command = lit "change") then Some change_contact
  else if decide (command = lit "phone") then Some show_phone
  else if decide (command = lit "all") then Some (show_all pad_year)
  else if decide (command = lit "add-birthday") then Some add_birthday
  else if decide (command = lit "show-birthday") then
    Some (show_birthday pad_year)
  else if decide (command = lit "birthdays") then
    Some (birthdays pad_year today)
  else None.

(** One iteration of [while True]: the text printed, whether the loop
    goes on, the book and the files. *)
Definition main_body (today : Datetime.date) (line : pystr)
    (book : world) (fs : gmap pystr bytes)
  : result (pystr * control) * world * gmap pystr bytes :=
  let user_input := str_strip line in
  match user_input with
  | [] => (Ok (lit "Error: Please enter a command.", Next), book, fs)
  | _ :: _ =>
      match parse_input user_input with
      | None =>
          (Raise (ValueError
                    (lit "not enough values to unpack (expected at least 1, got 0)")),
           book, fs)
      | Some (command, args) =>
          if decide (command = lit "close" \/ command = lit "exit") then
            (Ok (lit "Good bye!", Break), book,
             save_data bytes pickle_dumps book default_filename fs)
          else if decide (command = lit "hello") then
            (Ok (lit "How can I help you?", Next), book, fs)
          else
            match handler today command with
            | Some h =>
                match h args book with
                | (Ok text, book') => (Ok (text, Next), book', fs)
                | (Raise e, book') => (Raise e, book', fs)
                end
            | None => (Ok (lit "Invalid command.", Next), book, fs)
            end
      end
  end.

Fixpoint main_loop (inputs : list (Datetime.date * pystr))
    (book : world) (fs : gmap pystr bytes)
  : list pystr * ending * world * gmap pystr bytes :=
  match inputs with
  | [] => ([], EndOfInput, book, fs)
  | (today, line) :: rest =>
      match main_body today line book fs with
      | (Raise e, book', fs') => ([], Crashed e, book', fs')
      | (Ok (text, Break), book', fs') => ([text], Exited, book', fs')
      | (Ok (text, Next), book', fs') =>
          let '(out, e, book'', fs'') := main_loop rest book' fs' in
          (text :: out, e, book'', fs'')
      end
  end.

Definition main (inputs : list (Datetime.date * pystr))
    (fs : gmap pystr bytes)
  : list pystr * ending * option world * gmap pystr bytes :=
  match load_data bytes pickle_loads default_filename fs with
  | Raise e => ([], Crashed e, None, fs)
  | Ok book =>
      let '(out, e, book', fs') := main_loop inputs book fs in
      (lit "Welcome to the assistant bot!" :: out, e, Some book', fs')
  end.

End Main.

(* ===================================================================== *)
(** * Notions used to state the properties *)
(* ===================================================================== *)

(** Ten characters, each a decimal digit of some script. *)
Definition ten_decimal_digits (s : pystr) : bool :=
  (length s =? 10)%nat && forallb Unicode.isdecimal s.

(** Ten characters, each one of ['0'] to ['9']. *)
Definition ten_ascii_digits (s : pystr) : bool :=
  (length s =? 10)%nat && forallb Unicode.is_ascii_digit s.

(** The phone number in Arabic-Indic digits, U+0660 to U+0669. *)
Definition arabic_indic_phone : pystr :=
  [0x661; 0x662; 0x663; 0x664; 0x665; 0x666; 0x667; 0x668; 0x669; 0x660]%N.

(** The world after [Record(name)] and [book.add_record(record)], the new
    object being in the state [self]. *)
Definition with_new_record (name : pystr) (self : Record.t) (w : world)
  : world :=
  {| heap := <[fresh (dom (heap w)) := self]> (heap w);
     data := Dict.set name (fresh (dom (heap w))) (data w) |}.

(** The record a name of the book refers to. *)
Definition lookup_record (w : world) (name : pystr) : option Record.t :=
  match Dict.get name (data w) with
  | Some record => heap w !! record
  | None => None
  end.

(** The pattern [strptime] builds for the format [%d.%m.%Y]:
    [(?P<d>3[0-1]|[1-2]\d|0[1-9]|[1-9]| [1-9])\.(?P<m>1[0-2]|0[1-9]|[1-9])\.(?P<Y>\d\d\d\d)]. *)
Definition dmY_regex : Re.regex :=
  Eval cbv in
    match Datetime.pattern (lit "%d.%m.%Y") with
    | Some r => r
    | None => Re.Eps
    end.

Definition in_range (lo hi c : N) : bool := ((lo <=? c) && (c <=? hi))%N.

(** The texts the group [d] can hold: "1" to "9", "01" to "09", a space
    and one of "1" to "9", "30", "31", or "1" or "2" and a decimal digit
    of any script. *)
Definition day_token (t : pystr) : bool :=
  match t with
  | [a] => in_range 49 57 a
  | [a; b] =>
      ((a =? 51)%N && in_range 48 49 b)
      || (in_range 49 50 a && Unicode.isdecimal b)
      || ((a =? 48)%N && in_range 49 57 b)
      || ((a =? 32)%N && in_range 49 57 b)
  | _ => false
  end.

(** The texts the group [m] can hold: "1" to "9", "01" to "09", "10",
    "11", "12". *)
Definition month_token (t : pystr) : bool :=
  match t with
  | [a] => in_range 49 57 a
  | [a; b] =>
      ((a =? 49)%N && in_range 48 50 b)
      || ((a =? 48)%N && in_range 49 57 b)
  | _ => false
  end.

(** The texts the group [Y] can hold: four decimal digits of any script. *)
Definition year_token (t : pystr) : bool :=
  match t with
  | [a; b; c; d] =>
      Unicode.isdecimal a && Unicode.isdecimal b
      && Unicode.isdecimal c && Unicode.isdecimal d
  | _ => false
  end.

(** The full stop. *)
Definition dot : N := 46%N.

(** The value of one of the digits ['0'] to ['9']. *)
Definition digit_val (c : N) : Z := Z.of_N c - 48.

(** The strict pattern DD.MM.YYYY: two of the digits ['0'] to ['9'], a
    full stop, two digits, a full stop, four digits; with the year, the
    month and the day the digits denote. *)
Definition strict_dmY (s : pystr) : option (Z * Z * Z) :=
  match s with
  | [a; b; p; c; d; q; e; f; g; h] =>
      if forallb Unicode.is_ascii_digit [a; b; c; d; e; f; g; h]
         && (p =? dot)%N && (q =? dot)%N
      then Some (1000 * digit_val e + 100 * digit_val f
                 + 10 * digit_val g + digit_val h,
                 10 * digit_val c + digit_val d,
                 10 * digit_val a + digit_val b)
      else None
  | _ => None
  end.

(** A date of the calendar: a year from 1 to 9999, a month from 1 to 12
    and a day that the month has in that year. *)
Definition real_date (y m d : Z) : bool :=
  (1 <=? y) && (y <=? 9999) && (1 <=? m) && (m <=? 12)
  && (1 <=? d) && (d <=? Datetime.days_in_month y m).

Definition ascii_digits : list N := [48; 49; 50; 51; 52; 53; 54; 55; 56; 57]%N.

(** What is checked, by running the model, of every pair of digits: which
    pairs the groups [d] and [m] accept, their value under [int], and that
    the two-digit rendering of that value is the pair. *)
Definition check_pair (a b : N) : bool :=
  let v := 10 * digit_val a + digit_val b in
  eqb (day_token [a; b]) ((1 <=? v) && (v <=? 31))
  && eqb (month_token [a; b]) ((1 <=? v) && (v <=? 12))
  && bool_decide (py_int [a; b] = Some v)
  && bool_decide (zfill 2 (str_int v) = [a; b]).

(** And of every four digits: the group [Y] accepts them, their value
    under [int], and that rendering the value gives them back, padded to
    four digits, or unpadded from 1000 on. *)
Definition check_quad (e f g h : N) : bool :=
  let y := 1000 * digit_val e + 100 * digit_val f
           + 10 * digit_val g + digit_val h in
  year_token [e; f; g; h]
  && bool_decide (py_int [e; f; g; h] = Some y)
  && bool_decide (zfill 4 (str_int y) = [e; f; g; h])
  && ((y <? 1000) || bool_decide (str_int y = [e; f; g; h])).

(** The 29th of February. *)
Definition is_feb_29 (d : Datetime.date) : bool :=
  (Datetime.month d =? 2) && (Datetime.day d =? 29).

(** A date whose fields are a date of the calendar. *)
Definition is_real (d : Datetime.date) : bool :=
  real_date (Datetime.year d) (Datetime.month d) (Datetime.day d).

(** The occurrence of the month and day of [b] that the specification
    counts to: this year's, or next year's when this year's is before
    [today]. *)
Definition next_occurrence (today b : Datetime.date) : Datetime.date :=
  let this_year :=
    Datetime.mkdate (Datetime.year today) (Datetime.month b)
      (Datetime.day b) in
  if Datetime.date_lt this_year today then
    Datetime.mkdate (Datetime.year today + 1) (Datetime.month b)
      (Datetime.day b)
  else this_year.

(** The element of the result a record stands for, if any: the record has
    a birthday that is 0 to 7 days away. *)
Definition upcoming_entry (pad_year : bool) (today : Datetime.date)
    (r : Record.t) : option AddressBook.upcoming :=
  match Record.birthday r with
  | None => None
  | Some b =>
      match Record.days_to_birthday today r with
      | Ok (Some n) =>
          if (0 <=? n) && (n <=? 7) then
            match Datetime.add_days today n with
            | Ok d =>
                Some {| AddressBook.u_name := value (Record.name r);
                        AddressBook.u_birthday := b;
                        AddressBook.u_congratulation_date :=
                          Datetime.strftime pad_year (lit "%d.%m.%Y") d |}
            | Raise _ => None
            end
          else None
      | _ => None
      end
  end.

(** A record for which the loop of [get_upcoming_birthdays] goes on: its
    day count can be computed and, if it is in the window, so can the
    date of the congratulation. *)
Definition passes (today : Datetime.date) (r : Record.t) : bool :=
  match Record.birthday r with
  | None => true
  | Some _ =>
      match Record.days_to_birthday today r with
      | Ok (Some n) =>
          negb ((0 <=? n) && (n <=? 7)) || is_ok (Datetime.add_days today n)
      | Ok None => true
      | Raise _ => false
      end
  end.

(** Bob, born on the 29th of February 2000, and Alice, born on the 2nd of
    March 1990; the first of March 2023. *)
Definition bob : Record.t :=
  {| Record.name := Name.init (lit "Bob");
     Record.phones := [];
     Record.birthday := Some (mkField (Datetime.mkdate 2000 2 29)) |}.

Definition alice : Record.t :=
  {| Record.name := Name.init (lit "Alice");
     Record.phones := [];
     Record.birthday := Some (mkField (Datetime.mkdate 1990 3 2)) |}.

Definition alice_and_bob : world :=
  {| heap := {[ 1%positive := alice; 2%positive := bob ]};
     data := [(lit "Alice", 1%positive); (lit "Bob", 2%positive)] |}.

Definition march_1_2023 : Datetime.date := Datetime.mkdate 2023 3 1.

(** The state of every book the program builds: the names are distinct,
    no record is in the book twice, every name refers to a record that
    exists and has that name, and every birthday is a date of the
    calendar. *)
Definition entry_ok (w : world) (e : pystr * loc) : Prop :=
  exists r,
    heap w !! e.2 = Some r
    /\ value (Record.name r) = e.1
    /\ forall b, Record.birthday r = Some b -> is_real (value b) = true.

Definition book_ok (w : world) : Prop :=
  NoDup (Dict.keys (data w))
  /\ NoDup (Dict.values (data w))
  /\ Forall (entry_ok w) (data w).

(** Every phone of the record is one the constructor [Phone] accepts. *)
Definition phones_valid (self : Record.t) : Prop :=
  Forall (fun p : Phone.t => ten_decimal_digits (value p) = true)
    (Record.phones self).

(** What is checked, by running the model, of every day of the years 1 to
    400: its ordinal is turned back into that day. *)
Definition check_ordinal (y m d : Z) : bool :=
  negb (real_date y m d)
  || bool_decide (Datetime.ord2ymd (Datetime.ymd2ord y m d) = (y, m, d)).

(** The element of the list of upcoming birthdays a record stands for,
    said without the steps of the code: the record has a birthday whose
    next occurrence is at most 7 days away, and the date of the
    congratulation is that occurrence. *)
Definition entry_of (pad_year : bool) (today : Datetime.date)
    (r : Record.t) : option AddressBook.upcoming :=
  match Record.birthday r with
  | None => None
  | Some b =>
      let next := next_occurrence today (value b) in
      if Datetime.sub_days next today <=? 7 then
        Some {| AddressBook.u_name := value (Record.name r);
                AddressBook.u_birthday := b;
                AddressBook.u_congratulation_date :=
                  Datetime.strftime pad_year (lit "%d.%m.%Y") next |}
      else None
  end.

(** The record has a birthday on the 29th of February. *)
Definition born_29_february (r : Record.t) : bool :=
  match Record.birthday r with
  | Some b => is_feb_29 (value b)
  | None => false
  end.

(** The records of the book, in the order of the names. *)
Definition records_of (w : world) : list Record.t :=
  omap (fun l => heap w !! l) (Dict.values (data w)).

(** A word: not empty and without white space. *)
Definition is_word (a : pystr) : Prop :=
  a <> [] /\ forallb (fun c => negb (isspace c)) a = true.

(** [s] is the words [ws], in that order, with white space before the
    first, after the last and between any two of them: each word ends
    where the line ends or the next white space stands. *)
Inductive cut_into : pystr -> list pystr -> Prop :=
| cut_blank (s : pystr) :
    forallb isspace s = true -> cut_into s []
| cut_word (sp w rest : pystr) (ws : list pystr) :
    forallb isspace sp = true ->
    is_word w ->
    (rest = [] \/ exists c rest', rest = c :: rest' /\ isspace c = true) ->
    cut_into rest ws ->
    cut_into (sp ++ w ++ rest) (w :: ws).

(* ===================================================================== *)
(** * Facts about the library model *)
(* ===================================================================== *)

Lemma ascii_digit_decimal c :
  Unicode.is_ascii_digit c = true -> Unicode.decimal c = Some (c - 48)%N.
Proof.
  unfold Unicode.is_ascii_digit, Unicode.decimal, Unicode.Nd_zeros.
  intros H. cbn [Unicode.decimal_in].
  change (0x30 + 9)%N with 57%N. change 0x30%N with 48%N. now rewrite H.
Qed.

Lemma ascii_digit_isdecimal c :
  Unicode.is_ascii_digit c = true -> Unicode.isdecimal c = true.
Proof.
  intros H. unfold Unicode.isdecimal. now rewrite (ascii_digit_decimal _ H).
Qed.

Lemma decimal_in_lt_10 zeros c v :
  Unicode.decimal_in zeros c = Some v -> (v < 10)%N.
Proof.
  induction zeros as [|z zs IH]; simpl; [discriminate|].
  destruct ((z <=? c) && (c <=? z + 9))%N eqn:E; [|exact IH].
  intros [= <-]. apply andb_true_iff in E as [E1 E2].
  apply N.leb_le in E1, E2. lia.
Qed.

(** ** The matcher on a run of one class *)

Lemma exec_rep_chr {A} cl n :
  forall s gd (k : pystr -> Re.groupdict -> option A),
    Re.exec (Re.Rep n (Re.Chr cl)) s gd k
    = if (n <=? length s)%nat && forallb (Re.cclass_mem cl) (take n s)
      then k (drop n s) gd else None.
Proof.
  induction n as [|n IH]; intros s gd k.
  - simpl. now rewrite drop_0.
  - destruct s as [|c s]; [reflexivity|].
    cbn [Re.Rep Re.exec]. destruct (Re.cclass_mem cl c) eqn:Hc.
    + rewrite IH. cbn [length take drop forallb]. rewrite Hc. reflexivity.
    + cbn [length take forallb]. rewrite Hc.
      now rewrite andb_false_r.
Qed.

Lemma fullmatch_rep_chr cl n s :
  Re.fullmatch (Re.Rep n (Re.Chr cl)) s
  = if (length s =? n)%nat && forallb (Re.cclass_mem cl) s
    then Some [] else None.
Proof.
  unfold Re.fullmatch. rewrite exec_rep_chr.
  destruct (n <=? length s)%nat eqn:Hle.
  - apply Nat.leb_le in Hle.
    destruct (length s =? n)%nat eqn:Hn.
    + apply Nat.eqb_eq in Hn. subst n.
      rewrite firstn_all, drop_all. reflexivity.
    + apply Nat.eqb_neq in Hn. cbn [andb].
      destruct (forallb (Re.cclass_mem cl) (take n s)); [|reflexivity].
      destruct (drop n s) eqn:Hd; [|reflexivity].
      apply (f_equal length) in Hd. rewrite length_drop in Hd.
      simpl in Hd. lia.
  - apply Nat.leb_gt in Hle.
    destruct (length s =? n)%nat eqn:Hn; [|reflexivity].
    apply Nat.eqb_eq in Hn. lia.
Qed.

(* ===================================================================== *)
(** * Phone numbers *)
(* ===================================================================== *)

Lemma Phone_init_spec s :
  Phone.init s
  = if ten_decimal_digits s then Ok (mkField s)
    else Raise (ValueError
                  (lit "Phone number must contain exactly 10 digits.")).
Proof.
  unfold Phone.init, ten_decimal_digits. rewrite fullmatch_rep_chr.
  change (Re.cclass_mem Re.CDigit) with Unicode.isdecimal.
  now destruct ((length s =? 10)%nat && forallb Unicode.isdecimal s).
Qed.

Lemma ten_ascii_is_ten_decimal s :
  ten_ascii_digits s = true -> ten_decimal_digits s = true.
Proof.
  unfold ten_ascii_digits, ten_decimal_digits.
  intros [Hl Hd]%andb_true_iff. rewrite Hl. cbn [andb].
  rewrite forallb_forall in *. intros c Hc.
  apply ascii_digit_isdecimal, Hd, Hc.
Qed.

(** C3, as the code has it: the constructor accepts exactly the strings
    of ten characters that the class [\d] matches, which are the decimal
    digits of every script and not only ['0'] to ['9']; it stores the
    string unchanged, and raises the error with the message "Phone number
    must contain exactly 10 digits." on any other string.  Strings of ten
    of the digits ['0'] to ['9'] are among the accepted ones. *)
Theorem C3_phone_accepts_ten_decimal_digits :
  forall s : pystr,
    (Phone.init s
     = if ten_decimal_digits s then Ok (mkField s)
       else Raise (ValueError
                     (lit "Phone number must contain exactly 10 digits.")))
    /\ (forall p, Phone.init s = Ok p <->
                  ten_decimal_digits s = true /\ p = mkField s)
    /\ (ten_ascii_digits s = true -> Phone.init s = Ok (mkField s)).
Proof.
  intros s. split; [apply Phone_init_spec|]. split.
  - intros p. rewrite Phone_init_spec.
    destruct (ten_decimal_digits s); split.
    + intros [= <-]. now split.
    + intros [_ ->]. reflexivity.
    + discriminate.
    + intros [[=] _].
  - intros H. rewrite Phone_init_spec.
    now rewrite (ten_ascii_is_ten_decimal _ H).
Qed.

Lemma C3_phone_accepts_ten_decimal_digits_witness :
  ten_ascii_digits (lit "0123456789") = true
  /\ Phone.init (lit "0123456789") = Ok (mkField (lit "0123456789")).
Proof.
  split; [reflexivity|].
  apply (proj2 (proj2 (C3_phone_accepts_ten_decimal_digits
                         (lit "0123456789")))).
  reflexivity.
Defined.

(** C3 as stated fails: a string of ten Arabic-Indic digits holds no
    character from ['0'] to ['9'], and the constructor accepts it. *)
Lemma C3_counterexample_arabic_indic_digits :
  ten_ascii_digits arabic_indic_phone = false
  /\ Phone.init arabic_indic_phone = Ok (mkField arabic_indic_phone).
Proof. split; vm_compute; reflexivity. Qed.

(* ===================================================================== *)
(** * Dictionaries *)
(* ===================================================================== *)

Section DictFacts.
Context {V : Type}.
Implicit Types (d : list (pystr * V)) (k : pystr) (v : V).

Lemma dict_get_set_eq k v d : Dict.get k (Dict.set k v d) = Some v.
Proof.
  induction d as [|[k' v'] d IH]; simpl.
  - now rewrite decide_True.
  - destruct (decide (k' = k)) as [->|Hne]; simpl.
    + now rewrite decide_True.
    + now rewrite decide_False.
Qed.

Lemma dict_get_set_ne k k' v d :
  k <> k' -> Dict.get k' (Dict.set k v d) = Dict.get k' d.
Proof.
  intros Hne. induction d as [|[k0 v0] d IH]; simpl.
  - now rewrite decide_False.
  - destruct (decide (k0 = k)) as [->|Hk]; simpl.
    + now rewrite !decide_False.
    + destruct (decide (k0 = k')); [reflexivity|exact IH].
Qed.

(** A new key goes to the end: insertion order. *)
Lemma dict_set_new k v d :
  Dict.get k d = None -> Dict.set k v d = d ++ [(k, v)].
Proof.
  induction d as [|[k' v'] d IH]; simpl; [reflexivity|].
  destruct (decide (k' = k)); [discriminate|].
  intros H. now rewrite IH.
Qed.

(** A present key keeps its place. *)
Lemma dict_keys_set_present k v v0 d :
  Dict.get k d = Some v0 -> Dict.keys (Dict.set k v d) = Dict.keys d.
Proof.
  unfold Dict.keys. induction d as [|[k' v'] d IH]; simpl; [discriminate|].
  destruct (decide (k' = k)); [reflexivity|].
  intros H. simpl. now rewrite IH.
Qed.

Lemma dict_get_None_keys k d : Dict.get k d = None <-> ~ In k (Dict.keys d).
Proof.
  unfold Dict.keys. induction d as [|[k' v'] d IH]; simpl.
  - tauto.
  - destruct (decide (k' = k)) as [->|Hne].
    + split; [discriminate|]. intros H. exfalso. apply H. now left.
    + rewrite IH. tauto.
Qed.

End DictFacts.

(* ===================================================================== *)
(** * The book: [find] and [add_record] *)
(* ===================================================================== *)

Lemma find_absent name w :
  Dict.get name (data w) = None ->
  AddressBook.find name w = (Ok (inr (lit "Contact not found.")), w).
Proof. unfold AddressBook.find. now intros ->. Qed.

Lemma find_present name record w :
  Dict.get name (data w) = Some record ->
  AddressBook.find name w = (Ok (inl record), w).
Proof. unfold AddressBook.find. now intros ->. Qed.

Lemma add_record_spec record r w :
  heap w !! record = Some r ->
  AddressBook.add_record record w
  = (Ok (lit "Record for " ++ value (Record.name r) ++ lit " added."),
     {| heap := heap w;
        data := Dict.set (value (Record.name r)) record (data w) |}).
Proof.
  intros H. unfold AddressBook.add_record, bind, attr. now rewrite H.
Qed.

(** C6: [find] never raises; on a name that is not a key of the book it
    returns the string "Contact not found."; and right after
    [add_record(r)], [find] on the name of [r] returns the object [r]
    itself, whose state [add_record] did not touch. *)
Theorem C6_find_sentinel_and_found_after_add :
  forall w : world,
    (forall name, exists v, AddressBook.find name w = (Ok v, w))
    /\ (forall name,
          Dict.get name (data w) = None ->
          AddressBook.find name w
          = (Ok (inr (lit "Contact not found.")), w))
    /\ (forall record r,
          heap w !! record = Some r ->
          exists msg w',
            AddressBook.add_record record w = (Ok msg, w')
            /\ AddressBook.find (value (Record.name r)) w'
               = (Ok (inl record), w')
            /\ heap w' !! record = Some r).
Proof.
  intros w. split; [|split].
  - intros name. unfold AddressBook.find. eauto.
  - intros name. apply find_absent.
  - intros record r Hr. rewrite (add_record_spec _ _ _ Hr).
    eexists _, _. split; [reflexivity|]. split; [|exact Hr].
    apply find_present. simpl. apply dict_get_set_eq.
Qed.

Lemma C6_find_sentinel_and_found_after_add_witness :
  let w := {| heap := {[ 1%positive := Record.init (lit "Alice") ]};
              data := [] |} in
  (Dict.get (lit "Ghost") (data w) = None
   /\ AddressBook.find (lit "Ghost") w
      = (Ok (inr (lit "Contact not found.")), w))
  /\ (heap w !! 1%positive = Some (Record.init (lit "Alice"))
      /\ exists msg w',
          AddressBook.add_record 1%positive w = (Ok msg, w')
          /\ AddressBook.find (lit "Alice") w' = (Ok (inl 1%positive), w')
          /\ heap w' !! 1%positive = Some (Record.init (lit "Alice"))).
Proof.
  intros w.
  pose proof (C6_find_sentinel_and_found_after_add w) as (_ & Habsent & Hadd).
  split.
  - split; [reflexivity|]. apply Habsent. reflexivity.
  - split; [reflexivity|].
    apply (Hadd 1%positive (Record.init (lit "Alice"))). reflexivity.
Defined.

(* ===================================================================== *)
(** * [add_contact] *)
(* ===================================================================== *)

Lemma call_spec {A} record (m : Record.method A) self w :
  heap w !! record = Some self ->
  call record m w
  = (fst (m self),
     {| heap := <[record := snd (m self)]> (heap w); data := data w |}).
Proof. intros H. unfold call. rewrite H. now destruct (m self). Qed.

Lemma eq_str_not_found_inr :
  eq_str (inr (lit "Contact not found.")) (lit "Contact not found.") = true.
Proof. unfold eq_str. now rewrite bool_decide_eq_true_2. Qed.

Lemma add_contact_new name phone rest w :
  Dict.get name (data w) = None ->
  add_contact (name :: phone :: rest) w
  = match phone with
    | [] => (Ok (lit "Contact added."),
             with_new_record name (Record.init name) w)
    | _ :: _ =>
        match Phone.init phone with
        | Ok p =>
            (Ok (lit "Contact added."),
             with_new_record name
               {| Record.name := Name.init name;
                  Record.phones := [p];
                  Record.birthday := None |} w)
        | Raise e =>
            (Ok (str_exn e), with_new_record name (Record.init name) w)
        end
    end.
Proof.
  intros Hget. unfold add_contact, input_error.
  cbn [length Nat.ltb Nat.leb nth]. unfold bind at 1.
  rewrite (find_absent _ _ Hget). unfold bind at 1.
  rewrite eq_str_not_found_inr. unfold bind at 1.
  unfold new_record at 1. unfold bind at 1.
  set (l := fresh (dom (heap w))).
  erewrite add_record_spec by (cbn [heap]; apply lookup_insert_eq).
  unfold ret at 1. cbn [fst snd Record.name Record.init Name.init value heap data].
  unfold with_new_record. fold l.
  destruct phone as [|c phone].
  - unfold bind, ret. reflexivity.
  - unfold bind at 1. unfold call_on.
    erewrite call_spec by (cbn [heap]; apply lookup_insert_eq).
    cbn [heap data]. rewrite insert_insert_eq.
    unfold Record.add_phone.
    destruct (Phone.init (c :: phone)) as [p|e]; reflexivity.
Qed.

Lemma add_contact_existing name phone rest record self w :
  Dict.get name (data w) = Some record ->
  heap w !! record = Some self ->
  add_contact (name :: phone :: rest) w
  = match phone with
    | [] => (Ok (lit "Contact updated."), w)
    | _ :: _ =>
        match Phone.init phone with
        | Ok p =>
            (Ok (lit "Contact updated."),
             {| heap :=
                  <[record := {| Record.name := Record.name self;
                                 Record.phones := Record.phones self ++ [p];
                                 Record.birthday := Record.birthday self |}]>
                    (heap w);
                data := data w |})
        | Raise e => (Ok (str_exn e), w)
        end
    end.
Proof.
  intros Hget Hself. unfold add_contact, input_error.
  cbn [length Nat.ltb Nat.leb nth]. unfold bind at 1.
  rewrite (find_present _ _ _ Hget). unfold bind at 1.
  cbn [eq_str]. unfold ret at 1. cbn [fst snd].
  destruct phone as [|c phone].
  - unfold bind, ret. reflexivity.
  - unfold bind at 1. unfold call_on.
    rewrite (call_spec _ _ _ _ Hself).
    unfold Record.add_phone.
    destruct (Phone.init (c :: phone)) as [p|e]; cbn [fst snd].
    + reflexivity.
    + rewrite (insert_id _ _ _ Hself). now destruct w.
Qed.

(** C7: on a book without "Alice", [add_contact(["Alice","0123456789"])]
    returns "Contact added.", then [add_contact(["Alice","9876543210"])]
    returns "Contact updated.", and the record of Alice then holds the
    phones "0123456789" and "9876543210", in that order. *)
Theorem C7_add_contact_twice_scenario :
  forall w : world,
    Dict.get (lit "Alice") (data w) = None ->
    let r1 := add_contact [lit "Alice"; lit "0123456789"] w in
    let r2 := add_contact [lit "Alice"; lit "9876543210"] (snd r1) in
    fst r1 = Ok (lit "Contact added.")
    /\ fst r2 = Ok (lit "Contact updated.")
    /\ lookup_record (snd r2) (lit "Alice")
       = Some {| Record.name := Name.init (lit "Alice");
                 Record.phones := [mkField (lit "0123456789");
                                   mkField (lit "9876543210")];
                 Record.birthday := None |}.
Proof.
  intros w Hget r1 r2.
  assert (H1 : r1 = (Ok (lit "Contact added."),
                     with_new_record (lit "Alice")
                       {| Record.name := Name.init (lit "Alice");
                          Record.phones := [mkField (lit "0123456789")];
                          Record.birthday := None |} w)).
  { subst r1. rewrite (add_contact_new _ _ _ _ Hget).
    replace (Phone.init (lit "0123456789"))
      with (Ok (mkField (V := pystr) (lit "0123456789")))
      by (vm_compute; reflexivity).
    reflexivity. }
  assert (H2 : r2 = (Ok (lit "Contact updated."),
                     with_new_record (lit "Alice")
                       {| Record.name := Name.init (lit "Alice");
                          Record.phones := [mkField (lit "0123456789");
                                            mkField (lit "9876543210")];
                          Record.birthday := None |} w)).
  { subst r2. rewrite H1. cbn [snd].
    erewrite add_contact_existing.
    2: { unfold with_new_record. cbn [data]. apply dict_get_set_eq. }
    2: { unfold with_new_record. cbn [heap]. apply lookup_insert_eq. }
    replace (Phone.init (lit "9876543210"))
      with (Ok (mkField (V := pystr) (lit "9876543210")))
      by (vm_compute; reflexivity).
    unfold with_new_record.
    cbn [heap data Record.name Record.phones Record.birthday app].
    now rewrite insert_insert_eq. }
  rewrite H1, H2. cbn [fst snd]. split; [reflexivity|]. split; [reflexivity|].
  unfold lookup_record, with_new_record. cbn [data heap].
  rewrite dict_get_set_eq. apply lookup_insert_eq.
Qed.

Lemma C7_add_contact_twice_scenario_witness :
  Dict.get (lit "Alice") (data empty_book) = None
  /\ let r1 := add_contact [lit "Alice"; lit "0123456789"] empty_book in
     let r2 := add_contact [lit "Alice"; lit "9876543210"] (snd r1) in
     fst r1 = Ok (lit "Contact added.")
     /\ fst r2 = Ok (lit "Contact updated.")
     /\ lookup_record (snd r2) (lit "Alice")
        = Some {| Record.name := Name.init (lit "Alice");
                  Record.phones := [mkField (lit "0123456789");
                                    mkField (lit "9876543210")];
                  Record.birthday := None |}.
Proof.
  split; [reflexivity|].
  apply (C7_add_contact_twice_scenario empty_book). reflexivity.
Defined.

(** C8, as the code has it: for a name that is not in the book and a
    phone string that is not empty and fails the phone validation,
    [add_contact] returns the validation message, and the book then holds
    a new record under that name, with that name, no phone and no
    birthday.  (An empty phone string is not validated: the handler skips
    [add_phone] and returns "Contact added.".) *)
Theorem C8_add_contact_keeps_record_on_invalid_phone :
  forall (w : world) (name phone : pystr) (rest : list pystr),
    Dict.get name (data w) = None ->
    phone <> [] ->
    is_ok (Phone.init phone) = false ->
    add_contact (name :: phone :: rest) w
    = (Ok (lit "Phone number must contain exactly 10 digits."),
       with_new_record name (Record.init name) w)
    /\ lookup_record (with_new_record name (Record.init name) w) name
       = Some {| Record.name := Name.init name;
                 Record.phones := [];
                 Record.birthday := None |}.
Proof.
  intros w name phone rest Hget Hne Hbad. split.
  - rewrite (add_contact_new _ _ _ _ Hget).
    destruct phone as [|c phone]; [congruence|].
    rewrite Phone_init_spec in Hbad |- *.
    destruct (ten_decimal_digits (c :: phone)); [discriminate|reflexivity].
  - unfold lookup_record, with_new_record. cbn [data heap].
    rewrite dict_get_set_eq. apply lookup_insert_eq.
Qed.

Lemma C8_add_contact_keeps_record_on_invalid_phone_witness :
  Dict.get (lit "Bob") (data empty_book) = None
  /\ lit "12345" <> []
  /\ is_ok (Phone.init (lit "12345")) = false
  /\ add_contact [lit "Bob"; lit "12345"] empty_book
     = (Ok (lit "Phone number must contain exactly 10 digits."),
        with_new_record (lit "Bob") (Record.init (lit "Bob")) empty_book)
  /\ lookup_record
       (with_new_record (lit "Bob") (Record.init (lit "Bob")) empty_book)
       (lit "Bob")
     = Some {| Record.name := Name.init (lit "Bob");
               Record.phones := [];
               Record.birthday := None |}.
Proof.
  split; [reflexivity|]. split; [discriminate|]. split; [reflexivity|].
  apply (C8_add_contact_keeps_record_on_invalid_phone
           empty_book (lit "Bob") (lit "12345") []);
    [reflexivity | discriminate | reflexivity].
Defined.

(** C8 as stated fails on the empty phone string: it fails the phone
    validation, and [add_contact] returns "Contact added.", not the
    validation message. *)
Lemma C8_counterexample_empty_phone :
  Dict.get (lit "Bob") (data empty_book) = None
  /\ is_ok (Phone.init []) = false
  /\ fst (add_contact [lit "Bob"; []] empty_book)
     = Ok (lit "Contact added.")
  /\ fst (add_contact [lit "Bob"; []] empty_book)
     <> Ok (lit "Phone number must contain exactly 10 digits.").
Proof.
  split; [reflexivity|]. split; [reflexivity|].
  rewrite add_contact_new by reflexivity. cbn [fst].
  split; [reflexivity|]. vm_compute. discriminate.
Qed.

(* ===================================================================== *)
(** * [add_birthday] *)
(* ===================================================================== *)

Lemma attr_spec {A} record (f : Record.t -> A) self w :
  heap w !! record = Some self -> attr record f w = (Ok (f self), w).
Proof. intros H. unfold attr. now rewrite H. Qed.

Lemma Birthday_init_error s :
  is_ok (Birthday.init s) = false ->
  Birthday.init s
  = Raise (ValueError (lit "Invalid date format. Use DD.MM.YYYY")).
Proof.
  unfold Birthday.init.
  destruct (Datetime.strptime s (lit "%d.%m.%Y")); [discriminate|reflexivity].
Qed.

(** C10: when the record of [name] has a birthday and the date string
    fails the birthday validation, the handler [add_birthday] returns the
    message of the error and leaves the book and every record as they
    were; the record keeps its birthday. *)
Theorem C10_add_birthday_invalid_keeps_birthday :
  forall (w : world) (name s : pystr) (rest : list pystr)
         (record : loc) (self : Record.t) (b : Birthday.t),
    Dict.get name (data w) = Some record ->
    heap w !! record = Some self ->
    Record.birthday self = Some b ->
    is_ok (Birthday.init s) = false ->
    exists w',
      add_birthday (name :: s :: rest) w
      = (Ok (lit "Invalid date format. Use DD.MM.YYYY"), w')
      /\ w' = w
      /\ (lookup_record w' name ≫= Record.birthday) = Some b.
Proof.
  intros w name s rest record self b Hget Hself Hb Hbad.
  exists w. split; [|split; [reflexivity|]].
  - unfold add_birthday, input_error.
    cbn [length Nat.ltb Nat.leb nth]. unfold bind at 1.
    rewrite (find_present _ _ _ Hget). cbn [eq_str].
    unfold bind at 1. unfold attr_on.
    rewrite (attr_spec _ _ _ _ Hself), Hb.
    unfold bind at 1. unfold call_on.
    rewrite (call_spec _ _ _ _ Hself).
    unfold Record.add_birthday. rewrite (Birthday_init_error _ Hbad).
    cbn [fst snd str_exn]. rewrite (insert_id _ _ _ Hself).
    now destruct w.
  - unfold lookup_record. rewrite Hget, Hself. simpl. exact Hb.
Qed.

Lemma C10_add_birthday_invalid_keeps_birthday_witness :
  let b : Birthday.t := mkField (Datetime.mkdate 1990 3 15) in
  let self := {| Record.name := Name.init (lit "Alice");
                 Record.phones := [];
                 Record.birthday := Some b |} in
  let w := {| heap := {[ 1%positive := self ]};
              data := [(lit "Alice", 1%positive)] |} in
  is_ok (Birthday.init (lit "31.04.2020")) = false
  /\ exists w',
      add_birthday [lit "Alice"; lit "31.04.2020"] w
      = (Ok (lit "Invalid date format. Use DD.MM.YYYY"), w')
      /\ w' = w
      /\ (lookup_record w' (lit "Alice") ≫= Record.birthday) = Some b.
Proof.
  intros b self w. split; [reflexivity|].
  apply (C10_add_birthday_invalid_keeps_birthday
           w (lit "Alice") (lit "31.04.2020") [] 1%positive self b);
    reflexivity.
Defined.

(* ===================================================================== *)
(** * [remove_phone] and [edit_phone] *)
(* ===================================================================== *)

Lemma first_with_value_none p l :
  Forall (fun x : Phone.t => value x <> p) l ->
  Record.first_with_value p l = None.
Proof.
  induction 1 as [|x l Hx _ IH]; simpl; [reflexivity|].
  rewrite decide_False by exact Hx. now rewrite IH.
Qed.

Lemma first_with_value_middle p (pre : list Phone.t) x post :
  Forall (fun y : Phone.t => value y <> p) pre ->
  value x = p ->
  Record.first_with_value p (pre ++ x :: post) = Some (length pre).
Proof.
  intros Hpre Hx. induction Hpre as [|y pre Hy _ IH]; simpl.
  - now rewrite decide_True.
  - rewrite decide_False by exact Hy. now rewrite IH.
Qed.

(** C9: [remove_phone] and [edit_phone] never touch the name or the
    birthday.  When a phone has the given value, only the first such
    phone is removed, or has its value replaced: the phones before it and
    all the phones after it, later phones of the same value included,
    stay as they are and in place.  When no phone has the given value the
    record is unchanged and the "not found" message is returned. *)
Theorem C9_phone_mutation_frame :
  forall (self : Record.t) (p new : pystr),
    (Record.name (snd (Record.remove_phone p self)) = Record.name self
     /\ Record.birthday (snd (Record.remove_phone p self))
        = Record.birthday self
     /\ Record.name (snd (Record.edit_phone p new self)) = Record.name self
     /\ Record.birthday (snd (Record.edit_phone p new self))
        = Record.birthday self)
    /\ (forall pre x post,
          Record.phones self = pre ++ x :: post ->
          Forall (fun y : Phone.t => value y <> p) pre ->
          value x = p ->
          Record.remove_phone p self
          = (Ok (lit "Phone " ++ p ++ lit " removed."),
             {| Record.name := Record.name self;
                Record.phones := pre ++ post;
                Record.birthday := Record.birthday self |})
          /\ Record.edit_phone p new self
             = (Ok (lit "Phone " ++ p ++ lit " changed to " ++ new
                      ++ lit "."),
                {| Record.name := Record.name self;
                   Record.phones := pre ++ mkField new :: post;
                   Record.birthday := Record.birthday self |}))
    /\ (Forall (fun y : Phone.t => value y <> p) (Record.phones self) ->
        Record.remove_phone p self
        = (Ok (lit "Phone " ++ p ++ lit " not found."), self)
        /\ Record.edit_phone p new self
           = (Ok (lit "Phone " ++ p ++ lit " not found."), self)).
Proof.
  intros self p new. split; [|split].
  - unfold Record.remove_phone, Record.edit_phone.
    destruct (Record.first_with_value p (Record.phones self));
      repeat split; reflexivity.
  - intros pre x post Hphones Hpre Hx.
    unfold Record.remove_phone, Record.edit_phone.
    rewrite Hphones, (first_with_value_middle _ _ _ _ Hpre Hx).
    rewrite delete_middle.
    replace (length pre) with (length pre + 0)%nat by lia.
    rewrite insert_app_r. split; reflexivity.
  - intros Hall. unfold Record.remove_phone, Record.edit_phone.
    rewrite (first_with_value_none _ _ Hall). split; reflexivity.
Qed.

Lemma C9_phone_mutation_frame_witness :
  let a : Phone.t := mkField (lit "0000000000") in
  let b : Phone.t := mkField (lit "1111111111") in
  let self := {| Record.name := Name.init (lit "Alice");
                 Record.phones := [a; b; a; b];
                 Record.birthday := None |} in
  (Record.remove_phone (lit "1111111111") self
   = (Ok (lit "Phone 1111111111 removed."),
      {| Record.name := Name.init (lit "Alice");
         Record.phones := [a; a; b];
         Record.birthday := None |})
   /\ Record.edit_phone (lit "1111111111") (lit "2") self
      = (Ok (lit "Phone 1111111111 changed to 2."),
         {| Record.name := Name.init (lit "Alice");
            Record.phones := [a; mkField (lit "2"); a; b];
            Record.birthday := None |}))
  /\ (Record.remove_phone (lit "3") self
      = (Ok (lit "Phone 3 not found."), self)
      /\ Record.edit_phone (lit "3") (lit "2") self
         = (Ok (lit "Phone 3 not found."), self)).
Proof.
  intros a b self.
  pose proof (C9_phone_mutation_frame self (lit "1111111111") (lit "2"))
    as (_ & Hfound & _).
  pose proof (C9_phone_mutation_frame self (lit "3") (lit "2"))
    as (_ & _ & Habsent).
  split.
  - apply (Hfound [a] b [a; b]).
    + reflexivity.
    + repeat constructor. simpl. discriminate.
    + reflexivity.
  - apply Habsent. repeat constructor; simpl; discriminate.
Defined.

(* ===================================================================== *)
(** * Persistence *)
(* ===================================================================== *)



Section RoundTrip.

Variable bytes : Type.
Variable pickle_dumps : world -> bytes.
Variable pickle_loads : bytes -> result world.

(** What [pickle] guarantees for a book: instances of plain classes, a
    dictionary, lists, strings and dates are loaded back as new objects
    in the same arrangement and the same states. *)
Hypothesis pickle_roundtrip :
  forall w, exists w',
    pickle_loads (pickle_dumps w) = Ok w' /\ contents w' = contents w.


End RoundTrip.


(* ===================================================================== *)
(** * The matcher finds what the pattern describes *)
(* ===================================================================== *)

Lemma exec_sound {A} r :
  forall s gd (k : pystr -> Re.groupdict -> option A) x,
    Re.exec r s gd k = Some x ->
    exists t s' gd',
      s = t ++ s' /\ Re.sem r t gd gd' /\ k s' gd' = Some x.
Proof.
  induction r as [|cl|a IHa b IHb|a IHa b IHb|name r IH];
    intros s gd k x H; cbn [Re.exec Re.sem] in *.
  - exists [], s, gd. auto.
  - destruct s as [|c s]; [discriminate|].
    destruct (Re.cclass_mem cl c) eqn:Hc; [|discriminate].
    exists [c], s, gd. repeat split; eauto.
  - apply IHa in H as (t1 & s1 & gd1 & -> & Ha & H).
    apply IHb in H as (t2 & s2 & gd2 & -> & Hb & H).
    exists (t1 ++ t2), s2, gd2. rewrite <- app_assoc.
    split; [reflexivity|]. split; [|exact H].
    exists t1, t2, gd1. auto.
  - destruct (Re.exec a s gd k) as [y|] eqn:Ha.
    + injection H as ->. apply IHa in Ha as (t & s' & gd' & ? & ? & ?).
      exists t, s', gd'. auto.
    + apply IHb in H as (t & s' & gd' & ? & ? & ?).
      exists t, s', gd'. auto.
  - apply IH in H as (t & s' & gd1 & -> & Hr & H).
    rewrite length_app, Nat.add_sub, take_app_length in H.
    exists t, s', ((name, t) :: gd1). eauto.
Qed.

Lemma exec_complete {A} r :
  forall t gd gd',
    Re.sem r t gd gd' ->
    forall s' (k : pystr -> Re.groupdict -> option A),
      is_Some (k s' gd') -> is_Some (Re.exec r (t ++ s') gd k).
Proof.
  induction r as [|cl|a IHa b IHb|a IHa b IHb|name r IH];
    intros t gd gd' H s' k Hk; cbn [Re.exec Re.sem] in *.
  - destruct H as [-> ->]. exact Hk.
  - destruct H as [(c & -> & Hc) ->]. simpl. now rewrite Hc.
  - destruct H as (t1 & t2 & gd1 & -> & Ha & Hb).
    rewrite <- app_assoc. eapply IHa; [exact Ha|].
    eapply IHb; [exact Hb|exact Hk].
  - destruct H as [Ha|Hb].
    + destruct (IHa _ _ _ Ha s' k Hk) as [y ->]. eauto.
    + destruct (Re.exec a (t ++ s') gd k); [eauto|].
      eapply IHb; [exact Hb|exact Hk].
  - destruct H as (gd1 & Hr & ->).
    eapply IH; [exact Hr|].
    now rewrite length_app, Nat.add_sub, take_app_length.
Qed.

(** ** The pattern of [%d.%m.%Y] *)

Lemma pattern_dmY : Datetime.pattern (lit "%d.%m.%Y") = Some dmY_regex.
Proof. reflexivity. Qed.

Ltac bool_hyps :=
  repeat match goal with
         | H : _ && _ = true |- _ => apply andb_true_iff in H as [? ?]
         | H : _ || _ = true |- _ => apply orb_true_iff in H as [?|?]
         end.

Lemma sem_dmY t gd :
  Re.sem dmY_regex t [] gd <->
  exists td tm ty,
    t = td ++ dot :: tm ++ dot :: ty
    /\ day_token td = true /\ month_token tm = true /\ year_token ty = true
    /\ gd = [("Y"%string, ty); ("m"%string, tm); ("d"%string, td)].
Proof.
  split.
  - intros H. cbn [dmY_regex Re.sem] in H.
    destruct H as (td & t1 & gd1 & -> & (gd1' & Hd & ->) & H).
    destruct H as (tp & t2 & gd2 & -> & [(c1 & -> & Hc1) ->] & H).
    destruct H as (tm & t3 & gd3 & -> & (gd3' & Hm & ->) & H).
    destruct H as (tq & t4 & gd4 & -> & [(c2 & -> & Hc2) ->] & H).
    destruct H as (ty & t5 & gd5 & -> & (gd5' & Hy & ->) & [-> ->]).
    cbn [Re.cclass_mem] in Hc1, Hc2.
    apply N.eqb_eq in Hc1, Hc2. subst c1 c2.
    exists td, tm, ty. rewrite app_nil_r.
    assert (Hd' : day_token td = true /\ gd1' = []).
    { clear - Hd.
      repeat match goal with
             | H : _ \/ _ |- _ => destruct H
             | H : ex _ |- _ => destruct H
             | H : _ /\ _ |- _ => destruct H
             end; subst; cbn [Re.cclass_mem] in *; split; try reflexivity;
        cbn [day_token app]; unfold in_range;
        repeat match goal with H : _ = true |- _ => rewrite H; clear H end;
        cbn [andb orb]; rewrite ?orb_true_r; reflexivity. }
    assert (Hm' : month_token tm = true /\ gd3' = ("d"%string, td) :: gd1').
    { clear - Hm.
      repeat match goal with
             | H : _ \/ _ |- _ => destruct H
             | H : ex _ |- _ => destruct H
             | H : _ /\ _ |- _ => destruct H
             end; subst; cbn [Re.cclass_mem] in *; split; try reflexivity;
        cbn [month_token app]; unfold in_range;
        repeat match goal with H : _ = true |- _ => rewrite H; clear H end;
        cbn [andb orb]; rewrite ?orb_true_r; reflexivity. }
    assert (Hy' : year_token ty = true /\ gd5' = ("m"%string, tm) :: gd3').
    { clear - Hy.
      repeat match goal with
             | H : ex _ |- _ => destruct H
             | H : _ /\ _ |- _ => destruct H
             end; subst; cbn [Re.cclass_mem] in *; split; try reflexivity;
        cbn [year_token app];
        repeat match goal with H : _ = true |- _ => rewrite H; clear H end;
        reflexivity. }
    destruct Hd' as [? ->], Hm' as [? ->], Hy' as [? ->].
    repeat split; auto.
  - intros (td & tm & ty & -> & Hd & Hm & Hy & ->).
    cbn [dmY_regex Re.sem].
    exists td, (dot :: tm ++ dot :: ty), [("d"%string, td)].
    split; [reflexivity|]. split.
    { exists []. split; [|reflexivity].
      destruct td as [|a [|b [|? ?]]]; try discriminate;
        cbn [day_token] in Hd; unfold in_range in Hd.
      - do 3 right. left. split; [|reflexivity]. exists a. auto.
      - bool_hyps.
        + left. exists [a], [b], []. cbn [Re.cclass_mem].
          repeat split; eauto using andb_true_intro.
        + right; left. exists [a], [b], []. cbn [Re.cclass_mem].
          repeat split; eauto using andb_true_intro.
        + do 2 right; left. exists [a], [b], []. cbn [Re.cclass_mem].
          repeat split; eauto using andb_true_intro.
        + do 4 right. exists [a], [b], []. cbn [Re.cclass_mem].
          repeat split; eauto using andb_true_intro. }
    exists [dot], (tm ++ dot :: ty), [("d"%string, td)].
    split; [reflexivity|]. split.
    { split; [|reflexivity]. exists dot. auto. }
    exists tm, (dot :: ty), [("m"%string, tm); ("d"%string, td)].
    split; [reflexivity|]. split.
    { exists [("d"%string, td)]. split; [|reflexivity].
      destruct tm as [|a [|b [|? ?]]]; try discriminate;
        cbn [month_token] in Hm; unfold in_range in Hm.
      - do 2 right. split; [|reflexivity]. exists a. auto.
      - bool_hyps.
        + left. exists [a], [b], [("d"%string, td)]. cbn [Re.cclass_mem].
          repeat split; eauto using andb_true_intro.
        + right; left. exists [a], [b], [("d"%string, td)].
          cbn [Re.cclass_mem].
          repeat split; eauto using andb_true_intro. }
    exists [dot], ty, [("m"%string, tm); ("d"%string, td)].
    split; [reflexivity|]. split.
    { split; [|reflexivity]. exists dot. auto. }
    exists ty, [], [("Y"%string, ty); ("m"%string, tm); ("d"%string, td)].
    split; [now rewrite app_nil_r|]. split; [|auto].
    exists [("m"%string, tm); ("d"%string, td)]. split; [|reflexivity].
    destruct ty as [|a [|b [|c [|d [|? ?]]]]]; try discriminate.
    cbn [year_token] in Hy. bool_hyps.
    exists [a], [b; c; d], [("m"%string, tm); ("d"%string, td)].
    split; [reflexivity|]. split; [split; eauto|].
    exists [b], [c; d], [("m"%string, tm); ("d"%string, td)].
    split; [reflexivity|]. split; [split; eauto|].
    exists [c], [d], [("m"%string, tm); ("d"%string, td)].
    split; [reflexivity|]. split; split; eauto.
Qed.

(** ** The three groups are delimited by the full stops *)

Lemma isdecimal_dot : Unicode.isdecimal dot = false.
Proof. vm_compute. reflexivity. Qed.

Ltac absurd_class :=
  match goal with
  | H : Unicode.isdecimal dot = true |- _ =>
      rewrite isdecimal_dot in H; discriminate H
  | H : (_ <=? _)%N = true |- _ => now vm_compute in H
  | H : (_ =? _)%N = true |- _ => now vm_compute in H
  end.

Lemma day_token_no_dot t : day_token t = true -> ~ In dot t.
Proof.
  destruct t as [|a [|b [|? ?]]]; try discriminate;
    cbn [day_token]; unfold in_range; intros H Hin; cbn [In] in Hin;
    bool_hyps; intuition subst; absurd_class.
Qed.

Lemma month_token_no_dot t : month_token t = true -> ~ In dot t.
Proof.
  destruct t as [|a [|b [|? ?]]]; try discriminate;
    cbn [month_token]; unfold in_range; intros H Hin; cbn [In] in Hin;
    bool_hyps; intuition subst; absurd_class.
Qed.

Lemma year_token_length t : year_token t = true -> length t = 4%nat.
Proof. now destruct t as [|a [|b [|c [|d [|? ?]]]]]. Qed.

Lemma split_at_dot (t1 t2 r1 r2 : pystr) :
  ~ In dot t1 -> ~ In dot t2 ->
  t1 ++ dot :: r1 = t2 ++ dot :: r2 -> t1 = t2 /\ r1 = r2.
Proof.
  revert t2. induction t1 as [|a t1 IH]; intros [|b t2] H1 H2 Heq;
    cbn [app] in Heq.
  - injection Heq as ->. auto.
  - injection Heq as <- _. exfalso. apply H2. now left.
  - injection Heq as -> _. exfalso. apply H1. now left.
  - injection Heq as -> Heq.
    destruct (IH t2) as [-> ->]; auto.
    + intros Hin. apply H1. now right.
    + intros Hin. apply H2. now right.
Qed.

Lemma dmY_parse_unique td tm ty rest td' tm' ty' rest' :
  day_token td = true -> month_token tm = true -> year_token ty = true ->
  day_token td' = true -> month_token tm' = true -> year_token ty' = true ->
  (td ++ dot :: tm ++ dot :: ty) ++ rest
  = (td' ++ dot :: tm' ++ dot :: ty') ++ rest' ->
  td = td' /\ tm = tm' /\ ty = ty' /\ rest = rest'.
Proof.
  intros Hd Hm Hy Hd' Hm' Hy' Heq.
  rewrite <- !app_assoc in Heq. cbn [app] in Heq.
  rewrite <- !app_assoc in Heq. cbn [app] in Heq.
  apply split_at_dot in Heq as [-> Heq]; auto using day_token_no_dot.
  apply split_at_dot in Heq as [-> Heq]; auto using month_token_no_dot.
  apply app_inj_1 in Heq as [-> ->]; auto.
  now rewrite !year_token_length.
Qed.

Lemma match_dmY s gd rest :
  Re.match_ dmY_regex s = Some (gd, rest) <->
  exists td tm ty,
    s = (td ++ dot :: tm ++ dot :: ty) ++ rest
    /\ day_token td = true /\ month_token tm = true /\ year_token ty = true
    /\ gd = [("Y"%string, ty); ("m"%string, tm); ("d"%string, td)].
Proof.
  unfold Re.match_. split.
  - intros H. apply exec_sound in H as (t & s' & gd' & -> & Hsem & [= <- <-]).
    apply sem_dmY in Hsem as (td & tm & ty & -> & ? & ? & ? & ->).
    exists td, tm, ty. auto.
  - intros (td & tm & ty & -> & Hd & Hm & Hy & ->).
    assert (Hsem : Re.sem dmY_regex (td ++ dot :: tm ++ dot :: ty) []
                     [("Y"%string, ty); ("m"%string, tm); ("d"%string, td)]).
    { apply sem_dmY. exists td, tm, ty. auto. }
    destruct (exec_complete _ _ _ _ Hsem rest
                (fun rest gd => Some (gd, rest))) as [[gd1 rest1] H1];
      [eauto|].
    rewrite H1.
    apply exec_sound in H1 as (t & s' & gd' & Heq & Hsem1 & [= <- <-]).
    apply sem_dmY in Hsem1 as (td' & tm' & ty' & -> & ? & ? & ? & ->).
    apply dmY_parse_unique in Heq as (-> & -> & -> & ->); auto.
Qed.

(** ** [strptime] with the format [%d.%m.%Y] *)

Lemma strptime_dmY s dt :
  Datetime.strptime s (lit "%d.%m.%Y") = Some dt <->
  exists td tm ty y m d,
    s = td ++ dot :: tm ++ dot :: ty
    /\ day_token td = true /\ month_token tm = true /\ year_token ty = true
    /\ py_int ty = Some y /\ py_int tm = Some m /\ py_int td = Some d
    /\ Datetime.date_new y m d = Ok dt.
Proof.
  unfold Datetime.strptime. rewrite pattern_dmY. split.
  - destruct (Re.match_ dmY_regex s) as [[gd rest]|] eqn:Hm; [|discriminate].
    apply match_dmY in Hm as (td & tm & ty & -> & Hd & Hmo & Hy & ->).
    destruct rest; [|discriminate]. rewrite app_nil_r.
    cbn [Re.group String.eqb Ascii.eqb Bool.eqb].
    destruct (py_int ty) as [y|] eqn:Hiy; [|discriminate].
    destruct (py_int tm) as [m|] eqn:Him; [|discriminate].
    destruct (py_int td) as [d|] eqn:Hid; [|discriminate].
    destruct (Datetime.date_new y m d) as [dt'|] eqn:Hnew; [|discriminate].
    intros [= <-]. exists td, tm, ty, y, m, d. repeat split; assumption.
  - intros (td & tm & ty & y & m & d & -> & Hd & Hmo & Hy & Hiy & Him & Hid
            & Hnew).
    assert (Hm : Re.match_ dmY_regex (td ++ dot :: tm ++ dot :: ty)
                 = Some ([("Y"%string, ty); ("m"%string, tm);
                          ("d"%string, td)], [])).
    { apply match_dmY. exists td, tm, ty. rewrite app_nil_r. auto. }
    rewrite Hm. cbn [Re.group String.eqb Ascii.eqb Bool.eqb].
    now rewrite Hiy, Him, Hid, Hnew.
Qed.

(** ** Strings in the strict pattern, by exhaustive evaluation *)

Lemma ascii_digit_cases a :
  Unicode.is_ascii_digit a = true -> In a ascii_digits.
Proof.
  unfold Unicode.is_ascii_digit. intros [H1 H2]%andb_true_iff.
  apply N.leb_le in H1, H2. unfold ascii_digits. cbn [In].
  assert (a = 48 \/ a = 49 \/ a = 50 \/ a = 51 \/ a = 52 \/ a = 53
          \/ a = 54 \/ a = 55 \/ a = 56 \/ a = 57)%N by lia.
  intuition auto.
Qed.

Lemma all_pairs_checked :
  forallb (fun a => forallb (check_pair a) ascii_digits) ascii_digits = true.
Proof. vm_compute. reflexivity. Qed.

Lemma all_quads_checked :
  forallb (fun e => forallb (fun f => forallb (fun g =>
     forallb (check_quad e f g) ascii_digits) ascii_digits) ascii_digits)
    ascii_digits = true.
Proof. vm_compute. reflexivity. Qed.

Lemma check_pair_ok a b :
  Unicode.is_ascii_digit a = true -> Unicode.is_ascii_digit b = true ->
  check_pair a b = true.
Proof.
  intros Ha%ascii_digit_cases Hb%ascii_digit_cases.
  pose proof all_pairs_checked as H.
  rewrite forallb_forall in H. specialize (H a Ha).
  rewrite forallb_forall in H. exact (H b Hb).
Qed.

Lemma check_quad_ok e f g h :
  Unicode.is_ascii_digit e = true -> Unicode.is_ascii_digit f = true ->
  Unicode.is_ascii_digit g = true -> Unicode.is_ascii_digit h = true ->
  check_quad e f g h = true.
Proof.
  intros He%ascii_digit_cases Hf%ascii_digit_cases
         Hg%ascii_digit_cases Hh%ascii_digit_cases.
  pose proof all_quads_checked as H.
  rewrite forallb_forall in H. specialize (H e He).
  rewrite forallb_forall in H. specialize (H f Hf).
  rewrite forallb_forall in H. specialize (H g Hg).
  rewrite forallb_forall in H. exact (H h Hh).
Qed.

Lemma ascii_digit_not_dot a : Unicode.is_ascii_digit a = true -> a <> dot.
Proof.
  unfold Unicode.is_ascii_digit, dot. intros [H1 _]%andb_true_iff.
  apply N.leb_le in H1. lia.
Qed.

Lemma days_in_month_le_31 y m : Datetime.days_in_month y m <= 31.
Proof.
  unfold Datetime.days_in_month.
  destruct ((m =? 2) && Datetime.is_leap y); [lia|].
  unfold Datetime.DAYS_IN_MONTH.
  repeat match goal with
         | |- context [match ?x with _ => _ end] => destruct x
         end; lia.
Qed.

Lemma date_new_real y m d :
  real_date y m d = true ->
  Datetime.date_new y m d = Ok (Datetime.mkdate y m d).
Proof.
  unfold real_date, Datetime.date_new, Datetime.MINYEAR, Datetime.MAXYEAR.
  intros H. bool_hyps.
  repeat match goal with
         | H : (_ <=? _) = true |- _ => apply Z.leb_le in H
         end.
  rewrite !(proj2 (Z.ltb_ge _ _)) by lia. reflexivity.
Qed.

Lemma date_new_not_real y m d :
  real_date y m d = false -> is_ok (Datetime.date_new y m d) = false.
Proof.
  unfold real_date, Datetime.date_new, Datetime.MINYEAR, Datetime.MAXYEAR.
  intros H.
  destruct (y <? 1) eqn:E1; [reflexivity|].
  destruct (9999 <? y) eqn:E2; [reflexivity|].
  destruct (m <? 1) eqn:E3; [reflexivity|].
  destruct (12 <? m) eqn:E4; [reflexivity|].
  destruct (d <? 1) eqn:E5; [reflexivity|].
  destruct (Datetime.days_in_month y m <? d) eqn:E6; [reflexivity|].
  exfalso. apply Z.ltb_ge in E1, E2, E3, E4, E5, E6.
  rewrite !(proj2 (Z.leb_le _ _)) in H by lia. discriminate.
Qed.

Lemma strftime_dmY pad dt :
  Datetime.strftime pad (lit "%d.%m.%Y") dt
  = zfill 2 (str_int (Datetime.day dt))
    ++ dot :: zfill 2 (str_int (Datetime.month dt))
    ++ dot :: (if pad then zfill 4 (str_int (Datetime.year dt))
               else str_int (Datetime.year dt)).
Proof.
  cbv [lit list_ascii_of_string List.map N_of_ascii N_of_digits].
  cbn [Datetime.strftime N.eqb Pos.eqb N.add N.mul Pos.add Pos.mul].
  rewrite app_nil_r. reflexivity.
Qed.

(** What [strict_dmY] yields, spelled out. *)
Lemma strict_dmY_inv s y m d :
  strict_dmY s = Some (y, m, d) ->
  exists a b c d' e f g h,
    s = [a; b] ++ dot :: [c; d'] ++ dot :: [e; f; g; h]
    /\ check_pair a b = true /\ check_pair c d' = true
    /\ check_quad e f g h = true
    /\ Unicode.is_ascii_digit a = true /\ Unicode.is_ascii_digit b = true
    /\ Unicode.is_ascii_digit c = true /\ Unicode.is_ascii_digit d' = true
    /\ y = 1000 * digit_val e + 100 * digit_val f
           + 10 * digit_val g + digit_val h
    /\ m = 10 * digit_val c + digit_val d'
    /\ d = 10 * digit_val a + digit_val b.
Proof.
  destruct s as [|a [|b [|p [|c [|d' [|q [|e [|f [|g [|h [|? ?]]]]]]]]]]];
    try discriminate.
  cbn [strict_dmY forallb].
  destruct (_ && _) eqn:H; [|discriminate]. intros [= <- <- <-].
  bool_hyps. apply N.eqb_eq in H0, H1. subst p q.
  exists a, b, c, d', e, f, g, h.
  repeat split; auto using check_pair_ok, check_quad_ok.
Qed.

Lemma Birthday_init_strict s y m d :
  strict_dmY s = Some (y, m, d) ->
  (real_date y m d = true ->
   Birthday.init s = Ok (mkField (Datetime.mkdate y m d))
   /\ forall pad : bool,
        pad = true \/ 1000 <= y ->
        Birthday.str pad (mkField (Datetime.mkdate y m d)) = s)
  /\ (real_date y m d = false ->
      Birthday.init s
      = Raise (ValueError (lit "Invalid date format. Use DD.MM.YYYY"))).
Proof.
  intros (a & b & c & d' & e & f & g & h & -> & Hab & Hcd & Hq
          & Ha & Hb & Hc & Hd & -> & -> & ->)%strict_dmY_inv.
  unfold check_pair in Hab, Hcd. unfold check_quad in Hq.
  cbv zeta in Hab, Hcd, Hq.
  set (y := 1000 * digit_val e + 100 * digit_val f
            + 10 * digit_val g + digit_val h) in *.
  set (m := 10 * digit_val c + digit_val d') in *.
  set (d := 10 * digit_val a + digit_val b) in *.
  apply andb_true_iff in Hab as [[[Hab1 _]%andb_true_iff Hab3]%andb_true_iff Hab4].
  apply andb_true_iff in Hcd as [[[_ Hcd2]%andb_true_iff Hcd3]%andb_true_iff Hcd4].
  apply andb_true_iff in Hq as [[[Hq1 Hq2]%andb_true_iff Hq3]%andb_true_iff Hq4].
  apply eqb_prop in Hab1, Hcd2.
  apply bool_decide_eq_true_1 in Hab3, Hab4, Hcd3, Hcd4, Hq2, Hq3.
  split.
  - intros Hreal. pose proof Hreal as Hnew%date_new_real.
    unfold real_date in Hreal.
    repeat (apply andb_true_iff in Hreal as [Hreal ?]).
    repeat match goal with
           | H : (_ <=? _) = true |- _ => apply Z.leb_le in H
           end.
    pose proof (days_in_month_le_31 y m).
    split.
    + unfold Birthday.init.
      replace (Datetime.strptime _ _) with (Some (Datetime.mkdate y m d));
        [reflexivity|].
      symmetry. apply strptime_dmY.
      exists [a; b], [c; d'], [e; f; g; h], y, m, d.
      repeat split; auto.
      * rewrite Hab1. apply andb_true_intro. split; apply Z.leb_le; lia.
      * rewrite Hcd2. apply andb_true_intro. split; apply Z.leb_le; lia.
    + intros pad Hpad. unfold Birthday.str. rewrite strftime_dmY.
      cbn [value Datetime.day Datetime.month Datetime.year].
      rewrite Hab4, Hcd4.
      destruct pad.
      * now rewrite Hq3.
      * destruct Hpad as [|Hy]; [discriminate|].
        apply orb_true_iff in Hq4 as [Hlt|Heq].
        -- apply Z.ltb_lt in Hlt. lia.
        -- apply bool_decide_eq_true_1 in Heq. now rewrite Heq.
  - intros Hnot%date_new_not_real. unfold Birthday.init.
    destruct (Datetime.strptime _ _) as [dt|] eqn:Hs; [|reflexivity].
    exfalso. apply strptime_dmY in Hs
      as (td & tm & ty & y' & m' & d0 & Heq & Htd & Htm & Hty
          & Hiy & Him & Hid & Hnew).
    apply split_at_dot in Heq as [<- Heq].
    2: { cbn [In]. intros [E|[E|[]]];
         [apply (ascii_digit_not_dot a)|apply (ascii_digit_not_dot b)];
         assumption. }
    2: { now apply day_token_no_dot. }
    apply split_at_dot in Heq as [<- <-].
    2: { cbn [In]. intros [E|[E|[]]];
         [apply (ascii_digit_not_dot c)|apply (ascii_digit_not_dot d')];
         assumption. }
    2: { now apply month_token_no_dot. }
    rewrite Hq2 in Hiy. rewrite Hcd3 in Him. rewrite Hab3 in Hid.
    injection Hiy as <-. injection Him as <-. injection Hid as <-.
    now rewrite Hnew in Hnot.
Qed.

Lemma date_new_Ok_iff y m d dt :
  Datetime.date_new y m d = Ok dt <->
  real_date y m d = true /\ dt = Datetime.mkdate y m d.
Proof.
  split.
  - intros H. destruct (real_date y m d) eqn:Hr.
    + rewrite (date_new_real _ _ _ Hr) in H. injection H as <-. auto.
    + apply date_new_not_real in Hr. now rewrite H in Hr.
  - intros [Hr ->]. now apply date_new_real.
Qed.

(* ===================================================================== *)
(** * Birthdays *)
(* ===================================================================== *)

(** C2, as the code has it.  The constructor raises no error but the one
    with the message "Invalid date format. Use DD.MM.YYYY".  It accepts
    exactly the strings made of a day, a full stop, a month, a full stop
    and a year, where the day is a text the group [d] of [strptime] can
    hold, the month one the group [m] can hold, the year four decimal
    digits, and the three numbers are a date of the calendar; the pattern
    is not strict: "1.3.1990" is accepted.  On a string in the strict
    pattern DD.MM.YYYY it succeeds exactly when the string denotes a date
    of the calendar, and rendering the stored birthday then gives the
    string back, provided the year is 1000 or more or the platform pads
    the year. *)
Theorem C2_birthday_accepts_strptime_dates :
  forall s : pystr,
    (is_ok (Birthday.init s) = false ->
     Birthday.init s
     = Raise (ValueError (lit "Invalid date format. Use DD.MM.YYYY")))
    /\ (forall dt,
          Birthday.init s = Ok (mkField dt) <->
          exists td tm ty y m d,
            s = td ++ dot :: tm ++ dot :: ty
            /\ day_token td = true /\ month_token tm = true
            /\ year_token ty = true
            /\ py_int ty = Some y /\ py_int tm = Some m
            /\ py_int td = Some d
            /\ real_date y m d = true /\ dt = Datetime.mkdate y m d)
    /\ (forall y m d,
          strict_dmY s = Some (y, m, d) ->
          (real_date y m d = true ->
           Birthday.init s = Ok (mkField (Datetime.mkdate y m d))
           /\ forall pad : bool,
                pad = true \/ 1000 <= y ->
                Birthday.str pad (mkField (Datetime.mkdate y m d)) = s)
          /\ (real_date y m d = false ->
              Birthday.init s
              = Raise (ValueError
                         (lit "Invalid date format. Use DD.MM.YYYY")))).
Proof.
  intros s. split; [apply Birthday_init_error|]. split.
  - intros dt. unfold Birthday.init.
    destruct (Datetime.strptime s (lit "%d.%m.%Y")) as [dt'|] eqn:Hs.
    + split.
      * intros [= <-]. apply strptime_dmY in Hs
          as (td & tm & ty & y & m & d & ? & ? & ? & ? & ? & ? & ?
              & [? ?]%date_new_Ok_iff).
        exists td, tm, ty, y, m, d. repeat split; assumption.
      * intros (td & tm & ty & y & m & d & ? & ? & ? & ? & ? & ? & ?
                & Hr & ->).
        assert (Hs' : Datetime.strptime s (lit "%d.%m.%Y")
                      = Some (Datetime.mkdate y m d)).
        { apply strptime_dmY. exists td, tm, ty, y, m, d.
          repeat split; try assumption. now apply date_new_real. }
        rewrite Hs in Hs'. now injection Hs' as ->.
    + split; [discriminate|].
      intros (td & tm & ty & y & m & d & ? & ? & ? & ? & ? & ? & ?
              & Hr & ->).
      assert (Hs' : Datetime.strptime s (lit "%d.%m.%Y")
                    = Some (Datetime.mkdate y m d)).
      { apply strptime_dmY. exists td, tm, ty, y, m, d.
        repeat split; try assumption. now apply date_new_real. }
      rewrite Hs in Hs'. discriminate.
  - intros y m d. apply Birthday_init_strict.
Qed.

Lemma C2_birthday_accepts_strptime_dates_witness :
  (strict_dmY (lit "15.03.1990") = Some (1990, 3, 15)
   /\ real_date 1990 3 15 = true
   /\ Birthday.init (lit "15.03.1990")
      = Ok (mkField (Datetime.mkdate 1990 3 15))
   /\ Birthday.str false (mkField (Datetime.mkdate 1990 3 15))
      = lit "15.03.1990")
  /\ (strict_dmY (lit "31.04.2020") = Some (2020, 4, 31)
      /\ real_date 2020 4 31 = false
      /\ is_ok (Birthday.init (lit "31.04.2020")) = false
      /\ Birthday.init (lit "31.04.2020")
         = Raise (ValueError (lit "Invalid date format. Use DD.MM.YYYY"))).
Proof.
  pose proof (C2_birthday_accepts_strptime_dates (lit "15.03.1990"))
    as (_ & _ & Hstrict).
  pose proof (C2_birthday_accepts_strptime_dates (lit "31.04.2020"))
    as (Hmsg & _ & _).
  destruct (Hstrict 1990 3 15) as [Hok _]; [reflexivity|].
  destruct Hok as [Hinit Hstr]; [reflexivity|].
  split.
  - split; [reflexivity|]. split; [reflexivity|]. split; [exact Hinit|].
    apply Hstr. right. lia.
  - split; [reflexivity|]. split; [reflexivity|]. split; [reflexivity|].
    apply Hmsg. reflexivity.
Defined.

(** C2 as stated fails: "1.3.1990" is not in the pattern DD.MM.YYYY, the
    constructor accepts it, and rendering the stored birthday gives
    "01.03.1990", which is not the input. *)
Lemma C2_counterexample_unpadded_date :
  strict_dmY (lit "1.3.1990") = None
  /\ Birthday.init (lit "1.3.1990")
     = Ok (mkField (Datetime.mkdate 1990 3 1))
  /\ Birthday.str true (mkField (Datetime.mkdate 1990 3 1))
     = lit "01.03.1990"
  /\ Birthday.str false (mkField (Datetime.mkdate 1990 3 1))
     = lit "01.03.1990"
  /\ lit "01.03.1990" <> lit "1.3.1990".
Proof. repeat split; vm_compute; try reflexivity; discriminate. Qed.

(* ===================================================================== *)
(** * Days to the next birthday *)
(* ===================================================================== *)

(** C4 fails on the code: for a birthday on the 29th of February,
    [days_to_birthday] raises [ValueError] whenever the year it moves the
    birthday to is not a leap year.  The birthday "29.02.2000" is a valid
    one, and on the first of March 2023 no day count is returned. *)
Theorem C4_days_to_birthday_raises_for_29_february :
  Birthday.init (lit "29.02.2000") = Ok (mkField (Datetime.mkdate 2000 2 29))
  /\ Record.birthday bob = Some (mkField (Datetime.mkdate 2000 2 29))
  /\ Record.days_to_birthday march_1_2023 bob
     = Raise (ValueError (lit "day is out of range for month")).
Proof. repeat split; vm_compute; reflexivity. Qed.

(** C5 fails on the code, by the same defect: with Alice's birthday one
    day away and Bob's on the 29th of February, [get_upcoming_birthdays]
    on the first of March 2023 raises instead of returning Alice's entry. *)
Theorem C5_upcoming_birthdays_raises_for_29_february :
  upcoming_entry false march_1_2023 alice
  = Some {| AddressBook.u_name := lit "Alice";
            AddressBook.u_birthday := mkField (Datetime.mkdate 1990 3 2);
            AddressBook.u_congratulation_date := lit "02.03.2023" |}
  /\ upcoming_entry false march_1_2023 bob = None
  /\ fst (AddressBook.get_upcoming_birthdays false march_1_2023
            alice_and_bob)
     = Raise (ValueError (lit "day is out of range for month")).
Proof. repeat split; vm_compute; reflexivity. Qed.

(** ** What the code does when it does not raise *)

Lemma days_to_birthday_no_birthday today self :
  Record.birthday self = None ->
  Record.days_to_birthday today self = Ok None.
Proof. unfold Record.days_to_birthday. now intros ->. Qed.

Lemma days_before_year_succ y :
  Datetime.days_before_year (y + 1)
  = Datetime.days_before_year y + 365
    + (if Datetime.is_leap y then 1 else 0).
Proof.
  unfold Datetime.days_before_year, Datetime.is_leap. cbv zeta.
  replace (y + 1 - 1) with y by lia.
  destruct (Z.eqb_spec (y mod 4) 0), (Z.eqb_spec (y mod 100) 0),
    (Z.eqb_spec (y mod 400) 0); cbn [andb orb negb];
    Z.div_mod_to_equations; lia.
Qed.

Ltac month_cases m :=
  let H := fresh in
  assert (H : m = 1 \/ m = 2 \/ m = 3 \/ m = 4 \/ m = 5 \/ m = 6 \/ m = 7
              \/ m = 8 \/ m = 9 \/ m = 10 \/ m = 11 \/ m = 12) by lia;
  destruct H as [->|[->|[->|[->|[->|[->|[->|[->|[->|[->|[->| ->]]]]]]]]]]].

Lemma real_date_bounds y m d :
  real_date y m d = true ->
  1 <= y <= 9999 /\ 1 <= m <= 12 /\ 1 <= d <= Datetime.days_in_month y m.
Proof.
  unfold real_date. intros H.
  repeat (apply andb_true_iff in H as [H ?]).
  repeat match goal with
         | H : (_ <=? _) = true |- _ => apply Z.leb_le in H
         end.
  lia.
Qed.

Lemma real_date_intro y m d :
  1 <= y <= 9999 -> 1 <= m <= 12 -> 1 <= d <= Datetime.days_in_month y m ->
  real_date y m d = true.
Proof.
  intros. unfold real_date.
  rewrite !(proj2 (Z.leb_le _ _)) by lia. reflexivity.
Qed.

(** Outside the 29th of February, a day of a month is one in any year. *)
Lemma real_date_other_year y y' m d :
  real_date y m d = true -> 1 <= y' <= 9999 ->
  (m =? 2) && (d =? 29) = false ->
  real_date y' m d = true.
Proof.
  intros (Hy & Hm & Hd)%real_date_bounds Hy' Hfeb.
  apply real_date_intro; try lia.
  unfold Datetime.days_in_month in *.
  month_cases m; cbn [Z.eqb Pos.eqb andb Datetime.DAYS_IN_MONTH] in *;
    try lia.
  destruct (Z.eqb_spec d 29); [discriminate|].
  destruct (Datetime.is_leap y), (Datetime.is_leap y'); lia.
Qed.

Lemma date_lt_same_year y m d m' d' :
  Datetime.date_lt (Datetime.mkdate y m d) (Datetime.mkdate y m' d')
  = (m <? m') || ((m =? m') && (d <? d')).
Proof.
  unfold Datetime.date_lt.
  cbn [Datetime.year Datetime.month Datetime.day].
  now rewrite Z.ltb_irrefl, Z.eqb_refl.
Qed.

Lemma ordinal_difference_this_year y m d m' d' :
  real_date y m d = true -> real_date y m' d' = true ->
  (m' <? m) || ((m' =? m) && (d' <? d)) = false ->
  0 <= Datetime.ymd2ord y m' d' - Datetime.ymd2ord y m d <= 365.
Proof.
  intros (Hy & Hm & Hd)%real_date_bounds (_ & Hm' & Hd')%real_date_bounds Hlt.
  apply orb_false_iff in Hlt as [H1%Z.ltb_ge H2].
  assert (m' = m -> d <= d').
  { intros ->. rewrite Z.eqb_refl in H2. now apply Z.ltb_ge in H2. }
  clear H2.
  unfold Datetime.ymd2ord, Datetime.days_before_month,
    Datetime.days_in_month in *.
  destruct (Datetime.is_leap y);
    month_cases m; month_cases m';
    cbn [Z.eqb Z.ltb Z.compare Pos.eqb Pos.compare Pos.compare_cont andb
         Datetime.DAYS_IN_MONTH Datetime.DAYS_BEFORE_MONTH] in *;
    lia.
Qed.

Lemma ordinal_difference_next_year y m d m' d' :
  real_date y m d = true -> real_date (y + 1) m' d' = true ->
  (m' <? m) || ((m' =? m) && (d' <? d)) = true ->
  0 <= Datetime.ymd2ord (y + 1) m' d' - Datetime.ymd2ord y m d <= 366.
Proof.
  intros (Hy & Hm & Hd)%real_date_bounds (_ & Hm' & Hd')%real_date_bounds Hlt.
  assert (m' < m \/ (m' = m /\ d' < d)).
  { apply orb_true_iff in Hlt as [?%Z.ltb_lt|[?%Z.eqb_eq ?%Z.ltb_lt]%andb_true_iff];
      auto. }
  clear Hlt.
  unfold Datetime.ymd2ord. rewrite days_before_year_succ.
  unfold Datetime.days_before_month, Datetime.days_in_month in *.
  destruct (Datetime.is_leap y), (Datetime.is_leap (y + 1));
    month_cases m; month_cases m';
    cbn [Z.eqb Z.ltb Z.compare Pos.eqb Pos.compare Pos.compare_cont andb
         Datetime.DAYS_IN_MONTH Datetime.DAYS_BEFORE_MONTH] in *;
    lia.
Qed.

(** When the birthday is not on the 29th of February and next year is a
    year of the calendar, [days_to_birthday] returns the number of days
    from today to the next occurrence, a number from 0 to 366. *)
Lemma days_to_birthday_in_range today self b :
  Record.birthday self = Some b ->
  is_real (value b) = true -> is_real today = true ->
  is_feb_29 (value b) = false ->
  Datetime.year today < 9999 ->
  exists n,
    Record.days_to_birthday today self = Ok (Some n)
    /\ n = Datetime.sub_days (next_occurrence today (value b)) today
    /\ 0 <= n <= 366.
Proof.
  intros Hb Hrb Hrt Hfeb Hyear. unfold Record.days_to_birthday. rewrite Hb.
  destruct b as [[yb mb db]]. destruct today as [yt mt dt].
  unfold is_real, is_feb_29, next_occurrence, Datetime.replace_year in *.
  cbn [value Datetime.year Datetime.month Datetime.day] in *.
  pose proof (real_date_bounds _ _ _ Hrt) as (Hyt & _ & _).
  assert (Hthis : real_date yt mb db = true)
    by (apply (real_date_other_year yb); auto).
  assert (Hnext : real_date (yt + 1) mb db = true)
    by (apply (real_date_other_year yb); auto; lia).
  rewrite (date_new_real _ _ _ Hthis).
  rewrite date_lt_same_year.
  cbn [Datetime.year Datetime.month Datetime.day].
  destruct ((mb <? mt) || ((mb =? mt) && (db <? dt))) eqn:Hlt.
  - rewrite (date_new_real _ _ _ Hnext). eexists. split; [reflexivity|].
    split; [reflexivity|].
    unfold Datetime.sub_days, Datetime.toordinal.
    cbn [Datetime.year Datetime.month Datetime.day].
    now apply ordinal_difference_next_year.
  - eexists. split; [reflexivity|]. split; [reflexivity|].
    unfold Datetime.sub_days, Datetime.toordinal.
    cbn [Datetime.year Datetime.month Datetime.day].
    pose proof (ordinal_difference_this_year yt mt dt mb db Hrt Hthis Hlt).
    lia.
Qed.

(* ===================================================================== *)
(** * Upcoming birthdays *)
(* ===================================================================== *)

(** When the loop goes on for every record of the book, the result is
    the list of the entries of the records whose birthday is 0 to 7 days
    away, in the order of the book. *)
Lemma upcoming_loop_spec pad today (h : gmap loc Record.t) records :
  forall acc,
    Forall (fun l => exists r, h !! l = Some r /\ passes today r = true)
      records ->
    AddressBook.upcoming_loop pad today h records acc
    = Ok (acc ++ omap (fun l => h !! l ≫= upcoming_entry pad today) records).
Proof.
  induction records as [|l records IH]; intros acc Hall.
  - simpl. now rewrite app_nil_r.
  - apply Forall_cons in Hall as [(r & Hl & Hp) Hall].
    cbn [AddressBook.upcoming_loop omap list_omap]. rewrite Hl.
    cbn [mbind option_bind]. unfold passes in Hp. unfold upcoming_entry.
    destruct (Record.birthday r) as [b|]; [|now apply IH].
    destruct (Record.days_to_birthday today r) as [[n|]|e];
      [| now apply IH | discriminate].
    destruct ((0 <=? n) && (n <=? 7)); [|now apply IH].
    cbn [negb orb] in Hp.
    destruct (Datetime.add_days today n) as [d|e]; [|discriminate].
    rewrite IH by assumption. now rewrite <- app_assoc.
Qed.

Lemma get_upcoming_birthdays_spec pad today w :
  Forall (fun l => exists r, heap w !! l = Some r /\ passes today r = true)
    (Dict.values (data w)) ->
  AddressBook.get_upcoming_birthdays pad today w
  = (Ok (omap (fun l => heap w !! l ≫= upcoming_entry pad today)
           (Dict.values (data w))), w).
Proof.
  intros H. unfold AddressBook.get_upcoming_birthdays.
  now rewrite upcoming_loop_spec.
Qed.

(* ===================================================================== *)
(** * More on dictionaries and the book *)
(* ===================================================================== *)

Section DictMore.
Context {V : Type}.
Implicit Types (d : list (pystr * V)) (k : pystr) (v : V).

Lemma dict_get_Some_In k v d : Dict.get k d = Some v -> In (k, v) d.
Proof.
  induction d as [|[k' v'] d IH]; simpl; [discriminate|].
  destruct (decide (k' = k)) as [->|Hne].
  - intros [= ->]. now left.
  - intros H. right. auto.
Qed.

Lemma dict_In_get k v d :
  NoDup (Dict.keys d) -> In (k, v) d -> Dict.get k d = Some v.
Proof.
  unfold Dict.keys. induction d as [|[k' v'] d IH]; simpl; [tauto|].
  intros Hnd [[= -> ->]|Hin].
  - now rewrite decide_True.
  - apply NoDup_cons in Hnd as [Hk Hnd].
    destruct (decide (k' = k)) as [->|Hne]; [|auto].
    exfalso. apply Hk. apply list_elem_of_In.
    apply (in_map fst) in Hin. exact Hin.
Qed.

Lemma dict_get_del_ne k k' d :
  k <> k' -> Dict.get k' (Dict.del k d) = Dict.get k' d.
Proof.
  intros Hne. induction d as [|[k0 v0] d IH]; simpl; [reflexivity|].
  destruct (decide (k0 = k)) as [->|Hk]; simpl.
  - now rewrite decide_False.
  - destruct (decide (k0 = k')); [reflexivity|exact IH].
Qed.

Lemma dict_get_del_eq k d :
  NoDup (Dict.keys d) -> Dict.get k (Dict.del k d) = None.
Proof.
  unfold Dict.keys. induction d as [|[k0 v0] d IH]; simpl; [reflexivity|].
  intros [Hk Hnd]%NoDup_cons.
  destruct (decide (k0 = k)) as [->|Hne]; simpl.
  - apply dict_get_None_keys. intros Hin. apply Hk.
    now apply list_elem_of_In.
  - rewrite decide_False by exact Hne. auto.
Qed.

Lemma dict_del_absent k d : Dict.get k d = None -> Dict.del k d = d.
Proof.
  induction d as [|[k0 v0] d IH]; simpl; [reflexivity|].
  destruct (decide (k0 = k)); [discriminate|].
  intros H. now rewrite IH.
Qed.

Lemma dict_del_set_new k v d :
  Dict.get k d = None -> Dict.del k (Dict.set k v d) = d.
Proof.
  induction d as [|[k0 v0] d IH]; simpl.
  - now rewrite decide_True.
  - destruct (decide (k0 = k)); [discriminate|].
    intros H. simpl. rewrite decide_False by assumption. now rewrite IH.
Qed.

Lemma dict_del_sublist k d : sublist (Dict.del k d) d.
Proof.
  induction d as [|[k0 v0] d IH]; simpl; [constructor|].
  destruct (decide (k0 = k)).
  - now apply sublist_cons.
  - now apply sublist_skip.
Qed.

Lemma dict_keys_del k d :
  NoDup (Dict.keys d) ->
  Dict.keys (Dict.del k d)
  = List.filter (fun k' => negb (bool_decide (k' = k))) (Dict.keys d).
Proof.
  unfold Dict.keys. induction d as [|[k0 v0] d IH]; simpl; [reflexivity|].
  intros [Hk Hnd]%NoDup_cons.
  destruct (decide (k0 = k)) as [->|Hne].
  - rewrite bool_decide_eq_true_2 by reflexivity. simpl.
    symmetry. apply forallb_filter_id. apply forallb_forall.
    intros k' Hin. apply negb_true_iff, bool_decide_eq_false_2.
    intros ->. apply Hk. now apply list_elem_of_In.
  - rewrite bool_decide_eq_false_2 by exact Hne. simpl. now rewrite IH.
Qed.

Lemma dict_keys_set k v d :
  Dict.keys (Dict.set k v d)
  = match Dict.get k d with
    | Some _ => Dict.keys d
    | None => Dict.keys d ++ [k]
    end.
Proof.
  unfold Dict.keys. induction d as [|[k0 v0] d IH]; simpl; [reflexivity|].
  destruct (decide (k0 = k)) as [->|Hne]; simpl; [reflexivity|].
  rewrite IH. now destruct (Dict.get k d).
Qed.

End DictMore.

Lemma NoDup_keys_del {V} k (d : list (pystr * V)) :
  NoDup (Dict.keys d) -> NoDup (Dict.keys (Dict.del k d)).
Proof.
  intros H. eapply sublist_NoDup; [exact H|].
  unfold Dict.keys. apply (fmap_sublist fst), dict_del_sublist.
Qed.

Lemma NoDup_keys_set {V} k (v : V) (d : list (pystr * V)) :
  NoDup (Dict.keys d) -> NoDup (Dict.keys (Dict.set k v d)).
Proof.
  intros H. rewrite dict_keys_set.
  destruct (Dict.get k d) eqn:Hg; [exact H|].
  apply NoDup_app. split; [exact H|]. split; [|apply NoDup_singleton].
  intros x Hx ->%list_elem_of_singleton.
  apply dict_get_None_keys in Hg. apply Hg. now apply list_elem_of_In.
Qed.

(** X1: [delete] on a name of the book removes that entry and nothing else:
    the name is then not found, every other name refers to what it did,
    the other names keep their order, and no record is touched.  On a
    name that is not in the book it returns "Contact not found." and
    changes nothing. *)
Theorem delete_removes_exactly_that_name :
  forall (w : world) (name : pystr),
    NoDup (Dict.keys (data w)) ->
    (Dict.get name (data w) = None ->
     AddressBook.delete name w = (Ok (lit "Contact not found."), w))
    /\ (is_Some (Dict.get name (data w)) ->
        exists w',
          AddressBook.delete name w
          = (Ok (lit "Record for " ++ name ++ lit " deleted."), w')
          /\ heap w' = heap w
          /\ AddressBook.find name w'
             = (Ok (inr (lit "Contact not found.")), w')
          /\ (forall other, other <> name ->
                Dict.get other (data w') = Dict.get other (data w))
          /\ Dict.keys (data w')
             = List.filter (fun k => negb (bool_decide (k = name)))
                 (Dict.keys (data w))).
Proof.
  intros w name Hnd. unfold AddressBook.delete. split.
  - now intros ->.
  - intros [l Hl]. rewrite Hl. eexists. split; [reflexivity|].
    cbn [heap data]. split; [reflexivity|]. split; [|split].
    + apply find_absent. cbn [data]. now apply dict_get_del_eq.
    + intros other Hne. apply dict_get_del_ne. congruence.
    + now apply dict_keys_del.
Qed.

Lemma delete_removes_exactly_that_name_witness :
  NoDup (Dict.keys (data alice_and_bob))
  /\ is_Some (Dict.get (lit "Alice") (data alice_and_bob))
  /\ exists w',
      AddressBook.delete (lit "Alice") alice_and_bob
      = (Ok (lit "Record for Alice deleted."), w')
      /\ heap w' = heap alice_and_bob
      /\ AddressBook.find (lit "Alice") w'
         = (Ok (inr (lit "Contact not found.")), w')
      /\ (forall other, other <> lit "Alice" ->
            Dict.get other (data w') = Dict.get other (data alice_and_bob))
      /\ Dict.keys (data w')
         = List.filter (fun k => negb (bool_decide (k = lit "Alice")))
             (Dict.keys (data alice_and_bob)).
Proof.
  assert (Hnd : NoDup (Dict.keys (data alice_and_bob))).
  { apply (bool_decide_unpack _). vm_compute. exact I. }
  split; [exact Hnd|]. split; [eexists; reflexivity|].
  apply (delete_removes_exactly_that_name alice_and_bob (lit "Alice") Hnd).
  eexists; reflexivity.
Defined.

(** X2: [add_record] puts the record under its own name: a new name goes
    after all the others, a name already in the book keeps its place and
    now refers to this record; every other name refers to what it did,
    the names stay distinct, and no record is touched. *)
Theorem add_record_overwrites_in_place :
  forall (w : world) (record : loc) (r : Record.t),
    heap w !! record = Some r ->
    exists msg w',
      AddressBook.add_record record w = (Ok msg, w')
      /\ heap w' = heap w
      /\ Dict.get (value (Record.name r)) (data w') = Some record
      /\ Dict.keys (data w')
         = match Dict.get (value (Record.name r)) (data w) with
           | Some _ => Dict.keys (data w)
           | None => Dict.keys (data w) ++ [value (Record.name r)]
           end
      /\ (forall other, other <> value (Record.name r) ->
            Dict.get other (data w') = Dict.get other (data w))
      /\ (NoDup (Dict.keys (data w)) -> NoDup (Dict.keys (data w'))).
Proof.
  intros w record r Hr. rewrite (add_record_spec _ _ _ Hr).
  eexists _, _. split; [reflexivity|]. cbn [heap data].
  split; [reflexivity|]. split; [apply dict_get_set_eq|].
  split; [apply dict_keys_set|]. split.
  - intros other Hne. apply dict_get_set_ne. congruence.
  - apply NoDup_keys_set.
Qed.

Lemma add_record_overwrites_in_place_witness :
  heap alice_and_bob !! 2%positive = Some bob
  /\ exists msg w',
      AddressBook.add_record 2%positive alice_and_bob = (Ok msg, w')
      /\ heap w' = heap alice_and_bob
      /\ Dict.get (lit "Bob") (data w') = Some 2%positive
      /\ Dict.keys (data w') = [lit "Alice"; lit "Bob"]
      /\ (forall other, other <> lit "Bob" ->
            Dict.get other (data w') = Dict.get other (data alice_and_bob))
      /\ (NoDup (Dict.keys (data alice_and_bob)) ->
          NoDup (Dict.keys (data w'))).
Proof.
  split; [reflexivity|].
  apply (add_record_overwrites_in_place alice_and_bob 2%positive bob).
  reflexivity.
Defined.

(** X3: Deleting a name right after [add_record] put a new record under it
    gives the book back as it was. *)
Theorem delete_after_add_record_restores :
  forall (w : world) (record : loc) (r : Record.t),
    heap w !! record = Some r ->
    Dict.get (value (Record.name r)) (data w) = None ->
    exists msg w',
      AddressBook.add_record record w = (Ok msg, w')
      /\ AddressBook.delete (value (Record.name r)) w'
         = (Ok (lit "Record for " ++ value (Record.name r)
                  ++ lit " deleted."), w).
Proof.
  intros w record r Hr Hnew. rewrite (add_record_spec _ _ _ Hr).
  eexists _, _. split; [reflexivity|].
  unfold AddressBook.delete. cbn [data heap].
  rewrite dict_get_set_eq, (dict_del_set_new _ _ _ Hnew). now destruct w.
Qed.

Lemma delete_after_add_record_restores_witness :
  let w := {| heap := {[ 1%positive := Record.init (lit "Alice") ]};
              data := [] |} in
  heap w !! 1%positive = Some (Record.init (lit "Alice"))
  /\ Dict.get (lit "Alice") (data w) = None
  /\ exists msg w',
      AddressBook.add_record 1%positive w = (Ok msg, w')
      /\ AddressBook.delete (lit "Alice") w'
         = (Ok (lit "Record for Alice deleted."), w).
Proof.
  intros w. split; [reflexivity|]. split; [reflexivity|].
  apply (delete_after_add_record_restores w 1%positive
           (Record.init (lit "Alice"))); reflexivity.
Defined.

(* ===================================================================== *)
(** * More on the phones of a record *)
(* ===================================================================== *)

Lemma first_with_value_Some p (l : list Phone.t) i :
  Record.first_with_value p l = Some i ->
  exists pre x post,
    l = pre ++ x :: post /\ length pre = i /\ value x = p
    /\ Forall (fun y : Phone.t => value y <> p) pre.
Proof.
  revert i. induction l as [|y l IH]; intros i; simpl; [discriminate|].
  destruct (decide (value y = p)) as [Hy|Hy].
  - intros [= <-]. exists [], y, l. auto.
  - destruct (Record.first_with_value p l) as [j|]; [|discriminate].
    intros [= <-]. destruct (IH j eq_refl) as (pre & x & post & -> & <- & ? & ?).
    exists (y :: pre), x, post. repeat split; auto.
Qed.

Lemma first_with_value_None_iff p (l : list Phone.t) :
  Record.first_with_value p l = None <->
  Forall (fun y : Phone.t => value y <> p) l.
Proof.
  split; [|apply first_with_value_none].
  induction l as [|y l IH]; simpl; [constructor|].
  destruct (decide (value y = p)); [discriminate|].
  destruct (Record.first_with_value p l); [discriminate|].
  intros _. constructor; auto.
Qed.

(** [add_phone] is all or nothing: a string the constructor [Phone]
    accepts is added after the phones the record has, and any other
    string raises the error of the constructor and leaves the record as
    it was. *)
Lemma add_phone_appends_or_leaves_unchanged :
  forall (self : Record.t) (p : pystr),
    Record.add_phone p self
    = if ten_decimal_digits p then
        (Ok tt, {| Record.name := Record.name self;
                   Record.phones := Record.phones self ++ [mkField p];
                   Record.birthday := Record.birthday self |})
      else
        (Raise (ValueError
                  (lit "Phone number must contain exactly 10 digits.")),
         self).
Proof.
  intros self p. unfold Record.add_phone. rewrite Phone_init_spec.
  now destruct (ten_decimal_digits p).
Qed.

(** X4: The phones of a record stay valid under [add_phone] and
    [remove_phone], and under [edit_phone] when the new value is valid;
    [edit_phone] checks nothing, so a new value the constructor [Phone]
    rejects ends up among the phones whenever the old value is there. *)
Theorem phones_validity_kept_except_by_edit :
  forall (self : Record.t) (p new : pystr),
    phones_valid self ->
    phones_valid (snd (Record.add_phone p self))
    /\ phones_valid (snd (Record.remove_phone p self))
    /\ (ten_decimal_digits new = true ->
        phones_valid (snd (Record.edit_phone p new self)))
    /\ (ten_decimal_digits new = false ->
        In p (List.map value (Record.phones self)) ->
        In new (List.map value
                  (Record.phones (snd (Record.edit_phone p new self))))
        /\ ~ phones_valid (snd (Record.edit_phone p new self))).
Proof.
  intros self p new Hv. unfold phones_valid in *. split; [|split; [|split]].
  - rewrite add_phone_appends_or_leaves_unchanged.
    destruct (ten_decimal_digits p) eqn:Hp; cbn [snd Record.phones];
      [|exact Hv].
    apply Forall_app. split; [exact Hv|]. now constructor.
  - unfold Record.remove_phone.
    destruct (Record.first_with_value p (Record.phones self)) as [i|] eqn:Hi;
      cbn [snd Record.phones]; [|exact Hv].
    apply first_with_value_Some in Hi as (pre & x & post & Hl & <- & _ & _).
    rewrite Hl in *. rewrite delete_middle.
    apply Forall_app in Hv as [Hpre Hpost].
    apply Forall_cons in Hpost as [_ Hpost].
    apply Forall_app. auto.
  - intros Hnew. unfold Record.edit_phone.
    destruct (Record.first_with_value p (Record.phones self)) as [i|] eqn:Hi;
      cbn [snd Record.phones]; [|exact Hv].
    apply first_with_value_Some in Hi as (pre & x & post & Hl & <- & _ & _).
    rewrite Hl in *.
    replace (length pre) with (length pre + 0)%nat by lia.
    rewrite insert_app_r. cbn.
    apply Forall_app in Hv as [Hpre Hpost].
    apply Forall_cons in Hpost as [_ Hpost].
    apply Forall_app. split; [exact Hpre|]. now constructor.
  - intros Hnew Hin. unfold Record.edit_phone.
    destruct (Record.first_with_value p (Record.phones self)) as [i|] eqn:Hi.
    + cbn [snd Record.phones].
      apply first_with_value_Some in Hi as (pre & x & post & Hl & <- & _ & _).
      rewrite Hl.
      replace (length pre) with (length pre + 0)%nat by lia.
      rewrite insert_app_r. cbn. split.
      * rewrite List.map_app. apply in_or_app. right. now left.
      * intros [_ Hbad]%Forall_app.
        apply Forall_cons in Hbad as [Hbad _]. cbn in Hbad. congruence.
    + exfalso. apply first_with_value_None_iff in Hi.
      apply in_map_iff in Hin as (x & Hx & Hin).
      rewrite Forall_forall in Hi. apply (Hi x); [|exact Hx].
      now apply list_elem_of_In.
Qed.

Lemma phones_validity_kept_except_by_edit_witness :
  let self := {| Record.name := Name.init (lit "Alice");
                 Record.phones := [mkField (lit "0123456789")];
                 Record.birthday := None |} in
  phones_valid self
  /\ ten_decimal_digits (lit "abc") = false
  /\ In (lit "0123456789") (List.map value (Record.phones self))
  /\ In (lit "abc")
       (List.map value
          (Record.phones
             (snd (Record.edit_phone (lit "0123456789") (lit "abc") self))))
  /\ ~ phones_valid
         (snd (Record.edit_phone (lit "0123456789") (lit "abc") self)).
Proof.
  intros self.
  assert (Hv : phones_valid self).
  { unfold phones_valid. simpl. repeat constructor. }
  split; [exact Hv|]. split; [reflexivity|]. split; [simpl; auto|].
  apply (phones_validity_kept_except_by_edit self (lit "0123456789")
           (lit "abc") Hv); [reflexivity|simpl; auto].
Defined.

(** X5: Removing a phone right after adding it: when the record did not have
    that phone, it is back as it was; when it had it, the earlier one is
    removed and the new one stays, at the end. *)
Theorem remove_after_add_phone :
  forall (self : Record.t) (p : pystr),
    ten_decimal_digits p = true ->
    (~ In p (List.map value (Record.phones self)) ->
     Record.remove_phone p (snd (Record.add_phone p self))
     = (Ok (lit "Phone " ++ p ++ lit " removed."), self))
    /\ (forall pre x post,
          Record.phones self = pre ++ x :: post ->
          Forall (fun y : Phone.t => value y <> p) pre ->
          value x = p ->
          Record.remove_phone p (snd (Record.add_phone p self))
          = (Ok (lit "Phone " ++ p ++ lit " removed."),
             {| Record.name := Record.name self;
                Record.phones := pre ++ post ++ [mkField p];
                Record.birthday := Record.birthday self |})).
Proof.
  intros self p Hp. rewrite add_phone_appends_or_leaves_unchanged, Hp.
  cbn [snd]. unfold Record.remove_phone. cbn [Record.phones]. split.
  - intros Hnot.
    rewrite (first_with_value_middle p (Record.phones self) (mkField p) []).
    + rewrite delete_middle, app_nil_r. now destruct self.
    + apply Forall_forall. intros y Hy Heq. apply Hnot.
      apply in_map_iff. exists y. split; [exact Heq|].
      now apply list_elem_of_In.
    + reflexivity.
  - intros pre x post Hl Hpre Hx. rewrite Hl, <- app_assoc. cbn [app].
    pose proof (first_with_value_middle p pre x (post ++ [mkField p])
                  Hpre Hx) as E.
    unfold Phone.t in *. rewrite E. now rewrite delete_middle.
Qed.

Lemma remove_after_add_phone_witness :
  let self := {| Record.name := Name.init (lit "Alice");
                 Record.phones := [mkField (lit "0123456789")];
                 Record.birthday := None |} in
  ten_decimal_digits (lit "1111111111") = true
  /\ ~ In (lit "1111111111") (List.map value (Record.phones self))
  /\ Record.remove_phone (lit "1111111111")
       (snd (Record.add_phone (lit "1111111111") self))
     = (Ok (lit "Phone 1111111111 removed."), self).
Proof.
  intros self. split; [reflexivity|].
  assert (Hnot : ~ In (lit "1111111111")
                     (List.map value (Record.phones self))).
  { simpl. intros [H|[]]. discriminate H. }
  split; [exact Hnot|].
  apply (remove_after_add_phone self (lit "1111111111")); [reflexivity|].
  exact Hnot.
Defined.

(* ===================================================================== *)
(** * More on the days to the next birthday *)
(* ===================================================================== *)

Lemma leap_years_not_consecutive y :
  Datetime.is_leap y = true -> Datetime.is_leap (y + 1) = false.
Proof.
  unfold Datetime.is_leap. intros [H _]%andb_true_iff.
  apply Z.eqb_eq in H. apply andb_false_iff. left.
  apply Z.eqb_neq. Z.div_mod_to_equations. lia.
Qed.

Lemma ordinal_difference_next_year_365 y m d m' d' :
  real_date y m d = true -> real_date (y + 1) m' d' = true ->
  (m' <? m) || ((m' =? m) && (d' <? d)) = true ->
  0 <= Datetime.ymd2ord (y + 1) m' d' - Datetime.ymd2ord y m d <= 365.
Proof.
  intros (Hy & Hm & Hd)%real_date_bounds (_ & Hm' & Hd')%real_date_bounds Hlt.
  assert (m' < m \/ (m' = m /\ d' < d)).
  { apply orb_true_iff in Hlt
      as [?%Z.ltb_lt|[?%Z.eqb_eq ?%Z.ltb_lt]%andb_true_iff]; auto. }
  clear Hlt.
  pose proof (leap_years_not_consecutive y) as Hleap.
  unfold Datetime.ymd2ord. rewrite days_before_year_succ.
  unfold Datetime.days_before_month, Datetime.days_in_month in *.
  destruct (Datetime.is_leap y), (Datetime.is_leap (y + 1));
    try (specialize (Hleap eq_refl); discriminate Hleap); clear Hleap;
    month_cases m; month_cases m';
    cbn [Z.eqb Z.ltb Z.compare Pos.eqb Pos.compare Pos.compare_cont andb
         Datetime.DAYS_IN_MONTH Datetime.DAYS_BEFORE_MONTH] in *;
    lia.
Qed.

(** X6: Whenever the occurrence of the birthday's month and day exists in
    this year and, if that one is before today, in the next year too,
    [days_to_birthday] returns the number of days from today to the next
    occurrence, a number from 0 to 365. *)
Theorem days_to_birthday_counts_to_next_occurrence :
  forall (today : Datetime.date) (self : Record.t) (b : Birthday.t),
    Record.birthday self = Some b ->
    is_real today = true ->
    real_date (Datetime.year today) (Datetime.month (value b))
      (Datetime.day (value b)) = true ->
    is_real (next_occurrence today (value b)) = true ->
    Record.days_to_birthday today self
    = Ok (Some (Datetime.sub_days (next_occurrence today (value b)) today))
    /\ 0 <= Datetime.sub_days (next_occurrence today (value b)) today <= 365.
Proof.
  intros [yt mt dt] self [[yb mb db]] Hb Hrt Hthis Hnext.
  unfold Record.days_to_birthday. rewrite Hb.
  unfold is_real, next_occurrence, Datetime.replace_year in *.
  cbn [value Datetime.year Datetime.month Datetime.day] in *.
  rewrite (date_new_real _ _ _ Hthis).
  rewrite date_lt_same_year in *.
  cbn [Datetime.year Datetime.month Datetime.day] in *.
  destruct ((mb <? mt) || ((mb =? mt) && (db <? dt))) eqn:Hlt;
    cbn [Datetime.year Datetime.month Datetime.day] in *.
  - rewrite (date_new_real _ _ _ Hnext). split; [reflexivity|].
    unfold Datetime.sub_days, Datetime.toordinal.
    cbn [Datetime.year Datetime.month Datetime.day].
    now apply ordinal_difference_next_year_365.
  - split; [reflexivity|].
    unfold Datetime.sub_days, Datetime.toordinal.
    cbn [Datetime.year Datetime.month Datetime.day].
    now apply ordinal_difference_this_year.
Qed.

Lemma days_to_birthday_counts_to_next_occurrence_witness :
  let today := Datetime.mkdate 2024 12 30 in
  Record.birthday alice = Some (mkField (Datetime.mkdate 1990 3 2))
  /\ is_real today = true
  /\ real_date 2024 3 2 = true
  /\ is_real (next_occurrence today (Datetime.mkdate 1990 3 2)) = true
  /\ Record.days_to_birthday today alice = Ok (Some 62)
  /\ 0 <= 62 <= 365.
Proof.
  intros today. split; [reflexivity|]. split; [reflexivity|].
  split; [reflexivity|]. split; [reflexivity|].
  apply (days_to_birthday_counts_to_next_occurrence today alice
           (mkField (Datetime.mkdate 1990 3 2)));
    reflexivity.
Defined.

(** X7: For a birthday on the 29th of February, [days_to_birthday] returns a
    day count only when this year is a leap year and the 29th of February
    is not past; the count is then at most 59.  On every other day it
    raises [ValueError]. *)
Theorem days_to_birthday_29_february :
  forall (today : Datetime.date) (self : Record.t) (b : Birthday.t),
    Record.birthday self = Some b ->
    is_feb_29 (value b) = true ->
    is_real today = true ->
    let this_year := Datetime.mkdate (Datetime.year today) 2 29 in
    Record.days_to_birthday today self
    = (if Datetime.is_leap (Datetime.year today)
          && negb (Datetime.date_lt this_year today)
       then Ok (Some (Datetime.sub_days this_year today))
       else Raise (ValueError (lit "day is out of range for month")))
    /\ (Datetime.is_leap (Datetime.year today)
        && negb (Datetime.date_lt this_year today) = true ->
        0 <= Datetime.sub_days this_year today <= 59).
Proof.
  intros [yt mt dt] self [[yb mb db]] Hb Hfeb Hrt.
  unfold is_feb_29 in Hfeb. cbn [value Datetime.month Datetime.day] in Hfeb.
  apply andb_true_iff in Hfeb as [->%Z.eqb_eq ->%Z.eqb_eq].
  unfold Record.days_to_birthday. rewrite Hb.
  unfold is_real, Datetime.replace_year in *.
  cbn [value Datetime.year Datetime.month Datetime.day] in *.
  pose proof (real_date_bounds _ _ _ Hrt) as (Hyt & Hmt & Hdt).
  cbv zeta. destruct (Datetime.is_leap yt) eqn:Hleap; cbn [andb].
  - assert (Hthis : real_date yt 2 29 = true).
    { apply real_date_intro; try lia.
      unfold Datetime.days_in_month. rewrite Hleap. simpl. lia. }
    rewrite (date_new_real _ _ _ Hthis).
    destruct (Datetime.date_lt (Datetime.mkdate yt 2 29)
                (Datetime.mkdate yt mt dt)) eqn:Hlt; cbn [negb].
    + split; [|discriminate].
      cbn [Datetime.year Datetime.month Datetime.day].
      unfold Datetime.date_new, Datetime.MINYEAR, Datetime.MAXYEAR.
      assert (yt <> 9999).
      { intros ->. vm_compute in Hleap. discriminate. }
      rewrite !(proj2 (Z.ltb_ge _ _)) by lia. cbn [orb].
      unfold Datetime.days_in_month.
      rewrite (leap_years_not_consecutive _ Hleap). reflexivity.
    + split; [reflexivity|]. intros _.
      unfold Datetime.sub_days, Datetime.toordinal.
      cbn [Datetime.year Datetime.month Datetime.day].
      rewrite date_lt_same_year in Hlt.
      pose proof (ordinal_difference_this_year yt mt dt 2 29 Hrt Hthis Hlt).
      apply orb_false_iff in Hlt as [H1%Z.ltb_ge H2].
      unfold Datetime.ymd2ord, Datetime.days_before_month,
        Datetime.days_in_month in *.
      rewrite Hleap in *.
      assert (mt = 1 \/ mt = 2) as [-> | ->] by lia;
        cbn [Z.eqb Z.ltb Z.compare Pos.eqb Pos.compare Pos.compare_cont andb
             Datetime.DAYS_BEFORE_MONTH Datetime.DAYS_IN_MONTH] in *; lia.
  - split; [|discriminate].
    unfold Datetime.date_new, Datetime.MINYEAR, Datetime.MAXYEAR.
    rewrite !(proj2 (Z.ltb_ge _ _)) by lia. cbn [orb].
    unfold Datetime.days_in_month. rewrite Hleap. reflexivity.
Qed.

Lemma days_to_birthday_29_february_witness :
  let today := Datetime.mkdate 2024 1 31 in
  Record.birthday bob = Some (mkField (Datetime.mkdate 2000 2 29))
  /\ is_feb_29 (Datetime.mkdate 2000 2 29) = true
  /\ is_real today = true
  /\ Record.days_to_birthday today bob = Ok (Some 29)
  /\ (true = true -> 0 <= 29 <= 59).
Proof.
  intros today. split; [reflexivity|]. split; [reflexivity|].
  split; [reflexivity|].
  apply (days_to_birthday_29_february today bob
           (mkField (Datetime.mkdate 2000 2 29)));
    reflexivity.
Defined.

(** X8: On the birthday itself the day count is 0, the 29th of February of a
    leap year included. *)
Theorem days_to_birthday_on_the_day_is_zero :
  forall (today : Datetime.date) (self : Record.t) (b : Birthday.t),
    Record.birthday self = Some b ->
    is_real today = true ->
    Datetime.month (value b) = Datetime.month today ->
    Datetime.day (value b) = Datetime.day today ->
    Record.days_to_birthday today self = Ok (Some 0).
Proof.
  intros [yt mt dt] self [[yb mb db]] Hb Hrt Hm Hd.
  cbn [value Datetime.month Datetime.day] in Hm, Hd. subst mb db.
  unfold Record.days_to_birthday. rewrite Hb.
  unfold is_real, Datetime.replace_year in *.
  cbn [value Datetime.year Datetime.month Datetime.day] in *.
  rewrite (date_new_real _ _ _ Hrt), date_lt_same_year.
  rewrite Z.ltb_irrefl, Z.eqb_refl, Z.ltb_irrefl. cbn [andb orb].
  unfold Datetime.sub_days. now rewrite Z.sub_diag.
Qed.

Lemma days_to_birthday_on_the_day_is_zero_witness :
  let today := Datetime.mkdate 2024 2 29 in
  Record.birthday bob = Some (mkField (Datetime.mkdate 2000 2 29))
  /\ is_real today = true
  /\ Record.days_to_birthday today bob = Ok (Some 0).
Proof.
  intros today. split; [reflexivity|]. split; [reflexivity|].
  apply (days_to_birthday_on_the_day_is_zero today bob
           (mkField (Datetime.mkdate 2000 2 29)));
    reflexivity.
Defined.

(* ===================================================================== *)
(** * Ordinals and dates *)
(* ===================================================================== *)

Lemma is_leap_period y : Datetime.is_leap (y + 400) = Datetime.is_leap y.
Proof.
  unfold Datetime.is_leap.
  replace ((y + 400) mod 4) with (y mod 4)
    by (Z.div_mod_to_equations; lia).
  replace ((y + 400) mod 100) with (y mod 100)
    by (Z.div_mod_to_equations; lia).
  replace ((y + 400) mod 400) with (y mod 400)
    by (Z.div_mod_to_equations; lia).
  reflexivity.
Qed.

Lemma days_before_year_period y :
  Datetime.days_before_year (y + 400) = Datetime.days_before_year y + 146097.
Proof.
  unfold Datetime.days_before_year. cbv zeta.
  Z.div_mod_to_equations. lia.
Qed.

Lemma ymd2ord_period y m d :
  Datetime.ymd2ord (y + 400) m d = Datetime.ymd2ord y m d + 146097.
Proof.
  unfold Datetime.ymd2ord, Datetime.days_before_month.
  rewrite days_before_year_period, is_leap_period. lia.
Qed.

Lemma real_date_period y m d :
  1 <= y -> real_date (y + 400) m d = true ->
  y + 400 <= 9999 /\ real_date y m d = true.
Proof.
  intros Hy (Hy' & Hm & Hd)%real_date_bounds. split; [lia|].
  apply real_date_intro; try lia.
  unfold Datetime.days_in_month in *. now rewrite is_leap_period in Hd.
Qed.

Lemma ord2ymd_period n :
  Datetime.ord2ymd (n + 146097)
  = let '(y, m, d) := Datetime.ord2ymd n in (y + 400, m, d).
Proof.
  unfold Datetime.ord2ymd, Datetime.DI400Y. cbv zeta.
  replace (n + 146097 - 1) with (n - 1 + 1 * 146097) by lia.
  rewrite Z.div_add, Z.mod_add by lia.
  set (r := (n - 1) mod 146097).
  set (q := (n - 1) / 146097).
  destruct ((r mod Datetime.DI100Y mod Datetime.DI4Y / 365 =? 4)
            || (r / Datetime.DI100Y =? 4)).
  - f_equal. f_equal. lia.
  - match goal with
    | |- context [if ?c then _ else _] => destruct c
    end; f_equal; f_equal; lia.
Qed.

Lemma ordinals_of_cycle_checked :
  forallb (fun y => forallb (fun m => forallb (check_ordinal y m)
     (seqZ 1 31)) (seqZ 1 12)) (seqZ 1 400) = true.
Proof. vm_compute. reflexivity. Qed.

Lemma ord2ymd_ymd2ord_cycle y m d :
  1 <= y <= 400 -> real_date y m d = true ->
  Datetime.ord2ymd (Datetime.ymd2ord y m d) = (y, m, d).
Proof.
  intros Hy Hr. pose proof (real_date_bounds _ _ _ Hr) as (_ & Hm & Hd).
  pose proof (days_in_month_le_31 y m).
  pose proof ordinals_of_cycle_checked as H0.
  rewrite forallb_forall in H0.
  assert (Hy' : In y (seqZ 1 400))
    by (apply list_elem_of_In, elem_of_seqZ; lia).
  specialize (H0 y Hy'). rewrite forallb_forall in H0.
  assert (Hm' : In m (seqZ 1 12))
    by (apply list_elem_of_In, elem_of_seqZ; lia).
  specialize (H0 m Hm'). rewrite forallb_forall in H0.
  assert (Hd' : In d (seqZ 1 31))
    by (apply list_elem_of_In, elem_of_seqZ; lia).
  specialize (H0 d Hd'). unfold check_ordinal in H0.
  rewrite Hr in H0. cbn [negb orb] in H0.
  now apply bool_decide_eq_true_1 in H0.
Qed.

Lemma ord2ymd_ymd2ord_steps (k : nat) :
  forall y m d,
    1 <= y <= 400 -> real_date (y + 400 * Z.of_nat k) m d = true ->
    Datetime.ord2ymd (Datetime.ymd2ord (y + 400 * Z.of_nat k) m d)
    = (y + 400 * Z.of_nat k, m, d).
Proof.
  induction k as [|k IH]; intros y m d Hy Hr.
  - replace (y + 400 * Z.of_nat 0) with y in * by lia.
    now apply ord2ymd_ymd2ord_cycle.
  - replace (y + 400 * Z.of_nat (S k)) with (y + 400 * Z.of_nat k + 400)
      in * by lia.
    apply real_date_period in Hr as [_ Hr]; [|lia].
    rewrite ymd2ord_period, ord2ymd_period. now rewrite IH.
Qed.

(** The ordinal of a date of the calendar is turned back into it. *)
Lemma fromordinal_toordinal d :
  is_real d = true -> Datetime.fromordinal (Datetime.toordinal d) = d.
Proof.
  destruct d as [y m d]. unfold is_real, Datetime.fromordinal,
    Datetime.toordinal.
  cbn [Datetime.year Datetime.month Datetime.day]. intros Hr.
  pose proof (real_date_bounds _ _ _ Hr) as (Hy & _ & _).
  set (k := (y - 1) / 400).
  assert (Hk : y = (y - 400 * k) + 400 * Z.of_nat (Z.to_nat k)).
  { subst k. rewrite Z2Nat.id; [lia|]. Z.div_mod_to_equations. lia. }
  assert (H0 : 1 <= y - 400 * k <= 400).
  { subst k. Z.div_mod_to_equations. lia. }
  rewrite Hk in Hr |- *.
  now rewrite (ord2ymd_ymd2ord_steps _ _ _ _ H0 Hr).
Qed.

Lemma days_before_year_monotone y y' :
  1 <= y <= y' ->
  Datetime.days_before_year y <= Datetime.days_before_year y'.
Proof.
  intros H. unfold Datetime.days_before_year. cbv zeta.
  Z.div_mod_to_equations. lia.
Qed.

Lemma toordinal_bounds d :
  is_real d = true -> 1 <= Datetime.toordinal d <= Datetime.MAXORDINAL.
Proof.
  destruct d as [y m d]. unfold is_real, Datetime.toordinal.
  cbn [Datetime.year Datetime.month Datetime.day].
  intros (Hy & Hm & Hd)%real_date_bounds.
  pose proof (days_before_year_monotone 1 y ltac:(lia)) as Hlo.
  pose proof (days_before_year_monotone (y + 1) 10000 ltac:(lia)) as Hhi.
  rewrite days_before_year_succ in Hhi.
  change (Datetime.days_before_year 1) with 0 in Hlo.
  change (Datetime.days_before_year 10000) with 3652059 in Hhi.
  unfold Datetime.MAXORDINAL, Datetime.ymd2ord, Datetime.days_before_month,
    Datetime.days_in_month in *.
  destruct (Datetime.is_leap y); month_cases m;
    cbn [Z.eqb Z.ltb Z.compare Pos.eqb Pos.compare Pos.compare_cont andb
         Datetime.DAYS_IN_MONTH Datetime.DAYS_BEFORE_MONTH] in *;
    lia.
Qed.

(** A birthday the constructor accepted is a date of the calendar. *)
Lemma Birthday_init_real s b :
  Birthday.init s = Ok b -> is_real (value b) = true.
Proof.
  unfold Birthday.init.
  destruct (Datetime.strptime s (lit "%d.%m.%Y")) as [dt|] eqn:Hs;
    [|discriminate].
  intros [= <-]. apply strptime_dmY in Hs
    as (? & ? & ? & y & m & d & _ & _ & _ & _ & _ & _ & _
        & [Hr ->]%date_new_Ok_iff).
  exact Hr.
Qed.

Lemma date_new_Ok_real y m d dt :
  Datetime.date_new y m d = Ok dt -> is_real dt = true.
Proof. intros [Hr ->]%date_new_Ok_iff. exact Hr. Qed.

(** What [days_to_birthday] returns when it returns a number. *)
Lemma days_to_birthday_Some today self n :
  Record.days_to_birthday today self = Ok (Some n) ->
  exists b,
    Record.birthday self = Some b
    /\ is_real (next_occurrence today (value b)) = true
    /\ n = Datetime.sub_days (next_occurrence today (value b)) today.
Proof.
  unfold Record.days_to_birthday.
  destruct (Record.birthday self) as [b|]; [|discriminate].
  intros H. exists b. split; [reflexivity|]. revert H.
  destruct b as [[yb mb db]]. destruct today as [yt mt dt].
  unfold Datetime.replace_year, next_occurrence, is_real.
  cbn [value Datetime.year Datetime.month Datetime.day].
  destruct (Datetime.date_new yt mb db) as [nb|] eqn:H1; [|discriminate].
  pose proof H1 as [Hr1 ->]%date_new_Ok_iff.
  cbn [Datetime.year Datetime.month Datetime.day].
  destruct (Datetime.date_lt _ _).
  - destruct (Datetime.date_new (yt + 1) mb db) as [nb'|] eqn:H2;
      [|discriminate].
    pose proof H2 as [Hr2 ->]%date_new_Ok_iff.
    intros [= <-]. cbn [Datetime.year Datetime.month Datetime.day]. auto.
  - intros [= <-]. cbn [Datetime.year Datetime.month Datetime.day]. auto.
Qed.

Lemma add_days_to_next_occurrence today self b n :
  is_real today = true ->
  Record.birthday self = Some b ->
  Record.days_to_birthday today self = Ok (Some n) ->
  Datetime.add_days today n = Ok (next_occurrence today (value b)).
Proof.
  intros Hrt Hb Hn.
  apply days_to_birthday_Some in Hn as (b' & Hb' & Hreal & ->).
  rewrite Hb in Hb'. injection Hb' as <-.
  unfold Datetime.add_days, Datetime.sub_days.
  replace (Datetime.toordinal today +
           (Datetime.toordinal (next_occurrence today (value b))
            - Datetime.toordinal today))
    with (Datetime.toordinal (next_occurrence today (value b))) by lia.
  pose proof (toordinal_bounds _ Hreal) as [Hlo Hhi].
  rewrite (proj2 (Z.ltb_lt _ _)) by lia.
  rewrite (proj2 (Z.leb_le _ _)) by lia.
  cbn [andb]. now rewrite fromordinal_toordinal.
Qed.

(** X9: Whenever [days_to_birthday] returns a number, today plus that many
    days is the next occurrence of the birthday: the day and the month of
    the birthday, in this year or the next. *)
Theorem today_plus_days_to_birthday_is_next_occurrence :
  forall (today : Datetime.date) (self : Record.t) (b : Birthday.t)
         (n : Z),
    is_real today = true ->
    Record.birthday self = Some b ->
    Record.days_to_birthday today self = Ok (Some n) ->
    Datetime.add_days today n = Ok (next_occurrence today (value b))
    /\ Datetime.month (next_occurrence today (value b))
       = Datetime.month (value b)
    /\ Datetime.day (next_occurrence today (value b))
       = Datetime.day (value b)
    /\ (Datetime.year (next_occurrence today (value b))
        = Datetime.year today
        \/ Datetime.year (next_occurrence today (value b))
           = Datetime.year today + 1).
Proof.
  intros today self b n Hrt Hb Hn. split.
  - now apply (add_days_to_next_occurrence today self).
  - unfold next_occurrence.
    destruct (Datetime.date_lt _ _);
      cbn [Datetime.year Datetime.month Datetime.day]; auto.
Qed.

Lemma today_plus_days_to_birthday_is_next_occurrence_witness :
  let today := Datetime.mkdate 2024 12 30 in
  is_real today = true
  /\ Record.birthday alice = Some (mkField (Datetime.mkdate 1990 3 2))
  /\ Record.days_to_birthday today alice = Ok (Some 62)
  /\ Datetime.add_days today 62 = Ok (Datetime.mkdate 2025 3 2).
Proof.
  intros today. split; [reflexivity|]. split; [reflexivity|].
  split; [reflexivity|].
  apply (today_plus_days_to_birthday_is_next_occurrence today alice
           (mkField (Datetime.mkdate 1990 3 2)) 62);
    reflexivity.
Defined.

(* ===================================================================== *)
(** * More on the upcoming birthdays *)
(* ===================================================================== *)

Lemma entry_ok_lookup w k l :
  book_ok w -> In (k, l) (data w) -> entry_ok w (k, l).
Proof.
  intros (_ & _ & Hall) Hin. rewrite Forall_forall in Hall.
  apply Hall. now apply list_elem_of_In.
Qed.

(** A record whose birthday is a date of the calendar and not the 29th
    of February goes through the loop, and its element is [entry_of]. *)
Lemma upcoming_entry_without_29_february pad today r :
  is_real today = true -> Datetime.year today < 9999 ->
  (forall b, Record.birthday r = Some b -> is_real (value b) = true) ->
  born_29_february r = false ->
  passes today r = true
  /\ upcoming_entry pad today r = entry_of pad today r.
Proof.
  intros Hrt Hy Hreal Hfeb.
  unfold passes, upcoming_entry, entry_of, born_29_february in *.
  destruct (Record.birthday r) as [b|] eqn:Hb; [|auto].
  specialize (Hreal b eq_refl).
  destruct (days_to_birthday_in_range today r b Hb Hreal Hrt Hfeb Hy)
    as (n & Hn & -> & Hrange).
  rewrite Hn.
  rewrite (add_days_to_next_occurrence today r b _ Hrt Hb Hn). cbv zeta.
  rewrite (proj2 (Z.leb_le 0 _)) by lia. cbn [andb is_ok].
  split; [now rewrite orb_true_r|].
  now destruct (_ <=? 7).
Qed.

Lemma omap_ext_Forall {A B} (f g : A -> option B) (l : list A) :
  Forall (fun x => f x = g x) l -> omap f l = omap g l.
Proof.
  induction 1 as [|x l Hx _ IH]; [reflexivity|].
  cbn [omap list_omap]. now rewrite Hx, IH.
Qed.

Lemma values_entries {V} (d : list (pystr * V)) (P : V -> Prop) :
  Forall (fun e => P e.2) d -> Forall P (Dict.values d).
Proof.
  unfold Dict.values. induction 1; simpl; constructor; auto.
Qed.

Lemma book_ok_entries w (P : loc -> Prop) :
  book_ok w ->
  (forall k l, entry_ok w (k, l) -> P l) ->
  Forall P (Dict.values (data w)).
Proof.
  intros (_ & _ & Hall) HP. apply values_entries.
  eapply Forall_impl; [exact Hall|]. intros [k l] He. exact (HP k l He).
Qed.

Lemma records_of_lookup w l r :
  l ∈ Dict.values (data w) -> heap w !! l = Some r -> r ∈ records_of w.
Proof.
  intros Hin Hl. unfold records_of. apply list_elem_of_omap. eauto.
Qed.

(** What holds of every reference of a sound book, from what holds of its
    entries. *)
Lemma book_ok_values w (P : loc -> Prop) :
  book_ok w ->
  (forall k l, l ∈ Dict.values (data w) -> entry_ok w (k, l) -> P l) ->
  Forall P (Dict.values (data w)).
Proof.
  intros (_ & _ & Hall) HP. apply Forall_forall. intros l Hin.
  pose proof Hin as Hin'. unfold Dict.values in Hin'.
  apply list_elem_of_In, in_map_iff in Hin' as ([k l'] & <- & Hkl).
  rewrite Forall_forall in Hall. apply (HP k); [exact Hin|].
  apply Hall. now apply list_elem_of_In.
Qed.

(** X10: In a sound book none of whose records has its birthday on the
    29th of February, and before the year 9999, [get_upcoming_birthdays]
    never raises, today's date being the same throughout the call.  It
    returns, in the order of the book, an element for each record whose
    next birthday is at most 7 days away, with the date of that birthday
    as the date of the congratulation; it leaves the book as it is.
    Records that are no longer in the book do not count. *)
Theorem upcoming_birthdays_without_29_february :
  forall (pad : bool) (today : Datetime.date) (w : world),
    book_ok w ->
    is_real today = true ->
    Datetime.year today < 9999 ->
    Forall (fun r => born_29_february r = false) (records_of w) ->
    AddressBook.get_upcoming_birthdays pad today w
    = (Ok (omap (fun l => heap w !! l ≫= entry_of pad today)
             (Dict.values (data w))), w).
Proof.
  intros pad today w Hok Hrt Hy Hfeb. rewrite Forall_forall in Hfeb.
  rewrite get_upcoming_birthdays_spec.
  - f_equal. f_equal. apply omap_ext_Forall.
    apply (book_ok_values w); [exact Hok|].
    intros k l Hin (r & Hl & _ & Hreal). cbn [snd] in Hl. rewrite Hl.
    cbn [mbind option_bind].
    apply upcoming_entry_without_29_february; eauto using records_of_lookup.
  - apply (book_ok_values w); [exact Hok|].
    intros k l Hin (r & Hl & _ & Hreal). cbn [snd] in Hl.
    exists r. split; [exact Hl|].
    apply (upcoming_entry_without_29_february pad);
      eauto using records_of_lookup.
Qed.

(** Alice is in the book; Bob, born on the 29th of February, was deleted
    from it and is still in the heap. *)
Lemma upcoming_birthdays_without_29_february_witness :
  let w := {| heap := {[ 1%positive := alice; 2%positive := bob ]};
              data := [(lit "Alice", 1%positive)] |} in
  book_ok w
  /\ is_real march_1_2023 = true
  /\ Datetime.year march_1_2023 < 9999
  /\ Forall (fun r => born_29_february r = false) (records_of w)
  /\ AddressBook.get_upcoming_birthdays false march_1_2023 w
     = (Ok [ {| AddressBook.u_name := lit "Alice";
                AddressBook.u_birthday :=
                  mkField (Datetime.mkdate 1990 3 2);
                AddressBook.u_congratulation_date := lit "02.03.2023" |} ],
        w).
Proof.
  intros w.
  assert (Hok : book_ok w).
  { split; [|split].
    - apply (bool_decide_unpack _). vm_compute. exact I.
    - apply (bool_decide_unpack _). vm_compute. exact I.
    - repeat constructor. exists alice. split; [reflexivity|].
      split; [reflexivity|]. intros b [= <-]. reflexivity. }
  assert (Hfeb : Forall (fun r => born_29_february r = false)
                   (records_of w)).
  { repeat constructor. }
  split; [exact Hok|]. split; [reflexivity|]. split; [reflexivity|].
  split; [exact Hfeb|].
  apply (upcoming_birthdays_without_29_february false march_1_2023 w Hok);
    [reflexivity|reflexivity|exact Hfeb].
Defined.




Lemma alice_and_bob_ok : book_ok alice_and_bob.
Proof.
  split; [|split].
  - apply (bool_decide_unpack _). vm_compute. exact I.
  - apply (bool_decide_unpack _). vm_compute. exact I.
  - repeat constructor.
    + exists alice. split; [reflexivity|]. split; [reflexivity|].
      intros b [= <-]. reflexivity.
    + exists bob. split; [reflexivity|]. split; [reflexivity|].
      intros b [= <-]. reflexivity.
Qed.


(* ===================================================================== *)
(** * The other handlers *)
(* ===================================================================== *)

Lemma args_of_length_2 (args : list pystr) :
  (length args <? 2)%nat = false ->
  exists a b rest, args = a :: b :: rest.
Proof.
  destruct args as [|a [|b rest]]; try discriminate. eauto.
Qed.

Lemma args_of_length_3 (args : list pystr) :
  (length args <? 3)%nat = false ->
  exists a b c rest, args = a :: b :: c :: rest.
Proof.
  destruct args as [|a [|b [|c rest]]]; try discriminate. eauto.
Qed.

Lemma add_birthday_found name s rest record self w :
  Dict.get name (data w) = Some record ->
  heap w !! record = Some self ->
  add_birthday (name :: s :: rest) w
  = match Birthday.init s with
    | Ok b =>
        (Ok (lit "Birthday for " ++ name
               ++ (match Record.birthday self with
                   | Some _ => lit " updated."
                   | None => lit " added."
                   end)),
         {| heap := <[record := {| Record.name := Record.name self;
                                   Record.phones := Record.phones self;
                                   Record.birthday := Some b |}]> (heap w);
            data := data w |})
    | Raise e => (Ok (str_exn e), w)
    end.
Proof.
  intros Hget Hself. unfold add_birthday, input_error.
  cbn [length Nat.ltb Nat.leb nth]. unfold bind at 1.
  rewrite (find_present _ _ _ Hget). cbn [eq_str].
  unfold bind at 1. unfold attr_on. rewrite (attr_spec _ _ _ _ Hself).
  destruct (Record.birthday self) as [b0|];
    unfold bind at 1; unfold call_on; rewrite (call_spec _ _ _ _ Hself);
    unfold Record.add_birthday;
    destruct (Birthday.init s) as [b|e]; cbn [fst snd]; unfold ret;
    try reflexivity;
    rewrite (insert_id _ _ _ Hself); now destruct w.
Qed.

Lemma change_contact_found name old new rest record self w :
  Dict.get name (data w) = Some record ->
  heap w !! record = Some self ->
  change_contact (name :: old :: new :: rest) w
  = (fst (Record.edit_phone old new self),
     {| heap := <[record := snd (Record.edit_phone old new self)]> (heap w);
        data := data w |}).
Proof.
  intros Hget Hself. unfold change_contact, input_error.
  cbn [length Nat.ltb Nat.leb nth]. unfold bind at 1.
  rewrite (find_present _ _ _ Hget). cbn [eq_str]. unfold call_on.
  rewrite (call_spec _ _ _ _ Hself).
  unfold Record.edit_phone.
  now destruct (Record.first_with_value old (Record.phones self)).
Qed.

Lemma show_phone_found name rest record self w :
  Dict.get name (data w) = Some record ->
  heap w !! record = Some self ->
  show_phone (name :: rest) w
  = (Ok (name ++ lit "'s phones: "
           ++ join (lit ", ") (List.map value (Record.phones self))), w).
Proof.
  intros Hget Hself. unfold show_phone, with_args0, input_error.
  unfold bind at 1. rewrite (find_present _ _ _ Hget). cbn [eq_str].
  unfold bind, attr_on. now rewrite (attr_spec _ _ _ _ Hself).
Qed.

Lemma show_birthday_found pad name rest record self w :
  Dict.get name (data w) = Some record ->
  heap w !! record = Some self ->
  show_birthday pad (name :: rest) w
  = (Ok (match Record.birthday self with
         | Some b => name ++ lit "'s birthday: " ++ Birthday.str pad b
         | None => name ++ lit " has no birthday set."
         end), w).
Proof.
  intros Hget Hself. unfold show_birthday, with_args0, input_error.
  unfold bind at 1. rewrite (find_present _ _ _ Hget). cbn [eq_str].
  unfold bind, attr_on. rewrite (attr_spec _ _ _ _ Hself).
  now destruct (Record.birthday self).
Qed.

(** X12: A name that is not in the book: every handler that looks a contact
    up, other than [add_contact], returns "Contact not found." and leaves
    the book and the records as they are. *)
Theorem handlers_on_a_missing_name :
  forall (w : world) (pad : bool) (name a b : pystr) (rest : list pystr),
    Dict.get name (data w) = None ->
    change_contact (name :: a :: b :: rest) w
    = (Ok (lit "Contact not found."), w)
    /\ add_birthday (name :: a :: rest) w
       = (Ok (lit "Contact not found."), w)
    /\ show_phone (name :: rest) w = (Ok (lit "Contact not found."), w)
    /\ show_birthday pad (name :: rest) w
       = (Ok (lit "Contact not found."), w).
Proof.
  intros w pad name a b rest Hget.
  unfold change_contact, add_birthday, show_phone, show_birthday,
    with_args0, input_error.
  cbn [length Nat.ltb Nat.leb nth]. unfold bind.
  rewrite (find_absent _ _ Hget), eq_str_not_found_inr.
  repeat split; reflexivity.
Qed.

Lemma handlers_on_a_missing_name_witness :
  Dict.get (lit "Ghost") (data alice_and_bob) = None
  /\ show_phone [lit "Ghost"] alice_and_bob
     = (Ok (lit "Contact not found."), alice_and_bob).
Proof.
  split; [reflexivity|].
  apply (handlers_on_a_missing_name alice_and_bob false (lit "Ghost")
           [] [] []).
  reflexivity.
Defined.

(** X13: [change_contact] validates nothing: when the old phone is among the
    phones of the contact, the first such phone takes the new value,
    whatever string that is, and [show_phone] then shows it in that place
    among the others. *)
Theorem change_contact_stores_any_string :
  forall (w : world) (name old new : pystr) (rest : list pystr)
         (record : loc) (self : Record.t)
         (pre : list Phone.t) (x : Phone.t) (post : list Phone.t),
    Dict.get name (data w) = Some record ->
    heap w !! record = Some self ->
    Record.phones self = pre ++ x :: post ->
    Forall (fun y : Phone.t => value y <> old) pre ->
    value x = old ->
    exists w',
      change_contact (name :: old :: new :: rest) w
      = (Ok (lit "Phone " ++ old ++ lit " changed to " ++ new ++ lit "."),
         w')
      /\ lookup_record w' name
         = Some {| Record.name := Record.name self;
                   Record.phones := pre ++ mkField new :: post;
                   Record.birthday := Record.birthday self |}
      /\ show_phone [name] w'
         = (Ok (name ++ lit "'s phones: "
                  ++ join (lit ", ")
                       (List.map value pre ++ new :: List.map value post)),
            w').
Proof.
  intros w name old new rest record self pre x post Hget Hself Hl Hpre Hx.
  rewrite (change_contact_found _ _ _ _ _ _ _ Hget Hself).
  unfold Record.edit_phone.
  rewrite Hl, (first_with_value_middle _ _ _ _ Hpre Hx).
  replace (length pre) with (length pre + 0)%nat by lia.
  rewrite insert_app_r. cbn [fst snd]. eexists. split; [reflexivity|].
  split.
  - unfold lookup_record. cbn [data heap]. rewrite Hget.
    now rewrite lookup_insert_eq.
  - erewrite show_phone_found.
    2: { cbn [data]. exact Hget. }
    2: { cbn [heap]. apply lookup_insert_eq. }
    cbn [Record.phones]. now rewrite List.map_app.
Qed.

Lemma change_contact_stores_any_string_witness :
  let self := {| Record.name := Name.init (lit "Alice");
                 Record.phones := [mkField (lit "0123456789")];
                 Record.birthday := None |} in
  let w := {| heap := {[ 1%positive := self ]};
              data := [(lit "Alice", 1%positive)] |} in
  is_ok (Phone.init (lit "abc")) = false
  /\ exists w',
      change_contact [lit "Alice"; lit "0123456789"; lit "abc"] w
      = (Ok (lit "Phone 0123456789 changed to abc."), w')
      /\ lookup_record w' (lit "Alice")
         = Some {| Record.name := Name.init (lit "Alice");
                   Record.phones := [mkField (lit "abc")];
                   Record.birthday := None |}
      /\ show_phone [lit "Alice"] w'
         = (Ok (lit "Alice's phones: abc"), w').
Proof.
  intros self w. split; [reflexivity|].
  apply (change_contact_stores_any_string w (lit "Alice")
           (lit "0123456789") (lit "abc") [] 1%positive self
           [] (mkField (lit "0123456789")) []);
    try reflexivity.
  constructor.
Defined.

(** X14: A date in the strict pattern DD.MM.YYYY that is a date of the
    calendar, given to [add_birthday] for a contact of the book, is
    stored as that date; the message says "added" or "updated" according
    to whether the contact had a birthday; and [show_birthday] then shows
    the very text that was given (for a year from 1000 on, or on a
    platform that pads the year).  The phones are not touched. *)
Theorem add_birthday_then_show_birthday :
  forall (w : world) (pad : bool) (name s : pystr) (rest : list pystr)
         (record : loc) (self : Record.t) (y m d : Z),
    Dict.get name (data w) = Some record ->
    heap w !! record = Some self ->
    strict_dmY s = Some (y, m, d) ->
    real_date y m d = true ->
    pad = true \/ 1000 <= y ->
    exists w',
      add_birthday (name :: s :: rest) w
      = (Ok (lit "Birthday for " ++ name
               ++ (match Record.birthday self with
                   | Some _ => lit " updated."
                   | None => lit " added."
                   end)), w')
      /\ lookup_record w' name
         = Some {| Record.name := Record.name self;
                   Record.phones := Record.phones self;
                   Record.birthday :=
                     Some (mkField (Datetime.mkdate y m d)) |}
      /\ show_birthday pad [name] w'
         = (Ok (name ++ lit "'s birthday: " ++ s), w').
Proof.
  intros w pad name s rest record self y m d Hget Hself Hs Hr Hpad.
  destruct (Birthday_init_strict s y m d Hs) as [Hok _].
  destruct (Hok Hr) as [Hinit Hstr].
  rewrite (add_birthday_found _ _ _ _ _ _ Hget Hself), Hinit.
  eexists. split; [reflexivity|]. split.
  - unfold lookup_record. cbn [data heap]. rewrite Hget.
    now rewrite lookup_insert_eq.
  - erewrite show_birthday_found.
    2: { cbn [data]. exact Hget. }
    2: { cbn [heap]. apply lookup_insert_eq. }
    cbn [Record.birthday]. now rewrite (Hstr pad Hpad).
Qed.

Lemma add_birthday_then_show_birthday_witness :
  let self := {| Record.name := Name.init (lit "Alice");
                 Record.phones := [mkField (lit "0123456789")];
                 Record.birthday := None |} in
  let w := {| heap := {[ 1%positive := self ]};
              data := [(lit "Alice", 1%positive)] |} in
  strict_dmY (lit "15.03.1990") = Some (1990, 3, 15)
  /\ real_date 1990 3 15 = true
  /\ exists w',
      add_birthday [lit "Alice"; lit "15.03.1990"] w
      = (Ok (lit "Birthday for Alice added."), w')
      /\ lookup_record w' (lit "Alice")
         = Some {| Record.name := Name.init (lit "Alice");
                   Record.phones := [mkField (lit "0123456789")];
                   Record.birthday :=
                     Some (mkField (Datetime.mkdate 1990 3 15)) |}
      /\ show_birthday false [lit "Alice"] w'
         = (Ok (lit "Alice's birthday: 15.03.1990"), w').
Proof.
  intros self w. split; [reflexivity|]. split; [reflexivity|].
  apply (add_birthday_then_show_birthday w false (lit "Alice")
           (lit "15.03.1990") [] 1%positive self 1990 3 15);
    try reflexivity.
  right. lia.
Defined.

(* ===================================================================== *)
(** * What the handlers keep *)
(* ===================================================================== *)

Lemma strs_of_read_only pad records :
  forall w, snd (strs_of pad records w) = w.
Proof.
  induction records as [|l records IH]; intros w; [reflexivity|].
  cbn [strs_of]. unfold bind at 1. unfold attr.
  destruct (heap w !! l); [|reflexivity].
  unfold bind at 1. specialize (IH w).
  destruct (strs_of pad records w) as [[ss|e] w']; cbn [snd] in *;
    now subst.
Qed.

Lemma show_phone_read_only args w : snd (show_phone args w) = w.
Proof.
  unfold show_phone, with_args0. destruct args as [|name rest];
    [reflexivity|].
  unfold input_error, bind, AddressBook.find, attr_on, attr, raise, ret.
  destruct (Dict.get name (data w)) as [l|]; cbn [eq_str].
  - now destruct (heap w !! l).
  - now rewrite bool_decide_eq_true_2.
Qed.

Lemma show_birthday_read_only pad args w :
  snd (show_birthday pad args w) = w.
Proof.
  unfold show_birthday, with_args0. destruct args as [|name rest];
    [reflexivity|].
  unfold input_error, bind, AddressBook.find, attr_on, attr, raise, ret.
  destruct (Dict.get name (data w)) as [l|]; cbn [eq_str].
  - destruct (heap w !! l) as [r|]; [|reflexivity].
    now destruct (Record.birthday r).
  - now rewrite bool_decide_eq_true_2.
Qed.

Lemma show_all_read_only pad args w : snd (show_all pad args w) = w.
Proof.
  unfold show_all, input_error.
  destruct (data w) as [|e d] eqn:Hd; [reflexivity|].
  unfold bind, ret.
  pose proof (strs_of_read_only pad (Dict.values (e :: d)) w) as H.
  destruct (strs_of pad (Dict.values (e :: d)) w) as [[ss|e'] w'];
    cbn [snd] in *; now subst.
Qed.

Lemma birthdays_read_only pad today args w :
  snd (birthdays pad today args w) = w.
Proof.
  unfold birthdays, input_error, bind,
    AddressBook.get_upcoming_birthdays, ret.
  destruct (AddressBook.upcoming_loop _ _ _ _ _) as [[|? ?]|e];
    reflexivity.
Qed.

(** X15: The handlers that show something change nothing, whatever their
    arguments and whatever they return, an error message included. *)
Theorem showing_handlers_change_nothing :
  forall (pad : bool) (today : Datetime.date) (args : list pystr)
         (w : world),
    snd (show_phone args w) = w
    /\ snd (show_birthday pad args w) = w
    /\ snd (show_all pad args w) = w
    /\ snd (birthdays pad today args w) = w.
Proof.
  intros pad today args w.
  auto using show_phone_read_only, show_birthday_read_only,
    show_all_read_only, birthdays_read_only.
Qed.

Lemma entry_ok_heap_ext w w' e :
  heap w' !! e.2 = heap w !! e.2 -> entry_ok w e -> entry_ok w' e.
Proof. unfold entry_ok. now intros ->. Qed.

Lemma book_ok_update w l r r' :
  book_ok w ->
  heap w !! l = Some r ->
  Record.name r' = Record.name r ->
  (forall b, Record.birthday r' = Some b -> is_real (value b) = true) ->
  book_ok {| heap := <[l := r']> (heap w); data := data w |}.
Proof.
  intros (Hk & Hv & Hall) Hl Hname Hreal.
  split; [exact Hk|]. split; [exact Hv|]. cbn [data].
  eapply Forall_impl; [exact Hall|].
  intros [k l0] (r0 & Hl0 & Hn0 & Hr0). cbn [fst snd] in *.
  unfold entry_ok. cbn [heap fst snd].
  destruct (decide (l = l0)) as [->|Hne].
  - rewrite lookup_insert_eq. exists r'. split; [reflexivity|].
    rewrite Hl in Hl0. injection Hl0 as <-. rewrite Hname. auto.
  - rewrite lookup_insert_ne by exact Hne. eauto.
Qed.

Lemma values_set_new {V} k (v : V) (d : list (pystr * V)) :
  Dict.get k d = None -> Dict.values (Dict.set k v d) = Dict.values d ++ [v].
Proof.
  intros H. rewrite (dict_set_new _ _ _ H). unfold Dict.values.
  now rewrite List.map_app.
Qed.

Lemma book_ok_new w name self :
  book_ok w ->
  Dict.get name (data w) = None ->
  value (Record.name self) = name ->
  Record.birthday self = None ->
  book_ok (with_new_record name self w).
Proof.
  intros (Hk & Hv & Hall) Hget Hname Hb. unfold with_new_record.
  set (l := fresh (dom (heap w))).
  assert (Hfresh : heap w !! l = None).
  { apply not_elem_of_dom. apply is_fresh. }
  assert (Hlive : Forall (fun e => e.2 <> l) (data w)).
  { eapply Forall_impl; [exact Hall|].
    intros [k l0] (r0 & Hl0 & _) Heq. cbn [snd] in *. congruence. }
  split; [|split]; cbn [data].
  - now apply NoDup_keys_set.
  - rewrite (values_set_new _ _ _ Hget). apply NoDup_app.
    split; [exact Hv|]. split; [|apply NoDup_singleton].
    intros x Hx ->%list_elem_of_singleton.
    unfold Dict.values in Hx. apply list_elem_of_In in Hx.
    apply in_map_iff in Hx as ([k l0] & Heq & Hin). cbn [snd] in Heq.
    subst l0. rewrite Forall_forall in Hlive.
    apply (Hlive (k, l)); [now apply list_elem_of_In|reflexivity].
  - rewrite (dict_set_new _ _ _ Hget). apply Forall_app. split.
    + rewrite Forall_forall in Hall, Hlive. apply Forall_forall.
      intros e He. apply (entry_ok_heap_ext w); [|now apply Hall].
      cbn [heap]. apply lookup_insert_ne. intros Heq.
      now apply (Hlive e He).
    + constructor; [|constructor]. exists self. cbn [heap fst snd].
      rewrite lookup_insert_eq. split; [reflexivity|].
      split; [exact Hname|]. rewrite Hb. discriminate.
Qed.

Lemma book_ok_delete w name :
  book_ok w -> book_ok {| heap := heap w; data := Dict.del name (data w) |}.
Proof.
  intros (Hk & Hv & Hall). split; [|split]; cbn [data].
  - now apply NoDup_keys_del.
  - eapply sublist_NoDup; [exact Hv|].
    unfold Dict.values. apply (fmap_sublist snd), dict_del_sublist.
  - rewrite Forall_forall in Hall. apply Forall_forall. intros e He.
    apply Hall. eapply elem_of_sublist; [exact He|].
    apply dict_del_sublist.
Qed.

Lemma book_ok_found w name l :
  book_ok w -> Dict.get name (data w) = Some l ->
  exists r, heap w !! l = Some r
            /\ forall b, Record.birthday r = Some b ->
                         is_real (value b) = true.
Proof.
  intros Hok Hget. apply dict_get_Some_In in Hget.
  destruct (entry_ok_lookup w name l Hok Hget) as (r & Hl & _ & Hr).
  eauto.
Qed.

Lemma add_contact_keeps_book_ok args w :
  book_ok w -> book_ok (snd (add_contact args w)).
Proof.
  intros Hok.
  destruct (length args <? 2)%nat eqn:Hlen.
  { unfold add_contact, input_error. now rewrite Hlen. }
  apply args_of_length_2 in Hlen as (name & phone & rest & ->).
  destruct (Dict.get name (data w)) as [l|] eqn:Hget.
  - destruct (book_ok_found _ _ _ Hok Hget) as (r & Hl & Hreal).
    rewrite (add_contact_existing _ _ _ _ _ _ Hget Hl).
    destruct phone as [|c phone]; [exact Hok|].
    destruct (Phone.init (c :: phone)); [|exact Hok].
    cbn [snd]. now apply (book_ok_update w l r).
  - rewrite (add_contact_new _ _ _ _ Hget).
    destruct phone as [|c phone];
      [|destruct (Phone.init (c :: phone))]; cbn [snd];
      now apply book_ok_new.
Qed.

Lemma add_birthday_keeps_book_ok args w :
  book_ok w -> book_ok (snd (add_birthday args w)).
Proof.
  intros Hok.
  destruct (length args <? 2)%nat eqn:Hlen.
  { unfold add_birthday, input_error. now rewrite Hlen. }
  apply args_of_length_2 in Hlen as (name & s & rest & ->).
  destruct (Dict.get name (data w)) as [l|] eqn:Hget.
  - destruct (book_ok_found _ _ _ Hok Hget) as (r & Hl & Hreal).
    rewrite (add_birthday_found _ _ _ _ _ _ Hget Hl).
    destruct (Birthday.init s) as [b|e] eqn:Hb; [|exact Hok].
    cbn [snd]. apply (book_ok_update w l r); auto.
    cbn [Record.birthday]. intros b' [= <-].
    exact (Birthday_init_real _ _ Hb).
  - unfold add_birthday, input_error.
    cbn [length Nat.ltb Nat.leb nth]. unfold bind.
    now rewrite (find_absent _ _ Hget), eq_str_not_found_inr.
Qed.

Lemma change_contact_keeps_book_ok args w :
  book_ok w -> book_ok (snd (change_contact args w)).
Proof.
  intros Hok.
  destruct (length args <? 3)%nat eqn:Hlen.
  { unfold change_contact, input_error. now rewrite Hlen. }
  apply args_of_length_3 in Hlen as (name & old & new & rest & ->).
  destruct (Dict.get name (data w)) as [l|] eqn:Hget.
  - destruct (book_ok_found _ _ _ Hok Hget) as (r & Hl & Hreal).
    rewrite (change_contact_found _ _ _ _ _ _ _ Hget Hl). cbn [snd].
    apply (book_ok_update w l r); auto; unfold Record.edit_phone;
      destruct (Record.first_with_value old (Record.phones r)); auto.
  - unfold change_contact, input_error.
    cbn [length Nat.ltb Nat.leb nth]. unfold bind.
    now rewrite (find_absent _ _ Hget), eq_str_not_found_inr.
Qed.

Lemma delete_keeps_book_ok name w :
  book_ok w -> book_ok (snd (AddressBook.delete name w)).
Proof.
  intros Hok. unfold AddressBook.delete.
  destruct (Dict.get name (data w)); [|exact Hok].
  cbn [snd]. now apply book_ok_delete.
Qed.

(** X16: Whatever their arguments, [add_contact], [add_birthday],
    [change_contact] and [delete] leave a book in which the names are
    distinct, no record is under two names, every name refers to a
    record with that name, and every birthday is a date of the
    calendar. *)
Theorem changing_handlers_keep_the_book_sound :
  forall (args : list pystr) (name : pystr) (w : world),
    book_ok w ->
    book_ok (snd (add_contact args w))
    /\ book_ok (snd (add_birthday args w))
    /\ book_ok (snd (change_contact args w))
    /\ book_ok (snd (AddressBook.delete name w)).
Proof.
  intros args name w Hok.
  auto using add_contact_keeps_book_ok, add_birthday_keeps_book_ok,
    change_contact_keeps_book_ok, delete_keeps_book_ok.
Qed.

Lemma changing_handlers_keep_the_book_sound_witness :
  book_ok alice_and_bob
  /\ book_ok (snd (add_contact [lit "Carol"; lit "0123456789"]
                     alice_and_bob)).
Proof.
  split; [exact alice_and_bob_ok|].
  apply (changing_handlers_keep_the_book_sound
           [lit "Carol"; lit "0123456789"] (lit "Carol") alice_and_bob).
  exact alice_and_bob_ok.
Defined.

Lemma strs_of_spec pad w records :
  Forall (fun l => is_Some (heap w !! l)) records ->
  strs_of pad records w
  = (Ok (List.map (Record_str pad) (omap (fun l => heap w !! l) records)),
     w).
Proof.
  induction 1 as [|l records [r Hl] _ IH]; [reflexivity|].
  cbn [strs_of omap list_omap]. unfold bind at 1.
  rewrite (attr_spec _ _ _ _ Hl), Hl. unfold bind at 1. now rewrite IH.
Qed.

Lemma records_of_length w :
  book_ok w -> length (records_of w) = length (data w).
Proof.
  intros (_ & _ & Hall). unfold records_of, Dict.values.
  induction Hall as [|[k l] d (r & Hl & _) _ IH]; [reflexivity|].
  cbn [List.map snd omap list_omap] in *. rewrite Hl. simpl. now rewrite IH.
Qed.

(** X17: [show_all] on a sound book never fails: it returns "No contacts added
    yet" when the book is empty and otherwise the texts of the records,
    one for each name and in the order the names were added, joined by
    new lines. *)
Theorem show_all_lists_every_record_in_order :
  forall (pad : bool) (args : list pystr) (w : world),
    book_ok w ->
    show_all pad args w
    = (Ok (match data w with
           | [] => lit "No contacts added yet"
           | _ :: _ =>
               join [10%N] (List.map (Record_str pad) (records_of w))
           end), w)
    /\ length (records_of w) = length (data w).
Proof.
  intros pad args w Hok. split; [|now apply records_of_length].
  unfold show_all, input_error.
  destruct (data w) as [|e d] eqn:Hd; [reflexivity|].
  unfold bind. rewrite strs_of_spec.
  - unfold records_of. now rewrite Hd.
  - rewrite <- Hd. apply (book_ok_entries w); [exact Hok|].
    intros k l (r & Hl & _). eauto.
Qed.

Lemma show_all_lists_every_record_in_order_witness :
  book_ok alice_and_bob
  /\ show_all false [] alice_and_bob
     = (Ok (lit "Contact name: Alice, phones: , birthday: 02.03.1990"
              ++ [10%N]
              ++ lit "Contact name: Bob, phones: , birthday: 29.02.2000"),
        alice_and_bob)
  /\ length (records_of alice_and_bob) = length (data alice_and_bob).
Proof.
  split; [exact alice_and_bob_ok|].
  apply (show_all_lists_every_record_in_order false [] alice_and_bob).
  exact alice_and_bob_ok.
Defined.

(* ===================================================================== *)
(** * [parse_input] and [main] *)
(* ===================================================================== *)

Lemma split_from_spec s :
  forall word,
    forallb (fun c => negb (isspace c)) word = true ->
    Forall is_word (split_from word s)
    /\ concat (split_from word s)
       = rev word ++ List.filter (fun c => negb (isspace c)) s.
Proof.
  induction s as [|c s IH]; intros word Hword; cbn [split_from].
  - destruct word as [|a word]; [split; [constructor|reflexivity]|].
    split.
    + constructor; [|constructor]. split.
      * intros H%(f_equal (@length N)). rewrite length_rev in H.
        discriminate.
      * rewrite forallb_forall in *. intros x Hx. apply Hword.
        now apply in_rev.
    + cbn [concat List.filter]. now rewrite !app_nil_r.
  - cbn [List.filter]. destruct (isspace c) eqn:Hc; cbn [negb].
    + destruct (IH [] eq_refl) as [IH1 IH2].
      destruct word as [|a word]; [split; assumption|]. split.
      * constructor; [|exact IH1]. split.
        -- intros H%(f_equal (@length N)). rewrite length_rev in H.
           discriminate.
        -- rewrite forallb_forall in *. intros x Hx. apply Hword.
           now apply in_rev.
      * cbn [concat]. now rewrite IH2.
    + destruct (IH (c :: word)) as [IH1 IH2].
      { cbn [forallb]. now rewrite Hc, Hword. }
      split; [exact IH1|]. rewrite IH2. cbn [rev].
      now rewrite <- app_assoc.
Qed.

Lemma split_words s : Forall is_word (split s).
Proof. now apply split_from_spec. Qed.

Lemma concat_split s :
  concat (split s) = List.filter (fun c => negb (isspace c)) s.
Proof. now apply (split_from_spec s []). Qed.

Lemma split_nil_iff s : split s = [] <-> forallb isspace s = true.
Proof.
  pose proof (split_words s) as Hw. pose proof (concat_split s) as Hc.
  split.
  - intros H. rewrite H in Hc. cbn [concat] in Hc.
    apply forallb_forall. intros c Hin.
    destruct (isspace c) eqn:E; [reflexivity|].
    assert (Hf : In c (List.filter (fun c => negb (isspace c)) s)).
    { apply filter_In. split; [exact Hin|]. now rewrite E. }
    rewrite <- Hc in Hf. destruct Hf.
  - intros H. destruct (split s) as [|a l]; [reflexivity|].
    apply Forall_cons in Hw as [[Ha _] _].
    destruct a as [|c a]; [congruence|]. cbn [concat app] in Hc.
    assert (Hf : In c (List.filter (fun c => negb (isspace c)) s)).
    { rewrite <- Hc. now left. }
    apply filter_In in Hf as [Hin Hns]. rewrite forallb_forall in H.
    rewrite (H c Hin) in Hns. discriminate.
Qed.

Lemma lstrip_ws_head s :
  lstrip_ws s = []
  \/ exists c t, lstrip_ws s = c :: t /\ isspace c = false.
Proof.
  induction s as [|c s IH]; [now left|]. cbn [lstrip_ws].
  destruct (isspace c) eqn:E; [exact IH|]. right. eauto.
Qed.

Lemma split_of_stripped s : str_strip s <> [] -> split (str_strip s) <> [].
Proof.
  unfold str_strip. intros Hne Hsplit.
  destruct (lstrip_ws_head (rev (lstrip_ws s))) as [H|(c & t & H & Hc)].
  - rewrite H in Hne. now apply Hne.
  - rewrite H in Hsplit. apply split_nil_iff in Hsplit.
    rewrite forallb_forall in Hsplit.
    assert (Hin : In c (rev (c :: t))) by (apply in_rev; rewrite rev_involutive; now left).
    rewrite (Hsplit c Hin) in Hc. discriminate.
Qed.

Lemma split_from_spaces sp s :
  forallb isspace sp = true -> split_from [] (sp ++ s) = split_from [] s.
Proof.
  induction sp as [|c sp IH]; intros H; [reflexivity|].
  cbn [forallb] in H. apply andb_true_iff in H as [Hc H].
  cbn [app split_from]. rewrite Hc. now apply IH.
Qed.

Lemma split_from_word w :
  forall acc s,
    forallb (fun c => negb (isspace c)) w = true ->
    split_from acc (w ++ s) = split_from (rev w ++ acc) s.
Proof.
  induction w as [|c w IH]; intros acc s H; [reflexivity|].
  cbn [forallb] in H. apply andb_true_iff in H as [Hc H].
  apply negb_true_iff in Hc.
  cbn [app split_from]. rewrite Hc. rewrite IH by exact H.
  cbn [rev]. now rewrite <- app_assoc.
Qed.

Lemma cut_into_split s ws : cut_into s ws -> split s = ws.
Proof.
  unfold split. induction 1 as [s Hs|sp w rest ws Hsp [Hne Hw] Hrest _ IH].
  - now apply split_nil_iff.
  - rewrite split_from_spaces by exact Hsp.
    rewrite split_from_word by exact Hw. rewrite app_nil_r.
    destruct (rev w) as [|a acc] eqn:Hrev.
    { apply (f_equal (@rev N)) in Hrev. rewrite rev_involutive in Hrev.
      now destruct Hne. }
    rewrite <- IH.
    destruct Hrest as [->|(c & rest' & -> & Hc)].
    + cbn [split_from]. rewrite <- Hrev, rev_involutive. reflexivity.
    + cbn [split_from]. rewrite Hc. rewrite <- Hrev, rev_involutive.
      reflexivity.
Qed.

Lemma cut_into_space c s ws :
  isspace c = true -> cut_into s ws -> cut_into (c :: s) ws.
Proof.
  intros Hc H. destruct H as [s Hs|sp w rest ws Hsp Hw Hrest Hcut].
  - constructor. cbn [forallb]. now rewrite Hc.
  - apply (cut_word (c :: sp) w rest ws); auto.
    cbn [forallb]. now rewrite Hc.
Qed.

(** The word being read and what is left of the line. *)
Lemma split_from_cut s :
  forall acc,
    forallb (fun c => negb (isspace c)) acc = true ->
    match acc with
    | [] => cut_into s (split_from [] s)
    | _ :: _ =>
        exists w rest ws,
          s = w ++ rest
          /\ forallb (fun c => negb (isspace c)) w = true
          /\ (rest = [] \/ exists c rest', rest = c :: rest' /\ isspace c = true)
          /\ cut_into rest ws
          /\ split_from acc s = (rev acc ++ w) :: ws
    end.
Proof.
  induction s as [|c s IH]; intros acc Hacc.
  - destruct acc as [|a acc]; [now constructor|].
    exists [], [], []. rewrite !app_nil_r.
    split; [reflexivity|]. split; [reflexivity|]. split; [now left|].
    split; [apply cut_blank; reflexivity|reflexivity].
  - destruct (isspace c) eqn:Hc.
    + pose proof (IH [] eq_refl) as IH0. cbn [split_from] in *. rewrite Hc.
      destruct acc as [|a acc].
      * now apply cut_into_space.
      * exists [], (c :: s), (split_from [] s). rewrite app_nil_r.
        split; [reflexivity|]. split; [reflexivity|].
        split; [right; eauto|].
        split; [now apply cut_into_space|reflexivity].
    + specialize (IH (c :: acc)). cbn [forallb] in IH. rewrite Hc in IH.
      cbn [negb andb] in IH. specialize (IH Hacc).
      destruct IH as (w & rest & ws & -> & Hw & Hrest & Hcut & Hsp).
      cbn [split_from]. rewrite Hc.
      destruct acc as [|a acc].
      * rewrite Hsp. cbn [rev app].
        apply (cut_word [] (c :: w) rest ws); auto.
        split; [discriminate|]. cbn [forallb]. now rewrite Hc, Hw.
      * exists (c :: w), rest, ws.
        split; [reflexivity|]. split; [cbn [forallb]; now rewrite Hc, Hw|].
        split; [exact Hrest|]. split; [exact Hcut|].
        rewrite Hsp. cbn [rev]. now rewrite <- !app_assoc.
Qed.

Lemma split_cut_into s ws : split s = ws <-> cut_into s ws.
Proof.
  split; [|apply cut_into_split].
  intros <-. exact (split_from_cut s [] eq_refl).
Qed.

Lemma lstrip_ws_word w :
  is_word w -> lstrip_ws w = w.
Proof.
  intros [Hne Hw]. destruct w as [|c w]; [reflexivity|].
  cbn [forallb] in Hw. apply andb_true_iff in Hw as [Hc _].
  apply negb_true_iff in Hc. cbn [lstrip_ws]. now rewrite Hc.
Qed.

Lemma str_strip_word w : is_word w -> str_strip w = w.
Proof.
  intros Hw. unfold str_strip. rewrite (lstrip_ws_word w Hw).
  rewrite lstrip_ws_word; [apply rev_involutive|].
  destruct Hw as [Hne Hw]. split.
  - intros H. apply (f_equal (@rev N)) in H. rewrite rev_involutive in H.
    now apply Hne.
  - rewrite forallb_forall in *. intros x Hx. apply Hw. now apply in_rev.
Qed.

(** X18: [parse_input] cuts the line at its white space.  It fails only
    on a line of white space; otherwise the line is, for one list of
    words and no other, white space, a word, white space, the next word
    and so on, where a word holds no white space and ends where the line
    ends or white space follows: the command is the first of these words
    in lower case, stripping it changes nothing, and the arguments are the
    other words in their order. *)
Theorem parse_input_returns_words :
  forall (str_lower : pystr -> pystr) (s : pystr),
    (parse_input str_lower s = None <-> forallb isspace s = true)
    /\ (forall cmd args,
          parse_input str_lower s = Some (cmd, args) <->
          exists first,
            cut_into s (first :: args)
            /\ str_strip first = first
            /\ cmd = str_lower first)
    /\ (forall ws ws', cut_into s ws -> cut_into s ws' -> ws = ws').
Proof.
  intros str_lower s. unfold parse_input. split; [|split].
  - pose proof (split_nil_iff s) as Hn.
    destruct (split s) as [|first args].
    + split; [intros _; now apply Hn|reflexivity].
    + split; [discriminate|]. intros H%Hn. discriminate.
  - intros cmd args. split.
    + destruct (split s) as [|first args'] eqn:Hsp; [discriminate|].
      intros [= <- <-]. apply split_cut_into in Hsp.
      assert (Hw : is_word first) by (inversion Hsp; assumption).
      exists first. rewrite (str_strip_word first Hw). auto.
    + intros (first & Hcut & Hstrip & ->).
      apply split_cut_into in Hcut. rewrite Hcut. now rewrite Hstrip.
  - intros ws ws' H1%split_cut_into H2%split_cut_into. congruence.
Qed.

Lemma parse_input_returns_words_witness :
  parse_input id (lit "add  Alice 0123456789 ")
  = Some (lit "add", [lit "Alice"; lit "0123456789"])
  /\ exists first,
       cut_into (lit "add  Alice 0123456789 ")
         [first; lit "Alice"; lit "0123456789"]
       /\ str_strip first = first
       /\ lit "add" = id first.
Proof.
  split; [reflexivity|].
  apply (proj1 (proj2 (parse_input_returns_words id
                         (lit "add  Alice 0123456789 ")))
           (lit "add") [lit "Alice"; lit "0123456789"]).
  reflexivity.
Defined.

Lemma input_error_Ok {X} (f : X -> M pystr) a w :
  exists text, fst (input_error f a w) = Ok text.
Proof.
  unfold input_error. destruct (f a w) as [[s|e] w']; eauto.
Qed.

Lemma with_args0_Ok args (f : pystr -> list pystr -> M pystr) w :
  exists text,
    fst (with_args0 args (fun name => input_error (f name) args) w)
    = Ok text.
Proof.
  destruct args as [|name rest]; [eexists; reflexivity|].
  apply input_error_Ok.
Qed.

(** What holds of every handler a command can name: it returns a text
    and keeps a sound book sound. *)
Lemma handler_ok pad today command h :
  handler pad today command = Some h ->
  forall args w,
    (exists text, fst (h args w) = Ok text)
    /\ (book_ok w -> book_ok (snd (h args w))).
Proof.
  unfold handler. intros H args w.
  repeat match type of H with
         | (if ?c then _ else _) = _ => destruct c
         end; try discriminate; inversion H as [Hh]; clear H.
  - split; [apply input_error_Ok|apply add_contact_keeps_book_ok].
  - split; [apply input_error_Ok|apply change_contact_keeps_book_ok].
  - split; [apply with_args0_Ok|now rewrite show_phone_read_only].
  - split; [apply input_error_Ok|now rewrite show_all_read_only].
  - split; [apply input_error_Ok|apply add_birthday_keeps_book_ok].
  - split; [apply with_args0_Ok|now rewrite show_birthday_read_only].
  - split; [apply input_error_Ok|now rewrite birthdays_read_only].
Qed.

Section MainFacts.

Variable bytes : Type.
Variable pickle_dumps : world -> bytes.
Variable pickle_loads : bytes -> result world.
Variable str_lower : pystr -> pystr.
Variable pad_year : bool.

Ltac body_done :=
  eexists _, _, _, _; split; [reflexivity|];
  split; [auto|];
  split; intros Hc; try discriminate Hc; auto.

Lemma main_body_spec today line book fs :
  exists text c book' fs',
    main_body bytes pickle_dumps str_lower pad_year today line book fs
    = (Ok (text, c), book', fs')
    /\ (book_ok book -> book_ok book')
    /\ (c = Next -> fs' = fs)
    /\ (c = Break ->
        book' = book
        /\ fs' = save_data bytes pickle_dumps book default_filename fs).
Proof.
  unfold main_body.
  destruct (str_strip line) as [|c0 rest] eqn:Hs.
  { body_done. }
  destruct (parse_input str_lower (c0 :: rest)) as [[command args]|] eqn:Hp.
  2: { exfalso. unfold parse_input in Hp.
       destruct (split (c0 :: rest)) eqn:Hsp; [|discriminate].
       rewrite <- Hs in Hsp. apply split_of_stripped in Hsp; [exact Hsp|].
       now rewrite Hs. }
  destruct (decide (command = lit "close" \/ command = lit "exit")).
  { body_done. }
  destruct (decide (command = lit "hello")).
  { body_done. }
  destruct (handler pad_year today command) as [h|] eqn:Hh.
  - destruct (handler_ok _ _ _ _ Hh args book) as [[text Htext] Hok].
    destruct (h args book) as [r book'] eqn:Hr. cbn [fst snd] in *.
    subst r. body_done.
  - body_done.
Qed.

Lemma main_loop_spec inputs :
  forall book fs out e book' fs',
    main_loop bytes pickle_dumps str_lower pad_year inputs book fs
    = (out, e, book', fs') ->
    (forall x, e <> Crashed x)
    /\ (book_ok book -> book_ok book')
    /\ (e = EndOfInput -> fs' = fs /\ length out = length inputs)
    /\ (e = Exited ->
        fs' = save_data bytes pickle_dumps book' default_filename fs
        /\ (length out <= length inputs)%nat).
Proof.
  induction inputs as [|[today line] inputs IH];
    intros book fs out e book' fs' H; cbn [main_loop] in H.
  - injection H as <- <- <- <-.
    split; [discriminate|]. split; [auto|]. split; [auto|discriminate].
  - destruct (main_body_spec today line book fs)
      as (text & c & book1 & fs1 & Hb & Hok & Hnext & Hbreak).
    rewrite Hb in H. destruct c.
    + specialize (Hnext eq_refl). subst fs1.
      destruct (main_loop _ _ _ _ inputs book1 fs)
        as [[[out1 e1] book2] fs2] eqn:Hl.
      injection H as <- <- <- <-.
      destruct (IH _ _ _ _ _ _ Hl) as (Hc & Hok2 & Heof & Hex).
      split; [exact Hc|]. split; [auto|]. split.
      * intros He. destruct (Heof He) as [-> Hlen]. cbn [length].
        now rewrite Hlen.
      * intros He. destruct (Hex He) as [-> Hlen]. cbn [length].
        split; [reflexivity|lia].
    + destruct (Hbreak eq_refl) as [-> ->].
      injection H as <- <- <- <-.
      split; [discriminate|]. split; [auto|]. split; [discriminate|].
      intros _. split; [reflexivity|]. cbn [length]. lia.
Qed.


End MainFacts.


Section Sessions.

Variable bytes : Type.
Variable pickle_dumps : world -> bytes.
Variable pickle_loads : bytes -> result world.
Variable str_lower : pystr -> pystr.
Variable pad_year : bool.

Hypothesis pickle_roundtrip :
  forall w, exists w',
    pickle_loads (pickle_dumps w) = Ok w' /\ contents w' = contents w.

(** X20: A session that ends on "close" or "exit" leaves a file from which
    the next session starts with the same names, in the same order, and
    the same state of every record; [pickle] is taken with its round-trip
    guarantee.  Without a file, a session starts with an empty book. *)
Theorem next_session_starts_where_the_last_ended :
  forall (inputs : list (Datetime.date * pystr)) (fs : gmap pystr bytes)
         (out : list pystr) (book : world) (fs' : gmap pystr bytes),
    main bytes pickle_dumps pickle_loads str_lower pad_year inputs fs
    = (out, Exited, Some book, fs') ->
    (exists book',
       load_data bytes pickle_loads default_filename fs' = Ok book'
       /\ contents book' = contents book
       /\ main bytes pickle_dumps pickle_loads str_lower pad_year [] fs'
          = ([lit "Welcome to the assistant bot!"], EndOfInput,
             Some book', fs'))
    /\ (fs !! default_filename = None ->
        main bytes pickle_dumps pickle_loads str_lower pad_year [] fs
        = ([lit "Welcome to the assistant bot!"], EndOfInput,
           Some empty_book, fs)).
Proof.
  intros inputs fs out book fs' Hmain. split.
  - assert (Hfs : fs' = save_data bytes pickle_dumps book
                          default_filename fs).
    { unfold main in Hmain.
      destruct (load_data bytes pickle_loads default_filename fs)
        as [book0|x]; [|discriminate].
      destruct (main_loop _ _ _ _ inputs book0 fs)
        as [[[out1 e1] book1] fs1] eqn:Hl.
      injection Hmain as <- -> -> <-.
      now destruct (main_loop_spec _ _ _ _ _ _ _ _ _ _ _ Hl)
        as (_ & _ & _ & [-> _]). }
    destruct (pickle_roundtrip book) as (book' & Hload & Hsame).
    exists book'.
    assert (Hl : load_data bytes pickle_loads default_filename fs'
                 = Ok book').
    { rewrite Hfs. unfold load_data, save_data.
      now rewrite lookup_insert_eq. }
    split; [exact Hl|]. split; [exact Hsame|].
    unfold main. now rewrite Hl.
  - intros Hnone. unfold main, load_data. now rewrite Hnone.
Qed.

End Sessions.

Lemma next_session_starts_where_the_last_ended_witness :
  let inputs := [(march_1_2023, lit "add Alice 0123456789");
                 (march_1_2023, lit "exit")] in
  exists out book fs' book',
    main world id Ok id false inputs ∅ = (out, Exited, Some book, fs')
    /\ lookup_record book (lit "Alice")
       = Some {| Record.name := Name.init (lit "Alice");
                 Record.phones := [mkField (lit "0123456789")];
                 Record.birthday := None |}
    /\ load_data world Ok default_filename fs' = Ok book'
    /\ contents book' = contents book.
Proof.
  intros inputs.
  destruct (main world id Ok id false inputs ∅)
    as [[[out e] final] fs'] eqn:Hmain.
  assert (He : e = Exited /\ exists book, final = Some book
               /\ lookup_record book (lit "Alice")
                  = Some {| Record.name := Name.init (lit "Alice");
                            Record.phones := [mkField (lit "0123456789")];
                            Record.birthday := None |}).
  { vm_compute in Hmain. injection Hmain as _ <- <- _.
    split; [reflexivity|]. eexists. split; [reflexivity|].
    vm_compute. reflexivity. }
  destruct He as [-> (book & -> & Hrec)].
  destruct (next_session_starts_where_the_last_ended world id Ok id false
              ltac:(intros w; exists w; split; reflexivity)
              inputs ∅ out book fs' Hmain)
    as [(book' & Hload & Hsame & _) _].
  exists out, book, fs', book'. auto.
Defined.
